(** * News-event volatility analysis

    A shallow embedding of [news_volatility_analysis.py]: the per-event
    window location and volatility computation
    ([calculate_event_volatility]), the batch loop ([analyze_all_events]),
    the charts ([create_visualizations]), the summary stage
    ([print_summary_stats]) and the [__main__] block, together with the
    pandas and numpy operations they call, and of the two repair scripts
    [fix.py] and [fix_complete.py].

    Numbers.  A Python or numpy float is an IEEE 754 binary64 value, embedded
    as Rocq's primitive [float]: every float operation of the script is the
    correctly rounded operation of the machine, with its infinities, its
    NaN and its signed zeros.  Python integers are [Z].  The anchor that
    [searchsorted] returns is a numpy [int64], and adding the window length
    to it wraps around as the machine does.  Timestamps are [Z] (a position
    on the time line); strings are [string].

    Library versions.  Where pandas changed behaviour between its versions
    the development takes the version as a parameter:
    [Series.pct_change] pads missing closes before it divides in pandas up
    to 2.x and does not in pandas 3 ([fill_method_pad]).  The sums are
    numpy's pairwise summation; the statistics are those of pandas' [nanops]
    without the optional bottleneck package; the group mean is the
    compensated sum of pandas' [group_mean].  A window length outside the
    [int64] range, which numpy refuses or promotes depending on its version,
    is outside the model.

    Effects.  An exception is a [Raise] in the [result] monad.  The price
    frame is passed by reference in the script and assigned to, so
    [calculate_event_volatility] and the loops return the frame they leave
    behind next to their result.  [pd.to_datetime] and the price provider
    are parameters of the development.  The repair scripts act on a file
    system, a map from names to contents; text mode is that of a platform
    whose line separator is the line feed. *)

From Stdlib Require Import String Ascii.
From Stdlib Require Import Floats ZArith List Bool Arith.
From Stdlib Require Import Lia Sorted Permutation.
From Stdlib Require Uint63.
Import ListNotations.

(* ================================================================== *)
(** * Python values *)
(* ================================================================== *)

(** ** Exceptions and results *)

Inductive exn : Type :=
| KeyError (key : string)
| ValueError
| ZeroDivisionError.

Inductive result (A : Type) : Type :=
| Ok (a : A)
| Raise (e : exn).

Arguments Ok {A} a.
Arguments Raise {A} e.

Definition bind {A B : Type} (m : result A) (k : A -> result B) : result B :=
  match m with
  | Ok a => k a
  | Raise e => Raise e
  end.

Notation "x <- m ;; k" := (bind m (fun x => k))
  (at level 61, m at next level, right associativity).


(** ** Floats

    [float] is binary64.  The operations below are numpy's on [float64]
    and Python's on [float]: both are the IEEE operations, and none of
    them raises, except Python's division by zero. *)

(** [pd.isna] / [np.isnan] on a scalar: [x != x]. *)
Definition isna (v : float) : bool := PrimFloat.is_nan v.

Definition notna (v : float) : bool := negb (isna v).

Definition fadd (a b : float) : float := PrimFloat.add a b.
Definition fsub (a b : float) : float := PrimFloat.sub a b.
Definition fmul (a b : float) : float := PrimFloat.mul a b.

(** numpy's true division: a zero divisor gives an infinity (or NaN for
    0/0), never an exception. *)
Definition fdiv (a b : float) : float := PrimFloat.div a b.

Definition fsqrt (a : float) : float := PrimFloat.sqrt a.

(** IEEE comparisons: anything compared with NaN is false, and the two
    zeros are equal. *)
Definition fltb (a b : float) : bool := PrimFloat.ltb a b.
Definition fgtb (a b : float) : bool := fltb b a.
Definition fleb (a b : float) : bool := PrimFloat.leb a b.
Definition fgeb (a b : float) : bool := fleb b a.
Definition feqb (a b : float) : bool := PrimFloat.eqb a b.

(** The float of an integer whose magnitude is below [2^63]; it is exact
    below [2^53], as for every count and length of a frame in memory. *)
Definition float_of_Z (n : Z) : float :=
  if (n <? 0)%Z then PrimFloat.opp (PrimFloat.of_uint63 (Uint63.of_Z (- n)))
  else PrimFloat.of_uint63 (Uint63.of_Z n).

Definition float_of_nat (n : nat) : float := float_of_Z (Z.of_nat n).

(** Python's [/] on two Python floats raises on a zero divisor. *)
Definition py_truediv (a b : float) : result float :=
  if feqb b 0 then Raise ZeroDivisionError else Ok (fdiv a b).

(** Python's [/] on two ints: the correctly rounded quotient, which for
    operands below [2^53] is the float quotient of their floats. *)
Definition py_int_truediv (a b : Z) : result float :=
  if Z.eqb b 0 then Raise ZeroDivisionError
  else Ok (fdiv (float_of_Z a) (float_of_Z b)).

(** A float that is a zero or NaN: what the arithmetic makes of zeros. *)
Definition zero_or_nan (v : float) : Prop :=
  match Prim2SF v with
  | S754_zero _ | S754_nan => True
  | _ => False
  end.

(** ** numpy's [int64]

    [np.int64 + int] and [np.int64 - int] for a Python int in the [int64]
    range: the sum in two's complement, wrapping around on overflow. *)

Definition wrap_int64 (z : Z) : Z := ((z + 2 ^ 63) mod 2 ^ 64 - 2 ^ 63)%Z.

Definition int64_add (a b : Z) : Z := wrap_int64 (a + b).

Definition int64_sub (a b : Z) : Z := wrap_int64 (a - b).

Definition int64_max : Z := (2 ^ 63 - 1)%Z.

(** ** Slices

    [s[start:stop]] on a sequence of length [len]: a negative bound counts
    from the end, and both bounds are clipped to [0, len]. *)

Definition slice_bound (len i : Z) : Z :=
  if (i <? 0)%Z then Z.max (i + len) 0 else Z.min i len.

Definition slice_range (len start stop : Z) : nat * nat :=
  (Z.to_nat (slice_bound len start), Z.to_nat (slice_bound len stop)).

(** The positions [lo <= i < hi] of a half-open range. *)
Definition in_range (r : nat * nat) (i : nat) : Prop :=
  (fst r <= i < snd r)%nat.


(* ================================================================== *)
(** * pandas and numpy operations used by the script *)
(* ================================================================== *)

(** [Series.iloc[start:stop]]. *)
Definition iloc {A : Type} (s : list A) (start stop : Z) : list A :=
  let '(lo, hi) := slice_range (Z.of_nat (length s)) start stop in
  firstn (hi - lo) (skipn lo s).

(** [Series.shift(1)]: every value moves one place down, the first place
    is filled with NaN and the last value drops out. *)
Definition shift1 (s : list float) : list float :=
  firstn (length s) (nan :: s).

Fixpoint zip_with {A B C : Type} (f : A -> B -> C) (l1 : list A) (l2 : list B)
  : list C :=
  match l1, l2 with
  | a :: t1, b :: t2 => f a b :: zip_with f t1 t2
  | _, _ => []
  end.

(** [Series.ffill()]: a missing value takes the last value before it that
    is not missing; missing values at the start stay. *)
Fixpoint ffill_from (last : float) (l : list float) : list float :=
  match l with
  | [] => []
  | x :: t =>
      if isna x then last :: ffill_from last t else x :: ffill_from x t
  end.

Definition ffill (l : list float) : list float := ffill_from nan l.

(** [Series.pct_change()]: [data / data.shift(1) - 1], where [data] is
    the series itself, or the series padded ([fill_method='pad'], the
    default of pandas up to 2.x) when [pad] is set. *)
Definition pct_change (pad : bool) (close : list float) : list float :=
  let data := if pad then ffill close else close in
  zip_with (fun a b => fsub (fdiv a b) 1) data (shift1 data).

(** *** numpy's sum

    [np.add.reduce] on a contiguous [float64] array: the identity [-0.0]
    plus the pairwise sum of the values.  Fewer than 8 values are added
    from left to right; up to 128 values are added in 8 lanes,
    [r[j] += a[i + j]], which are then combined as a tree and followed by
    the values left over; more values are split in two halves. *)

Definition sum_from (res : float) (a : list float) : float :=
  fold_left fadd a res.

(** The lanes after the groups of 8 of [rest] that are complete, and the
    values left over. *)
Fixpoint lanes (fuel : nat) (r rest : list float) : list float * list float :=
  match fuel with
  | O => (r, rest)
  | S fuel' =>
      if (8 <=? length rest)%nat
      then lanes fuel' (zip_with fadd r (firstn 8 rest)) (skipn 8 rest)
      else (r, rest)
  end.

Definition block_sum (a : list float) : float :=
  let '(r, rest) := lanes (length a) (firstn 8 a) (skipn 8 a) in
  match r with
  | [r0; r1; r2; r3; r4; r5; r6; r7] =>
      sum_from
        (fadd (fadd (fadd r0 r1) (fadd r2 r3))
              (fadd (fadd r4 r5) (fadd r6 r7)))
        rest
  | _ => nan
  end.

Fixpoint pairwise_sum (fuel : nat) (a : list float) : float :=
  let n := length a in
  if (n <? 8)%nat then sum_from (-0)%float a
  else if (n <=? 128)%nat then block_sum a
  else
    match fuel with
    | O => nan
    | S fuel' =>
        let n2 := (n / 2)%nat in
        let n2 := (n2 - n2 mod 8)%nat in
        fadd (pairwise_sum fuel' (firstn n2 a)) (pairwise_sum fuel' (skipn n2 a))
    end.

Definition np_sum (a : list float) : float :=
  fadd (-0)%float (pairwise_sum (length a) a).

(** *** Statistics *)

Definition dropna (l : list float) : list float := filter notna l.

(** [Series.count()]: the number of non-NaN values. *)
Definition count (l : list float) : nat := length (dropna l).

(** [np.putmask(values, mask, 0)]. *)
Definition putmask0 (mask : list bool) (values : list float) : list float :=
  zip_with (fun (m : bool) v => if m then 0%float else v) mask values.

(** [nanops.nanvar] with [ddof = 1] and [skipna = True]: NaN when at most
    [ddof] values are not NaN; otherwise the two-pass algorithm, in which
    the NaN places are set to 0 before each sum. *)
Definition nanvar (values : list float) : float :=
  let mask := map isna values in
  let n := count values in
  if (n <=? 1)%nat then nan
  else
    let count := float_of_nat n in
    let d := fsub count 1 in
    let values := putmask0 mask values in
    let avg := fdiv (np_sum values) count in
    let sqr := map (fun v => let x := fsub avg v in fmul x x) values in
    let sqr := putmask0 mask sqr in
    fdiv (np_sum sqr) d.

(** [Series.std()]: [np.sqrt] of [nanvar]. *)
Definition std (values : list float) : float := fsqrt (nanvar values).

(** [Series.mean()] ([nanops.nanmean]): NaN on a series with no usable
    value. *)
Definition mean (values : list float) : float :=
  let n := count values in
  if (n =? 0)%nat then nan
  else fdiv (np_sum (putmask0 (map isna values) values)) (float_of_nat n).

(** The mean of one group of [groupby(...).mean()] (pandas'
    [group_mean]): a compensated (Kahan) sum of the values that are not
    NaN, over their number. *)
Fixpoint kahan (sumx compensation : float) (nobs : nat) (values : list float)
  : float * nat :=
  match values with
  | [] => (sumx, nobs)
  | val :: rest =>
      if isna val then kahan sumx compensation nobs rest
      else
        let y := fsub val compensation in
        let t := fadd sumx y in
        let c := fsub (fsub t sumx) y in
        let c := if isna c then 0%float else c in
        kahan t c (S nobs) rest
  end.

Definition group_mean (values : list float) : float :=
  let '(sumx, nobs) := kahan 0 0 0 values in
  if (nobs =? 0)%nat then nan else fdiv sumx (float_of_nat nobs).

(** Stable insertion sort: [x] is put in front of the first [y] with
    [before x y], so among elements that compare equal the one that came
    first stays first. *)
Fixpoint insert_by {A : Type} (before : A -> A -> bool) (x : A) (l : list A)
  : list A :=
  match l with
  | [] => [x]
  | y :: t => if before x y then x :: l else y :: insert_by before x t
  end.

Definition sort_by {A : Type} (before : A -> A -> bool) (l : list A) : list A :=
  fold_right (insert_by before) [] l.

(** [Series.median()]: the middle of the sorted usable values, the mean of
    the two middle ones when their number is even, NaN when there is none. *)
Definition median (values : list float) : float :=
  let vals := sort_by fleb (dropna values) in
  let n := length vals in
  match n with
  | O => nan
  | _ =>
      if Nat.odd n then nth (n / 2) vals nan
      else fdiv (fadd (nth (n / 2 - 1) vals nan) (nth (n / 2) vals nan)) 2
  end.

(** numpy's [binsearch<left>]: the loop
    [while (min_idx < max_idx) { mid = min + ((max - min) >> 1); ... }].
    [fuel] bounds the number of iterations. *)
Fixpoint binsearch_left (fuel : nat) (arr : list Z) (key : Z)
    (min_idx max_idx : nat) : nat :=
  match fuel with
  | O => min_idx
  | S fuel' =>
      if (min_idx <? max_idx)%nat then
        let mid_idx := (min_idx + (max_idx - min_idx) / 2)%nat in
        if (nth mid_idx arr 0 <? key)%Z
        then binsearch_left fuel' arr key (mid_idx + 1)%nat max_idx
        else binsearch_left fuel' arr key min_idx mid_idx
      else min_idx
  end.

(** [Index.searchsorted(value)] with the default [side='left']. *)
Definition searchsorted (index : list Z) (value : Z) : Z :=
  Z.of_nat (binsearch_left (length index) index value 0 (length index)).

(** [Series.unique()]: the distinct values in order of first appearance. *)
Fixpoint unique (l : list string) : list string :=
  match l with
  | [] => []
  | x :: t => x :: filter (fun y => negb (String.eqb x y)) (unique t)
  end.

(** [nlargest(n, column)] with the default [keep='first'] on rows that
    carry their index label: the rows whose key is not NaN in descending
    order of the key, rows with equal keys in their original order, then
    the rows whose key is NaN; the first [n] of these. *)
Definition nlargest {A : Type} (n : nat) (key : A -> float)
    (rows : list (nat * A)) : list (nat * A) :=
  let dropped := filter (fun r => notna (key (snd r))) rows in
  let nan_index := filter (fun r => isna (key (snd r))) rows in
  firstn n
    (sort_by (fun a b => fgeb (key (snd a)) (key (snd b))) dropped ++ nan_index).

(** The order [nlargest] leaves rows in: the larger key first, and of two
    rows with equal keys the one with the smaller index label first. *)
Definition ranks_before {A : Type} (key : A -> float) (a b : nat * A) : Prop :=
  fltb (key (snd b)) (key (snd a)) = true \/
  (feqb (key (snd a)) (key (snd b)) = true /\ (fst a < fst b)%nat).

(* ================================================================== *)
(** * Data *)
(* ================================================================== *)

(** The price frame [stock_data]: one row per trading session (the
    DatetimeIndex entry and the [Close] price), and the [Returns] column,
    which is absent until the script assigns it. *)
Record StockData : Type := mkStockData {
  rows : list (Z * float);
  Returns : option (list float)
}.

Definition index (stock_data : StockData) : list Z := map fst (rows stock_data).
Definition Close (stock_data : StockData) : list float := map snd (rows stock_data).

(** [len(stock_data)]. *)
Definition len (stock_data : StockData) : Z :=
  Z.of_nat (length (rows stock_data)).

(** [stock_data['Returns'] = col]. *)
Definition set_Returns (stock_data : StockData) (col : list float) : StockData :=
  {| rows := rows stock_data; Returns := Some col |}.

(** [stock_data['Returns']]. *)
Definition get_Returns (stock_data : StockData) : result (list float) :=
  match Returns stock_data with
  | Some col => Ok col
  | None => Raise (KeyError "Returns")
  end.

(** One dict of the [results] list. *)
Record VolRecord : Type := mkVolRecord {
  Ticker : string;
  Event : string;
  Date : string;
  Before_Volatility : float;
  After_Volatility : float;
  Volatility_Change : float;
  Volatility_Change_Pct : float
}.

(** The results frame.  [pd.DataFrame(results)] takes its columns from the
    keys of the dicts, so the frame made from an empty list has none. *)
Record ResultsFrame : Type := mkResultsFrame {
  columns : list string;
  data : list VolRecord
}.

Definition record_keys : list string :=
  ["Ticker"; "Event"; "Date"; "Before_Volatility"; "After_Volatility";
   "Volatility_Change"; "Volatility_Change_Pct"]%string.

(** [pd.DataFrame(results)]. *)
Definition DataFrame (results : list VolRecord) : ResultsFrame :=
  {| columns := match results with [] => [] | _ :: _ => record_keys end;
     data := results |}.

(** The rows of a results frame with their index labels [0, 1, ...]. *)
Definition irows (df : ResultsFrame) : list (nat * VolRecord) :=
  combine (seq 0 (length (data df))) (data df).

(** [df[key]]: the column, or [KeyError] when the frame has no such column. *)
Definition getitem {A : Type} (df : ResultsFrame) (key : string)
    (field : VolRecord -> A) : result (list A) :=
  if in_dec string_dec key (columns df) then Ok (map field (data df))
  else Raise (KeyError key).

(** [row[key]] for a row that [df.iterrows()] yields: the value, or
    [KeyError] when the frame has no such column. *)
Definition row_getitem {A : Type} (df : ResultsFrame) (key : string)
    (field : VolRecord -> A) (row : nat * VolRecord) : result A :=
  if in_dec string_dec key (columns df) then Ok (field (snd row))
  else Raise (KeyError key).

(** What [print_summary_stats] prints, line by line. *)
Record Summary : Type := mkSummary {
  total_events : Z;
  average_change : float;
  median_change : float;
  increased : Z;
  increased_pct : float;
  decreased : Z;
  decreased_pct : float;
  top_increases : list (nat * VolRecord);
  top_lines : list (string * string * float);
  by_company : list (string * float)
}.

(** The dict that lines 120-128 append for the volatilities [b] and [a]. *)
Definition emitted (ticker event_name event_date : string) (b a : float)
  : VolRecord :=
  {| Ticker := ticker;
     Event := event_name;
     Date := event_date;
     Before_Volatility := b;
     After_Volatility := a;
     Volatility_Change := fsub a b;
     Volatility_Change_Pct := fmul (fdiv (fsub a b) b) 100 |}.

(** A record as the guard and the arithmetic of [analyze_all_events] leave
    it: both volatilities are above zero, and the two change fields are
    computed from them. *)
Definition well_formed (r : VolRecord) : Prop :=
  fgtb (Before_Volatility r) 0 = true /\
  fgtb (After_Volatility r) 0 = true /\
  Volatility_Change r = fsub (After_Volatility r) (Before_Volatility r) /\
  Volatility_Change_Pct r
  = fmul (fdiv (fsub (After_Volatility r) (Before_Volatility r))
            (Before_Volatility r)) 100.

(** The event table of the script: ticker, then event description and date. *)
Definition events_data : list (string * list (string * string)) :=
  [ ("AAPL",
     [ ("iPhone 15 Launch", "2023-09-12");
       ("Q1 2024 Earnings Beat", "2024-02-01");
       ("Services Revenue Record", "2024-05-02");
       ("Vision Pro Announcement", "2023-06-05");
       ("Q3 2023 Earnings Miss", "2023-08-03") ]);
    ("TSLA",
     [ ("Cybertruck Delivery Event", "2023-11-30");
       ("Q4 2023 Earnings Beat", "2024-01-24");
       ("Price Cuts Announced", "2024-04-05");
       ("Musk Twitter Controversy", "2023-07-17");
       ("Model 3 Highland Launch", "2023-09-01") ]);
    ("META",
     [ ("Q1 2023 Earnings Surprise", "2023-04-26");
       ("Threads App Launch", "2023-07-05");
       ("AI Investment Announcement", "2024-02-02");
       ("Q4 2023 Strong Guidance", "2024-02-01");
       ("Reality Labs Loss Report", "2023-10-25") ]) ]%string.

(** ** Calendar dates

    [pd.to_datetime] on the [YYYY-MM-DD] strings the event table holds: the
    Timestamp value (nanoseconds since 1970-01-01), [ValueError] for a
    string of another shape or an impossible date.  pandas reads more
    formats than this; the analysis below takes the parser as a parameter
    and this one instantiates it. *)

Definition digit (c : ascii) : option Z :=
  let n := Z.of_nat (nat_of_ascii c) in
  if ((48 <=? n) && (n <=? 57))%Z then Some (n - 48)%Z else None.

Definition is_leap (y : Z) : bool :=
  ((y mod 4 =? 0) && negb (y mod 100 =? 0) || (y mod 400 =? 0))%Z.

Definition days_in_month (y m : Z) : Z :=
  if (m =? 2)%Z then (if is_leap y then 29 else 28)%Z
  else if ((m =? 4) || (m =? 6) || (m =? 9) || (m =? 11))%Z then 30%Z
  else 31%Z.

(** Days from 1970-01-01 to the civil date [y-m-d]. *)
Definition days_from_civil (y m d : Z) : Z :=
  let y' := (if (m <=? 2)%Z then y - 1 else y)%Z in
  let era := (y' / 400)%Z in
  let yoe := (y' - era * 400)%Z in
  let mp := (if (m <=? 2)%Z then m + 9 else m - 3)%Z in
  let doy := ((153 * mp + 2) / 5 + d - 1)%Z in
  let doe := (yoe * 365 + yoe / 4 - yoe / 100 + doy)%Z in
  (era * 146097 + doe - 719468)%Z.

Definition ns_per_day : Z := 86400000000000%Z.

Definition number (ds : list ascii) : option Z :=
  fold_left
    (fun acc c =>
       match acc, digit c with
       | Some n, Some d => Some (10 * n + d)%Z
       | _, _ => None
       end)
    ds (Some 0%Z).

Definition to_datetime_iso (s : string) : result Z :=
  match list_ascii_of_string s with
  | [y1; y2; y3; y4; s1; m1; m2; s2; d1; d2] =>
      match number [y1; y2; y3; y4], number [m1; m2], number [d1; d2] with
      | Some y, Some m, Some d =>
          if (Ascii.eqb s1 "-" && Ascii.eqb s2 "-"
              && (1 <=? m)%Z && (m <=? 12)%Z
              && (1 <=? d)%Z && (d <=? days_in_month y m)%Z)%bool
          then Ok (days_from_civil y m d * ns_per_day)%Z
          else Raise ValueError
      | _, _, _ => Raise ValueError
      end
  | _ => Raise ValueError
  end.

(** ** Sample data

    The ten daily closes of the regression vector of the specification, on
    the days 1970-01-01 to 1970-01-10; a frame of one day; the frame
    without rows that stands for a series without price data; a provider
    that has no data for the ticker [NONE]. *)

Definition day (n : Z) : Z := (n * ns_per_day)%Z.

Definition example_frame : StockData :=
  {| rows := [ (day 0, 100%float); (day 1, 102%float); (day 2, 101%float);
               (day 3, 105%float); (day 4, 110%float); (day 5, 108%float);
               (day 6, 107%float); (day 7, 112%float); (day 8, 115%float);
               (day 9, 114%float) ];
     Returns := None |}.

Definition one_day_frame : StockData :=
  {| rows := [ (day 0, 100%float) ]; Returns := None |}.

Definition empty_frame : StockData := {| rows := []; Returns := None |}.

Definition example_provider (ticker : string) : StockData :=
  if String.eqb ticker "NONE" then empty_frame else example_frame.

(** The returns before and after position 5 of the sample frame for the
    default window (the first is the NaN that opens the series), and the
    record of an event on 1970-01-06. *)
Definition example_before : list float :=
  [ nan; fsub (fdiv 102 100) 1; fsub (fdiv 101 102) 1;
    fsub (fdiv 105 101) 1; fsub (fdiv 110 105) 1 ].

Definition example_after : list float :=
  [ fsub (fdiv 108 110) 1; fsub (fdiv 107 108) 1; fsub (fdiv 112 107) 1;
    fsub (fdiv 115 112) 1; fsub (fdiv 114 115) 1 ].

Definition example_record : VolRecord :=
  emitted "AAPL" "Launch" "1970-01-06" (std example_before) (std example_after).

(** A results table with tied percent changes: 1, 2, 1, 2, 1. *)
Definition tied_record (event_name : string) (pct : float) : VolRecord :=
  {| Ticker := "AAPL";
     Event := event_name;
     Date := "1970-01-06";
     Before_Volatility := 1;
     After_Volatility := fadd 1 (fdiv pct 100);
     Volatility_Change := fdiv pct 100;
     Volatility_Change_Pct := pct |}.

Definition tied_records : list VolRecord :=
  [ tied_record "a" 1; tied_record "b" 2; tied_record "c" 1;
    tied_record "d" 2; tied_record "e" 1 ].

(** Ten closes in geometric progression, each 1.7 times the one before:
    every return is the same number. *)
Definition geometric_frame : StockData :=
  {| rows := [ (day 0, 1000000000%float); (day 1, 1700000000%float);
               (day 2, 2890000000%float); (day 3, 4913000000%float);
               (day 4, 8352100000%float); (day 5, 14198570000%float);
               (day 6, 24137569000%float); (day 7, 41033867300%float);
               (day 8, 69757574410%float); (day 9, 118587876497%float) ];
     Returns := None |}.

(** Twelve closes that alternate between [2^-400] and [2^400]: the
    squares of the deviations of the returns overflow. *)
Definition overflow_frame : StockData :=
  {| rows := [ (day 0, 0x1p-400%float); (day 1, 0x1p+400%float);
               (day 2, 0x1p-400%float); (day 3, 0x1p+400%float);
               (day 4, 0x1p-400%float); (day 5, 0x1p+400%float);
               (day 6, 0x1p-400%float); (day 7, 0x1p+400%float);
               (day 8, 0x1p-400%float); (day 9, 0x1p+400%float);
               (day 10, 0x1p-400%float); (day 11, 0x1p+400%float) ];
     Returns := None |}.

(** Two closes, 3 and then 1. *)
Definition falling_frame : StockData :=
  {| rows := [ (day 0, 3%float); (day 1, 1%float) ]; Returns := None |}.

(** Eight days at a close of 50. *)
Definition flat_frame : StockData :=
  {| rows := [ (day 0, 50%float); (day 1, 50%float); (day 2, 50%float);
               (day 3, 50%float); (day 4, 50%float); (day 5, 50%float);
               (day 6, 50%float); (day 7, 50%float) ];
     Returns := None |}.

(** ** Charts

    What [create_visualizations] hands to matplotlib: for the first chart
    one group of horizontal bars per ticker (label, colour, the events and
    their percent changes), for the second one bar per ticker (its average
    and colour). *)

Record BarGroup : Type := mkBarGroup {
  group_label : string;
  group_color : string;
  group_events : list string;
  group_values : list float
}.

Record Charts : Type := mkCharts {
  impact_chart : list BarGroup;
  company_chart : list (string * float * string)
}.

(** The dict [colors] and [colors.get(ticker, '#333333')]. *)
Definition colors : list (string * string) :=
  [ ("AAPL", "#007AFF"); ("TSLA", "#E31937"); ("META", "#0668E1") ]%string.

Definition colors_get (ticker : string) : string :=
  match find (fun kv => String.eqb (fst kv) ticker) colors with
  | Some kv => snd kv
  | None => "#333333"%string
  end.

(** The rows of one ticker: [results_df[results_df['Ticker'] == ticker]]. *)
Definition rows_of (records : list VolRecord) (ticker : string) : list VolRecord :=
  filter (fun r => String.eqb (Ticker r) ticker) records.

(** A loop whose body can raise: the first exception ends it. *)
Fixpoint for_each {A B : Type} (body : A -> result B) (l : list A)
  : result (list B) :=
  match l with
  | [] => Ok []
  | x :: t =>
      y <- body x ;;
      ys <- for_each body t ;;
      Ok (y :: ys)
  end.

(** What the [__main__] block leaves behind: the table written to
    [volatility_results.csv], the two charts and the printed summary. *)
Record Outputs : Type := mkOutputs {
  saved_results : ResultsFrame;
  saved_charts : Charts;
  printed_summary : Summary
}.

(** ** Orders and price units *)

(** [l1] is [l2] with some elements left out, the others in their order. *)
Inductive subseq {A : Type} : list A -> list A -> Prop :=
| subseq_nil : subseq [] []
| subseq_skip (x : A) (l1 l2 : list A) : subseq l1 l2 -> subseq l1 (x :: l2)
| subseq_take (x : A) (l1 l2 : list A) : subseq l1 l2 -> subseq (x :: l1) (x :: l2).

(** The events of a table in the order the batch visits them. *)
Definition all_events (events_dict : list (string * list (string * string)))
  : list (string * string * string) :=
  flat_map (fun te => map (fun ev => (fst te, fst ev, snd ev)) (snd te))
           events_dict.

Definition record_event (r : VolRecord) : string * string * string :=
  (Ticker r, Event r, Date r).
(* ================================================================== *)
(** * The repair scripts [fix.py] and [fix_complete.py] *)
(* ================================================================== *)

(** Texts and file contents are [string]s.  A file is opened in text
    mode with universal newlines: what is read is the content with every
    line end (CR LF, CR or LF) turned into the character [newline], and
    what is written is the text as it is (the line separator of the
    platform is the line feed). *)

Definition newline : ascii := ascii_of_nat 10.

Definition carriage_return : ascii := ascii_of_nat 13.

Definition nl : string := String newline EmptyString.

(** [f.read()] of a file opened with [open(name, 'r')]. *)
Fixpoint universal_newlines (s : string) : string :=
  match s with
  | EmptyString => EmptyString
  | String c t =>
      if Ascii.eqb c carriage_return then
        match t with
        | String c' t' =>
            if Ascii.eqb c' newline
            then String newline (universal_newlines t')
            else String newline (universal_newlines t)
        | EmptyString => String newline EmptyString
        end
      else String c (universal_newlines t)
  end.

(** A text without carriage return. *)
Fixpoint no_cr (s : string) : bool :=
  match s with
  | EmptyString => true
  | String c t => negb (Ascii.eqb c carriage_return) && no_cr t
  end.

(** [pat in s]. *)
Fixpoint contains (pat s : string) : bool :=
  match s with
  | EmptyString => prefix pat EmptyString
  | String _ t => prefix pat s || contains pat t
  end.

(** [f.readlines()]: the lines of a text, each with its line end. *)
Fixpoint readlines (s : string) : list string :=
  match s with
  | EmptyString => []
  | String c t =>
      if Ascii.eqb c newline then String c EmptyString :: readlines t
      else match readlines t with
           | [] => [String c EmptyString]
           | l :: ls => String c l :: ls
           end
  end.

(** [f.writelines(lines)]. *)
Definition writelines (lines : list string) : string :=
  fold_right append EmptyString lines.

(** [s.replace(old, new)] for an [old] that is not empty: the occurrences
    of [old] from left to right, none overlapping the one before.  [skip]
    counts the characters of a replaced occurrence still to pass. *)
Fixpoint replace_from (old new : string) (skip : nat) (s : string) : string :=
  match s with
  | EmptyString => EmptyString
  | String c t =>
      match skip with
      | S skip' => replace_from old new skip' t
      | O =>
          if prefix old s
          then append new (replace_from old new (String.length old - 1) t)
          else String c (replace_from old new 0 t)
      end
  end.

Definition str_replace (old new s : string) : string := replace_from old new 0 s.

(** No occurrence of [old] starts inside [a] when [a] is followed by
    [rest]. *)
Fixpoint no_early_match (old a rest : string) : bool :=
  match a with
  | EmptyString => true
  | String _ a' =>
      negb (prefix old (append a rest)) && no_early_match old a' rest
  end.

(** The files the scripts see: a name has a content or is absent. *)
Definition files : Type := string -> option string.

Definition write_file (fs : files) (name content : string) : files :=
  fun n => if String.eqb n name then Some content else fs n.

Definition script_file : string := "news_volatility_analysis.py".

(** ** [fix.py] *)

Definition old_line : string :=
  "    if not np.isnan(before_vol) and not np.isnan(after_vol):".

Definition new_line : string :=
  "    if not (np.isnan(before_vol).any() if hasattr(before_vol, 'any') else np.isnan(before_vol)) and not (np.isnan(after_vol).any() if hasattr(after_vol, 'any') else np.isnan(after_vol)):".

(** The script ([fix] is a keyword here): [None] stands for the
    [FileNotFoundError] of [open]. *)
Definition fix_script (fs : files) : option files :=
  match fs script_file with
  | None => None
  | Some file =>
      let content := universal_newlines file in
      Some (write_file fs script_file (str_replace old_line new_line content))
  end.

(** ** [fix_complete.py] *)

Definition old_guard : string :=
  "if not np.isnan(before_vol) and not np.isnan(after_vol):".

Definition new_guard_line : string :=
  append "    if not pd.isna(before_vol) and not pd.isna(after_vol):" nl.

Definition old_pct : string :=
  "vol_change_pct = (vol_change / before_vol) * 100 if before_vol > 0 else 0".

Definition new_pct_line : string :=
  append
    "        vol_change_pct = (vol_change / before_vol) * 100 if float(before_vol) > 0 else 0"
    nl.

(** The body of the loop: both tests read the line as it was read. *)
Definition fix_line (line : string) : string :=
  let fixed := if contains old_guard line then new_guard_line else line in
  if contains old_pct line then new_pct_line else fixed.

Definition fix_complete_text (content : string) : string :=
  writelines (map fix_line (readlines content)).

Definition fix_complete (fs : files) : option files :=
  match fs script_file with
  | None => None
  | Some file =>
      let content := universal_newlines file in
      Some (write_file fs script_file (fix_complete_text content))
  end.

(** A line that ends with [newline] and holds no other, and a last line
    without line end. *)
Fixpoint no_newline (s : string) : bool :=
  match s with
  | EmptyString => true
  | String c t => negb (Ascii.eqb c newline) && no_newline t
  end.

Definition complete (l : string) : Prop :=
  exists body, l = append body nl /\ no_newline body = true.

Definition partial (l : string) : Prop :=
  l <> EmptyString /\ no_newline l = true.

Fixpoint well_lined (lines : list string) : Prop :=
  match lines with
  | [] => True
  | l :: rest =>
      match rest with
      | [] => complete l \/ partial l
      | _ :: _ => complete l /\ well_lined rest
      end
  end.

(** ** Sample texts *)

(** A text with the old guard and the old percent expression, and the
    text [fix_complete.py] makes of it. *)
Definition unfixed_text : string :=
  append "x = 1"
    (append nl
       (append old_line
          (append nl
             (append "        "
                (append old_pct (append nl "done")))))).

Definition fixed_text : string :=
  append "x = 1"
    (append nl (append new_guard_line (append new_pct_line "done"))).

(** Two lines that end with CR LF, and the text read from them. *)
Definition crlf_file : string :=
  String "a" (String carriage_return (String newline
    (String "b" (String carriage_return (String newline EmptyString))))).

Definition crlf_text : string :=
  String "a" (String newline (String "b" (String newline EmptyString))).

Definition one_file (content : string) : files :=
  fun name => if String.eqb name script_file then Some content else None.

(* ================================================================== *)
(** * The script *)
(* ================================================================== *)

Section Analysis.

(** The external collaborators: [pd.to_datetime] on an event date (it
    raises on a string it cannot read) and the price provider
    [get_stock_data] (a fresh frame per call); and the pandas version, as
    far as [pct_change] depends on it. *)
Variable to_datetime : string -> result Z.
Variable get_stock_data : string -> StockData.
Variable fill_method_pad : bool.

(** Every event date of the table can be read. *)
Definition dates_parse (events_dict : list (string * list (string * string)))
  : Prop :=
  Forall (fun te => Forall (fun ev => exists d, to_datetime (snd ev) = Ok d)
                      (snd te))
         events_dict.

(** ** [calculate_event_volatility] *)

(** [stock_data.index.searchsorted(event_date)], a numpy [int64]. *)
Definition event_idx (stock_data : StockData) (event_date : Z) : Z :=
  searchsorted (index stock_data) event_date.

Definition before_start (event_idx window : Z) : Z :=
  Z.max 0 (int64_sub (int64_sub event_idx window) 1).

Definition before_end (event_idx : Z) : Z := event_idx.

Definition after_start (event_idx : Z) : Z := event_idx.

Definition after_end (stock_data : StockData) (event_idx window : Z) : Z :=
  Z.min (len stock_data) (int64_add event_idx window).

(** [stock_data['Returns'].iloc[before_start:before_end]]. *)
Definition before_returns (stock_data : StockData) (event_idx window : Z)
  : result (list float) :=
  col <- get_Returns stock_data ;;
  Ok (iloc col (before_start event_idx window) (before_end event_idx)).

(** [stock_data['Returns'].iloc[after_start:after_end]]. *)
Definition after_returns (stock_data : StockData) (event_idx window : Z)
  : result (list float) :=
  col <- get_Returns stock_data ;;
  Ok (iloc col (after_start event_idx) (after_end stock_data event_idx window)).

(** The positions of the return series that the two slices select, as
    half-open ranges. *)
Definition before_range (stock_data : StockData) (event_idx window : Z)
  : nat * nat :=
  slice_range (len stock_data) (before_start event_idx window)
    (before_end event_idx).

Definition after_range (stock_data : StockData) (event_idx window : Z)
  : nat * nat :=
  slice_range (len stock_data) (after_start event_idx)
    (after_end stock_data event_idx window).

(** [stock_data['Close'].pct_change()]. *)
Definition returns_of (stock_data : StockData) : list float :=
  pct_change fill_method_pad (Close stock_data).

(** [stock_data['Returns'] = stock_data['Close'].pct_change()]. *)
Definition with_returns (stock_data : StockData) : StockData :=
  set_Returns stock_data (returns_of stock_data).

(** The body of [calculate_event_volatility] once the event date is a
    Timestamp: the frame as the call leaves it, and the returned pair. *)
Definition event_volatility_at (stock_data : StockData) (event_date : Z)
    (window : Z) : StockData * result (float * float) :=
  let stock_data := with_returns stock_data in
  (stock_data,
   let event_idx := event_idx stock_data event_date in
   before_returns <- before_returns stock_data event_idx window ;;
   after_returns <- after_returns stock_data event_idx window ;;
   let before_vol := std before_returns in
   let after_vol := std after_returns in
   Ok (before_vol, after_vol)).

(** The two slices of the return series for the anchor [p], as the code
    takes them. *)
Definition before_window (stock_data : StockData) (p window : Z) : list float :=
  iloc (returns_of stock_data) (before_start p window) (before_end p).

Definition after_window (stock_data : StockData) (p window : Z) : list float :=
  iloc (returns_of stock_data) (after_start p) (after_end stock_data p window).

Definition calculate_event_volatility (stock_data : StockData)
    (event_date : string) (window : Z)
  : StockData * result (float * float) :=
  match to_datetime event_date with
  | Raise e => (stock_data, Raise e)
  | Ok event_date => event_volatility_at stock_data event_date window
  end.

(** ** [analyze_all_events] *)

(** The default [window=5]. *)
Definition default_window : Z := 5.

(** [float(v) if not pd.isna(v) else 0]. *)
Definition vol_value (v : float) : float :=
  if negb (isna v) then v else 0%float.

(** One turn of the inner loop. *)
Definition analyze_event (ticker : string) (stock_data : StockData)
    (results : list VolRecord) (ev : string * string)
  : StockData * result (list VolRecord) :=
  let '(event_name, event_date) := ev in
  let '(stock_data, vols) :=
    calculate_event_volatility stock_data event_date default_window in
  (stock_data,
   vols <- vols ;;
   let '(before_vol, after_vol) := vols in
   let before_vol_value := vol_value before_vol in
   let after_vol_value := vol_value after_vol in
   if fgtb before_vol_value 0 && fgtb after_vol_value 0 then
     let vol_change := fsub after_vol_value before_vol_value in
     q <- py_truediv vol_change before_vol_value ;;
     let vol_change_pct := fmul q 100 in
     Ok (results ++
           [ {| Ticker := ticker;
                Event := event_name;
                Date := event_date;
                Before_Volatility := before_vol_value;
                After_Volatility := after_vol_value;
                Volatility_Change := vol_change;
                Volatility_Change_Pct := vol_change_pct |} ])
   else Ok results).

(** [for event_name, event_date in events.items(): ...]. *)
Fixpoint analyze_events (ticker : string) (stock_data : StockData)
    (results : list VolRecord) (events : list (string * string))
  : StockData * result (list VolRecord) :=
  match events with
  | [] => (stock_data, Ok results)
  | ev :: events' =>
      match analyze_event ticker stock_data results ev with
      | (stock_data, Ok results) =>
          analyze_events ticker stock_data results events'
      | (stock_data, Raise e) => (stock_data, Raise e)
      end
  end.

(** [for ticker, events in events_dict.items(): ...]. *)
Fixpoint analyze_tickers (results : list VolRecord)
    (events_dict : list (string * list (string * string)))
  : result (list VolRecord) :=
  match events_dict with
  | [] => Ok results
  | (ticker, events) :: rest =>
      let stock_data := get_stock_data ticker in
      results <- snd (analyze_events ticker stock_data results events) ;;
      analyze_tickers results rest
  end.

Definition analyze_all_events
    (events_dict : list (string * list (string * string)))
  : result ResultsFrame :=
  results <- analyze_tickers [] events_dict ;;
  Ok (DataFrame results).

(** A window whose volatility is defined and positive: at least two
    usable values and a standard deviation above zero. *)
Definition defined_positive (window : list float) : Prop :=
  (2 <= count window)%nat /\ fgtb (std window) 0 = true.

Definition defined_positiveb (window : list float) : bool :=
  (2 <=? count window)%nat && fgtb (std window) 0.

(** What one event of the table contributes to the results: the record of
    its two volatilities when its date parses and both windows of the
    series of its ticker have a defined and positive volatility, and
    nothing otherwise. *)
Definition contribution (event : string * string * string) : list VolRecord :=
  let '(ticker, event_name, event_date) := event in
  match to_datetime event_date with
  | Raise _ => []
  | Ok d =>
      let stock_data := get_stock_data ticker in
      let p := event_idx stock_data d in
      let before := before_window stock_data p default_window in
      let after := after_window stock_data p default_window in
      if defined_positiveb before && defined_positiveb after
      then [emitted ticker event_name event_date (std before) (std after)]
      else []
  end.

(** ** [print_summary_stats] *)

Definition pct_column : string := "Volatility_Change_Pct".

(** [len(results_df[results_df[col] > 0])] and its [< 0] twin. *)
Definition count_where (test : float -> bool) (results_df : ResultsFrame)
  : result Z :=
  col <- getitem results_df pct_column Volatility_Change_Pct ;;
  Ok (Z.of_nat (length (filter test col))).

(** [results_df.nlargest(3, col)]. *)
Definition top3 (results_df : ResultsFrame) : result (list (nat * VolRecord)) :=
  _ <- getitem results_df pct_column Volatility_Change_Pct ;;
  Ok (nlargest 3 Volatility_Change_Pct (irows results_df)).

(** The line printed for one row of the top list: the f-string reads
    [row['Ticker']], [row['Event']] and the percent change, in this order. *)
Definition print_top_row (results_df : ResultsFrame) (row : nat * VolRecord)
  : result (string * string * float) :=
  ticker <- row_getitem results_df "Ticker" Ticker row ;;
  event <- row_getitem results_df "Event" Event row ;;
  pct <- row_getitem results_df pct_column Volatility_Change_Pct row ;;
  Ok (ticker, event, pct).

(** The line of a row on a frame that has the three columns. *)
Definition top_line (row : nat * VolRecord) : string * string * float :=
  (Ticker (snd row), Event (snd row), Volatility_Change_Pct (snd row)).

(** [results_df[results_df['Ticker'] == ticker][col].mean()]. *)
Definition ticker_avg (results_df : ResultsFrame) (ticker : string) : float :=
  mean (map Volatility_Change_Pct (rows_of (data results_df) ticker)).

Definition print_summary_stats (results_df : ResultsFrame) : result Summary :=
  let total := Z.of_nat (length (data results_df)) in
  col <- getitem results_df pct_column Volatility_Change_Pct ;;
  let average := mean col in
  let med := median col in
  increased <- count_where (fun v => fgtb v 0) results_df ;;
  decreased <- count_where (fun v => fltb v 0) results_df ;;
  inc_share <- py_int_truediv increased total ;;
  dec_share <- py_int_truediv decreased total ;;
  top_increases <- top3 results_df ;;
  lines <- for_each (print_top_row results_df) top_increases ;;
  tickers <- getitem results_df "Ticker" Ticker ;;
  Ok {| total_events := total;
        average_change := average;
        median_change := med;
        increased := increased;
        increased_pct := fmul inc_share 100;
        decreased := decreased;
        decreased_pct := fmul dec_share 100;
        top_increases := top_increases;
        top_lines := lines;
        by_company :=
          map (fun ticker => (ticker, ticker_avg results_df ticker))
              (unique tickers) |}.

(** ** [create_visualizations] *)

(** [results_df[results_df['Ticker'] == ticker]]. *)
Definition ticker_data (results_df : ResultsFrame) (ticker : string)
  : result ResultsFrame :=
  _ <- getitem results_df "Ticker" Ticker ;;
  Ok {| columns := columns results_df;
        data := rows_of (data results_df) ticker |}.

(** One turn of the loop of the first chart: the arguments of [plt.barh]. *)
Definition ticker_bars (results_df : ResultsFrame) (ticker : string)
  : result BarGroup :=
  ticker_data <- ticker_data results_df ticker ;;
  events <- getitem ticker_data "Event" Event ;;
  values <- getitem ticker_data pct_column Volatility_Change_Pct ;;
  Ok {| group_label := ticker;
        group_color := colors_get ticker;
        group_events := events;
        group_values := values |}.

(** [results_df.groupby('Ticker')[col].mean()]: one mean per distinct
    ticker, the tickers in ascending order. *)
Definition groupby_mean (results_df : ResultsFrame)
  : result (list (string * float)) :=
  keys <- getitem results_df "Ticker" Ticker ;;
  _ <- getitem results_df pct_column Volatility_Change_Pct ;;
  Ok (map (fun ticker =>
             (ticker,
              group_mean (map Volatility_Change_Pct
                            (rows_of (data results_df) ticker))))
          (sort_by String.leb (unique keys))).

Definition create_visualizations (results_df : ResultsFrame) : result Charts :=
  tickers <- getitem results_df "Ticker" Ticker ;;
  impact <- for_each (ticker_bars results_df) (unique tickers) ;;
  avg_by_ticker <- groupby_mean results_df ;;
  Ok {| impact_chart := impact;
        company_chart :=
          map (fun tv => (fst tv, snd tv, colors_get (fst tv))) avg_by_ticker |}.

(** ** The [__main__] block *)

Definition main_block (events_dict : list (string * list (string * string)))
  : result Outputs :=
  results_df <- analyze_all_events events_dict ;;
  charts <- create_visualizations results_df ;;
  summary <- print_summary_stats results_df ;;
  Ok {| saved_results := results_df;
        saved_charts := charts;
        printed_summary := summary |}.

Definition main : result Outputs := main_block events_data.

(* ================================================================ *)
(** * Properties of the library operations *)
(* ================================================================ *)

(** ** Binary search *)

Lemma Sorted_nth_le (arr : list Z) :
  Sorted Z.le arr ->
  forall i j, (i <= j < length arr)%nat -> (nth i arr 0 <= nth j arr 0)%Z.
Proof.
  intros Hs. apply Sorted_StronglySorted in Hs; [| intros x y z; apply Z.le_trans].
  induction Hs as [| a l Hl IH Hall]; intros i j Hij; simpl in *; [lia |].
  destruct i as [| i], j as [| j]; try lia.
  - rewrite Forall_forall in Hall. apply Hall, nth_In. lia.
  - apply IH. lia.
Qed.

(** The loop invariant of [binsearch_left]: everything left of [min_idx]
    is below the key, everything from [max_idx] on is not. *)
Lemma binsearch_left_spec (arr : list Z) (key : Z) :
  Sorted Z.le arr ->
  forall fuel lo hi,
    (hi - lo <= fuel)%nat ->
    (lo <= hi <= length arr)%nat ->
    (forall i, (i < lo)%nat -> (nth i arr 0 < key)%Z) ->
    (forall i, (hi <= i < length arr)%nat -> (key <= nth i arr 0)%Z) ->
    let p := binsearch_left fuel arr key lo hi in
    (lo <= p <= hi)%nat /\
    (forall i, (i < p)%nat -> (nth i arr 0 < key)%Z) /\
    (forall i, (p <= i < length arr)%nat -> (key <= nth i arr 0)%Z).
Proof.
  intros Hs fuel.
  induction fuel as [| fuel IH]; intros lo hi Hfuel Hrange Hlo Hhi;
    cbn [binsearch_left].
  - repeat split; try lia; [exact Hlo |].
    intros i Hi. apply Hhi. lia.
  - destruct (Nat.ltb_spec lo hi) as [Hlt | Hge].
    + assert (Hmid : (lo <= lo + (hi - lo) / 2 < hi)%nat).
      { split; [lia |].
        assert ((hi - lo) / 2 < hi - lo)%nat by (apply Nat.div_lt; lia). lia. }
      set (mid := (lo + (hi - lo) / 2)%nat) in *.
      destruct (Z.ltb_spec (nth mid arr 0%Z) key) as [Hm | Hm].
      * destruct (IH (mid + 1)%nat hi) as (H1 & H2 & H3); try lia; try assumption.
        { intros i Hi.
          assert (nth i arr 0 <= nth mid arr 0)%Z
            by (apply Sorted_nth_le; [assumption | lia]).
          lia. }
        repeat split; try lia; assumption.
      * destruct (IH lo mid) as (H1 & H2 & H3); try lia; try assumption.
        { intros i Hi.
          assert (nth mid arr 0 <= nth i arr 0)%Z
            by (apply Sorted_nth_le; [assumption | lia]).
          lia. }
        repeat split; try lia; assumption.
    + repeat split; try lia; [exact Hlo |].
      intros i Hi. apply Hhi. lia.
Qed.

(** Whatever the array holds, the result is a position of it or its
    length. *)
Lemma binsearch_left_range (arr : list Z) (key : Z) :
  forall fuel lo hi,
    (lo <= hi)%nat ->
    (lo <= binsearch_left fuel arr key lo hi <= hi)%nat.
Proof.
  induction fuel as [| fuel IH]; intros lo hi Hle; cbn [binsearch_left]; [lia |].
  destruct (Nat.ltb_spec lo hi) as [Hlt | Hge]; [| lia].
  assert (Hmid : (lo <= lo + (hi - lo) / 2 < hi)%nat).
  { split; [lia |].
    assert ((hi - lo) / 2 < hi - lo)%nat by (apply Nat.div_lt; lia). lia. }
  destruct (nth _ arr 0%Z <? key)%Z.
  - specialize (IH (lo + (hi - lo) / 2 + 1)%nat hi). lia.
  - specialize (IH lo (lo + (hi - lo) / 2)%nat). lia.
Qed.

Lemma searchsorted_range (idx : list Z) (v : Z) :
  (0 <= searchsorted idx v <= Z.of_nat (length idx))%Z.
Proof.
  unfold searchsorted.
  pose proof (binsearch_left_range idx v (length idx) 0 (length idx)). lia.
Qed.

(** On an ascending index, [searchsorted] is the insertion position: the
    entries before it are below the value, the entries from it on are
    not. *)
Lemma searchsorted_spec (idx : list Z) (v : Z) :
  Sorted Z.le idx ->
  let p := Z.to_nat (searchsorted idx v) in
  (p <= length idx)%nat /\
  (forall i, (i < p)%nat -> (nth i idx 0 < v)%Z) /\
  (forall i, (p <= i < length idx)%nat -> (v <= nth i idx 0)%Z).
Proof.
  intros Hs. unfold searchsorted. rewrite Nat2Z.id.
  destruct (binsearch_left_spec idx v Hs (length idx) 0 (length idx))
    as (H1 & H2 & H3); try lia.
  repeat split; try lia; assumption.
Qed.

(** ** Slices *)

Lemma slice_bound_range (n i : Z) :
  (0 <= n)%Z -> (0 <= slice_bound n i <= n)%Z.
Proof.
  intros Hn. unfold slice_bound. destruct (Z.ltb_spec i 0); lia.
Qed.

Lemma slice_bound_id (n i : Z) :
  (0 <= i <= n)%Z -> slice_bound n i = i.
Proof.
  intros Hi. unfold slice_bound. destruct (Z.ltb_spec i 0); lia.
Qed.

Lemma iloc_length {A : Type} (s : list A) (start stop : Z) :
  let '(lo, hi) := slice_range (Z.of_nat (length s)) start stop in
  length (iloc s start stop) = (hi - lo)%nat.
Proof.
  unfold iloc, slice_range.
  pose proof (slice_bound_range (Z.of_nat (length s)) start).
  pose proof (slice_bound_range (Z.of_nat (length s)) stop).
  rewrite length_firstn, length_skipn. lia.
Qed.

Lemma iloc_nth {A : Type} (s : list A) (start stop : Z) (d : A) (k : nat) :
  let '(lo, hi) := slice_range (Z.of_nat (length s)) start stop in
  (k < hi - lo)%nat -> nth k (iloc s start stop) d = nth (lo + k) s d.
Proof.
  unfold iloc, slice_range. intros Hk.
  rewrite nth_firstn, nth_skipn.
  destruct (Nat.ltb_spec k
    (Z.to_nat (slice_bound (Z.of_nat (length s)) stop)
     - Z.to_nat (slice_bound (Z.of_nat (length s)) start))); [reflexivity | lia].
Qed.

(** ** Floats *)

Lemma Prim2SF_nan (v : float) : Prim2SF v = S754_nan -> v = nan.
Proof. intros H. apply Prim2SF_inj. rewrite H. reflexivity. Qed.

Ltac fold_compare :=
  repeat match goal with
         | |- context [PosDef.Pos.compare_cont Eq ?a ?b] =>
             change (PosDef.Pos.compare_cont Eq a b) with (Pos.compare a b)
         | H : context [PosDef.Pos.compare_cont Eq ?a ?b] |- _ =>
             change (PosDef.Pos.compare_cont Eq a b) with (Pos.compare a b) in H
         end.

Ltac compare_cases :=
  repeat match goal with
         | |- context [Z.compare ?a ?b] =>
             destruct (Z.compare_spec a b); try lia; subst
         | H : context [Z.compare ?a ?b] |- _ =>
             destruct (Z.compare_spec a b); try lia; subst
         | |- context [Pos.compare ?a ?b] =>
             destruct (Pos.compare_spec a b); try lia; subst
         | H : context [Pos.compare ?a ?b] |- _ =>
             destruct (Pos.compare_spec a b); try lia; subst
         end.

Ltac compare_three :=
  cbn; fold_compare; intros H1 H2;
  try discriminate; try assumption; try congruence;
  injection H1 as H1; injection H2 as H2; f_equal;
  compare_cases; cbn in *; try congruence; try lia.

Lemma SFcompare_refl (x : spec_float) :
  x <> S754_nan -> SFcompare x x = Some Eq.
Proof.
  destruct x as [s | s | | s m e]; intros H; cbn; try congruence.
  - destruct s; reflexivity.
  - rewrite Z.compare_refl. fold_compare.
    rewrite Pos.compare_refl. destruct s; reflexivity.
Qed.

Lemma SFcompare_antisym (x y : spec_float) :
  SFcompare y x = option_map CompOpp (SFcompare x y).
Proof.
  destruct x as [[] | [] | | [] m1 e1], y as [[] | [] | | [] m2 e2]; cbn;
    try reflexivity; fold_compare; f_equal;
    compare_cases; cbn; try reflexivity; try lia.
Qed.

Lemma SFcompare_trans (x y z : spec_float) (c : comparison) :
  SFcompare x y = Some c -> SFcompare y z = Some c -> SFcompare x z = Some c.
Proof.
  destruct x as [[] | [] | | [] m1 e1], y as [[] | [] | | [] m2 e2],
           z as [[] | [] | | [] m3 e3]; compare_three.
Qed.

Lemma SFcompare_eq_l (x y z : spec_float) (c : comparison) :
  SFcompare x y = Some Eq -> SFcompare y z = Some c -> SFcompare x z = Some c.
Proof.
  destruct x as [[] | [] | | [] m1 e1], y as [[] | [] | | [] m2 e2],
           z as [[] | [] | | [] m3 e3]; compare_three.
Qed.

Lemma SFcompare_eq_r (x y z : spec_float) (c : comparison) :
  SFcompare x y = Some c -> SFcompare y z = Some Eq -> SFcompare x z = Some c.
Proof.
  destruct x as [[] | [] | | [] m1 e1], y as [[] | [] | | [] m2 e2],
           z as [[] | [] | | [] m3 e3]; compare_three.
Qed.

Lemma SFcompare_nan (x y : spec_float) :
  SFcompare x y = None <-> x = S754_nan \/ y = S754_nan.
Proof.
  destruct x as [[] | [] | | [] m1 e1], y as [[] | [] | | [] m2 e2]; cbn;
    split; intros H; try discriminate; auto;
    destruct H as [H | H]; discriminate H.
Qed.

(** The comparison of two floats: [None] when one of them is NaN. *)
Lemma fltb_compare (x y : float) :
  fltb x y = true <-> SFcompare (Prim2SF x) (Prim2SF y) = Some Lt.
Proof.
  unfold fltb. rewrite FloatAxioms.ltb_spec. unfold SFltb.
  destruct (SFcompare (Prim2SF x) (Prim2SF y)) as [[] |];
    split; intros H; try discriminate; reflexivity.
Qed.

Lemma feqb_compare (x y : float) :
  feqb x y = true <-> SFcompare (Prim2SF x) (Prim2SF y) = Some Eq.
Proof.
  unfold feqb. rewrite FloatAxioms.eqb_spec. unfold SFeqb.
  destruct (SFcompare (Prim2SF x) (Prim2SF y)) as [[] |];
    split; intros H; try discriminate; reflexivity.
Qed.

Lemma fleb_compare (x y : float) :
  fleb x y = true <->
  SFcompare (Prim2SF x) (Prim2SF y) = Some Lt \/
  SFcompare (Prim2SF x) (Prim2SF y) = Some Eq.
Proof.
  unfold fleb. rewrite FloatAxioms.leb_spec. unfold SFleb.
  destruct (SFcompare (Prim2SF x) (Prim2SF y)) as [[] |];
    split; intros H; try discriminate; auto;
    destruct H as [H | H]; discriminate H.
Qed.

Lemma isna_true (v : float) : isna v = true <-> v = nan.
Proof.
  unfold isna, is_nan. rewrite FloatAxioms.eqb_spec. unfold SFeqb. split.
  - intros H. apply Prim2SF_nan.
    destruct (Prim2SF v) eqn:E; try reflexivity;
      rewrite SFcompare_refl in H by discriminate; discriminate.
  - intros ->. reflexivity.
Qed.

Lemma isna_false (v : float) : isna v = false <-> Prim2SF v <> S754_nan.
Proof.
  split.
  - intros H E. apply Prim2SF_nan in E. subst v. discriminate H.
  - intros H. destruct (isna v) eqn:E; [| reflexivity].
    apply isna_true in E. subst v. exfalso. apply H. reflexivity.
Qed.

Lemma isna_nan : isna nan = true.
Proof. reflexivity. Qed.

(** Two floats of which neither is NaN compare. *)
Lemma compare_notna (x y : float) :
  isna x = false -> isna y = false ->
  exists c, SFcompare (Prim2SF x) (Prim2SF y) = Some c.
Proof.
  intros Hx Hy. apply isna_false in Hx. apply isna_false in Hy.
  destruct (SFcompare (Prim2SF x) (Prim2SF y)) as [c |] eqn:E;
    [exists c; reflexivity |].
  apply SFcompare_nan in E. destruct E; contradiction.
Qed.

(** [x >= y] fails on two comparable floats only when [x < y]. *)
Lemma fgeb_false (x y : float) :
  isna x = false -> isna y = false -> fgeb x y = false -> fltb x y = true.
Proof.
  intros Hx Hy H. destruct (compare_notna x y Hx Hy) as [c Hc].
  apply fltb_compare. destruct c; [| exact Hc |]; exfalso.
  - assert (fgeb x y = true); [| congruence].
    apply fleb_compare. right. rewrite SFcompare_antisym, Hc. reflexivity.
  - assert (fgeb x y = true); [| congruence].
    apply fleb_compare. left. rewrite SFcompare_antisym, Hc. reflexivity.
Qed.

(** [x >= y] is [y < x] or [x == y]. *)
Lemma fgeb_true (x y : float) :
  fgeb x y = true -> fltb y x = true \/ feqb x y = true.
Proof.
  intros H. apply fleb_compare in H as [H | H].
  - left. apply fltb_compare. exact H.
  - right. apply feqb_compare. rewrite SFcompare_antisym, H. reflexivity.
Qed.

Lemma fltb_fleb (x y : float) : fltb x y = true -> fleb x y = true.
Proof.
  intros H. apply fleb_compare. left. apply fltb_compare. exact H.
Qed.

Lemma feqb_fleb (x y : float) : feqb x y = true -> fleb y x = true.
Proof.
  intros H. apply fleb_compare. right. apply feqb_compare in H.
  rewrite SFcompare_antisym, H. reflexivity.
Qed.

Lemma feqb_refl (x : float) : isna x = false -> feqb x x = true.
Proof.
  intros H. apply feqb_compare, SFcompare_refl, isna_false, H.
Qed.

Lemma fltb_trans (x y z : float) :
  fltb x y = true -> fltb y z = true -> fltb x z = true.
Proof.
  rewrite !fltb_compare. apply SFcompare_trans.
Qed.

Lemma feqb_trans (x y z : float) :
  feqb x y = true -> feqb y z = true -> feqb x z = true.
Proof.
  rewrite !feqb_compare. apply SFcompare_trans.
Qed.

Lemma feqb_fltb (x y z : float) :
  feqb x y = true -> fltb y z = true -> fltb x z = true.
Proof.
  rewrite feqb_compare, !fltb_compare. apply SFcompare_eq_l.
Qed.

Lemma fltb_feqb (x y z : float) :
  fltb x y = true -> feqb y z = true -> fltb x z = true.
Proof.
  rewrite feqb_compare, !fltb_compare. apply SFcompare_eq_r.
Qed.

(** A float above zero is not zero, so Python's division by it does not
    raise. *)
Lemma positive_nonzero (b : float) : fgtb b 0 = true -> feqb b 0 = false.
Proof.
  unfold fgtb, fltb, feqb.
  rewrite FloatAxioms.ltb_spec, FloatAxioms.eqb_spec.
  change (Prim2SF 0) with (S754_zero false).
  destruct (Prim2SF b) as [[] | [] | | [] ]; cbn; congruence.
Qed.

Lemma positive_notna (b : float) : fgtb b 0 = true -> isna b = false.
Proof.
  intros H. destruct (isna b) eqn:E; [| reflexivity].
  apply isna_true in E. subst b. discriminate H.
Qed.

(** No float is both above and below zero. *)
Lemma above_below_zero (v : float) :
  fgtb v 0 = true -> fltb v 0 = true -> False.
Proof.
  unfold fgtb, fltb. rewrite !FloatAxioms.ltb_spec.
  change (Prim2SF 0) with (S754_zero false).
  destruct (Prim2SF v) as [[] | [] | | [] ]; cbn; congruence.
Qed.

(** *** Zeros *)

Ltac zero_or_nan_cases :=
  cbn; intros; try exact I; try contradiction.

Lemma zero_or_nan_add (x y : float) :
  zero_or_nan x -> zero_or_nan y -> zero_or_nan (fadd x y).
Proof.
  unfold zero_or_nan, fadd. rewrite FloatAxioms.add_spec.
  destruct (Prim2SF x) as [[] | | |], (Prim2SF y) as [[] | | |];
    zero_or_nan_cases.
Qed.

Lemma zero_or_nan_sub (x y : float) :
  zero_or_nan x -> zero_or_nan y -> zero_or_nan (fsub x y).
Proof.
  unfold zero_or_nan, fsub. rewrite FloatAxioms.sub_spec.
  destruct (Prim2SF x) as [[] | | |], (Prim2SF y) as [[] | | |];
    zero_or_nan_cases.
Qed.

Lemma zero_or_nan_mul (x y : float) :
  zero_or_nan x -> zero_or_nan y -> zero_or_nan (fmul x y).
Proof.
  unfold zero_or_nan, fmul. rewrite FloatAxioms.mul_spec.
  destruct (Prim2SF x) as [[] | | |], (Prim2SF y) as [[] | | |];
    zero_or_nan_cases.
Qed.

(** A zero divided by anything is a zero or NaN. *)
Lemma zero_or_nan_div (x y : float) :
  zero_or_nan x -> zero_or_nan (fdiv x y).
Proof.
  unfold zero_or_nan, fdiv. rewrite FloatAxioms.div_spec.
  destruct (Prim2SF x) as [[] | | |], (Prim2SF y) as [[] | [] | | [] ];
    zero_or_nan_cases.
Qed.

Lemma zero_or_nan_sqrt (x : float) :
  zero_or_nan x -> zero_or_nan (fsqrt x).
Proof.
  unfold zero_or_nan, fsqrt. rewrite FloatAxioms.sqrt_spec.
  destruct (Prim2SF x) as [[] | | |]; zero_or_nan_cases.
Qed.

Lemma zero_or_nan_not_positive (x : float) :
  zero_or_nan x -> fgtb x 0 = false.
Proof.
  unfold zero_or_nan, fgtb, fltb. rewrite FloatAxioms.ltb_spec.
  change (Prim2SF 0) with (S754_zero false).
  destruct (Prim2SF x) as [[] | | |]; cbn; intros H;
    try reflexivity; contradiction.
Qed.

Lemma zero_or_nan_nan : zero_or_nan nan.
Proof. exact I. Qed.

Lemma zero_or_nan_zero : zero_or_nan 0.
Proof. exact I. Qed.

Lemma zero_or_nan_neg_zero : zero_or_nan (-0).
Proof. exact I. Qed.

(** *** Quotients *)

Lemma fdiv_nan_r (x : float) : fdiv x nan = nan.
Proof.
  apply Prim2SF_nan. unfold fdiv. rewrite FloatAxioms.div_spec.
  change (Prim2SF nan) with S754_nan.
  destruct (Prim2SF x); reflexivity.
Qed.

Lemma new_location_0 (m : Z) : new_location m 0 = loc_Exact.
Proof.
  unfold new_location, new_location_even, new_location_odd.
  destruct (Z.even m); reflexivity.
Qed.

(** The quotient of a mantissa by itself is exactly [2^53 * 2^-53]. *)
Lemma SFdiv_core_self (m : positive) (e : Z) :
  SFdiv_core_binary prec emax (Zpos m) e (Zpos m) e
  = (2 ^ 53, -53, loc_Exact)%Z.
Proof.
  unfold SFdiv_core_binary.
  replace (Zdigits2 (Z.pos m) + e - (Zdigits2 (Z.pos m) + e))%Z with 0%Z by lia.
  replace (e - e)%Z with 0%Z by lia.
  change (Z.min (fexp prec emax 0) 0) with (-53)%Z.
  change (0 - -53)%Z with 53%Z. cbv iota beta.
  rewrite Z.shiftl_mul_pow2 by lia.
  assert (Hq : (Z.pos m * 2 ^ 53 / Z.pos m = 2 ^ 53)%Z)
    by (rewrite Z.mul_comm; apply Z.div_mul; lia).
  assert (Hr : ((Z.pos m * 2 ^ 53) mod Z.pos m = 0)%Z)
    by (rewrite Z.mul_comm; apply Z.mod_mul; lia).
  unfold Z.div, Z.modulo in Hq, Hr.
  destruct (Z.div_eucl (Z.pos m * 2 ^ 53) (Z.pos m)) as [q r].
  cbn [fst snd] in Hq, Hr. subst q r.
  rewrite new_location_0. reflexivity.
Qed.

(** A float divided by itself is 1, or NaN when it is a zero, an infinity
    or NaN. *)
Lemma fdiv_self (c : float) : fdiv c c = nan \/ fdiv c c = 1%float.
Proof.
  unfold fdiv. destruct (Prim2SF c) as [s | s | | s m e] eqn:E.
  - left. apply Prim2SF_nan. rewrite FloatAxioms.div_spec, E. reflexivity.
  - left. apply Prim2SF_nan. rewrite FloatAxioms.div_spec, E. reflexivity.
  - left. apply Prim2SF_nan. rewrite FloatAxioms.div_spec, E. reflexivity.
  - right. apply Prim2SF_inj. rewrite FloatAxioms.div_spec, E.
    unfold SF64div, SFdiv. rewrite SFdiv_core_self.
    destruct s; reflexivity.
Qed.

(** ** numpy's [int64] *)

Lemma wrap_int64_id (z : Z) :
  (- 2 ^ 63 <= z < 2 ^ 63)%Z -> wrap_int64 z = z.
Proof.
  intros H. unfold wrap_int64. rewrite Z.mod_small by lia. lia.
Qed.

(** ** Returns *)

Lemma zip_with_length {A B C : Type} (f : A -> B -> C) (l1 : list A) :
  forall l2, length (zip_with f l1 l2) = Nat.min (length l1) (length l2).
Proof.
  induction l1 as [| a l1 IH]; intros [| b l2]; simpl; auto.
Qed.

Lemma shift1_length (s : list float) : length (shift1 s) = length s.
Proof.
  unfold shift1. rewrite length_firstn. simpl. lia.
Qed.

Lemma ffill_from_length (l : list float) :
  forall last, length (ffill_from last l) = length l.
Proof.
  induction l as [| x l IH]; intros last; cbn [ffill_from]; [reflexivity |].
  destruct (isna x); cbn [length]; rewrite IH; reflexivity.
Qed.

(** Padding changes nothing in a series without missing value. *)
Lemma ffill_from_notna (l : list float) :
  Forall (fun x => isna x = false) l ->
  forall last, ffill_from last l = l.
Proof.
  induction 1 as [| x l Hx _ IH]; intros last; cbn [ffill_from];
    [reflexivity |].
  rewrite Hx, IH. reflexivity.
Qed.

Lemma pct_change_length (pad : bool) (close : list float) :
  length (pct_change pad close) = length close.
Proof.
  unfold pct_change, ffill.
  rewrite zip_with_length, shift1_length.
  destruct pad; rewrite ?ffill_from_length; lia.
Qed.

(** On closes without missing value the padded series is the series. *)
Lemma pct_change_notna (pad : bool) (close : list float) :
  Forall (fun x => isna x = false) close ->
  pct_change pad close
  = zip_with (fun a b => fsub (fdiv a b) 1) close (shift1 close).
Proof.
  intros H. unfold pct_change, ffill.
  destruct pad; rewrite ?(ffill_from_notna close H); reflexivity.
Qed.

Lemma zip_with_nth {A B C : Type} (f : A -> B -> C) (da : A) (db : B) (dc : C) :
  forall l1 l2 i,
    (i < length l1)%nat -> (i < length l2)%nat ->
    nth i (zip_with f l1 l2) dc = f (nth i l1 da) (nth i l2 db).
Proof.
  induction l1 as [| a l1 IH]; intros [| b l2] [| i] H1 H2; simpl in *;
    try lia; auto.
  apply IH; lia.
Qed.

Lemma shift1_nth_S (s : list float) (i : nat) :
  (S i < length s)%nat -> nth (S i) (shift1 s) nan = nth i s nan.
Proof.
  intros Hi. unfold shift1. rewrite nth_firstn.
  destruct (Nat.ltb_spec (S i) (length s)); [reflexivity | lia].
Qed.

Lemma shift1_nth_0 (s : list float) : nth 0 (shift1 s) nan = nan.
Proof.
  destruct s; reflexivity.
Qed.

(** The return series opens with NaN: the first close is divided by the
    NaN that [shift] fills in. *)
Lemma pct_change_head (pad : bool) (close : list float) :
  pct_change pad close = [] \/ exists t, pct_change pad close = nan :: t.
Proof.
  unfold pct_change.
  destruct (if pad then ffill close else close) as [| c t]; [left; reflexivity |].
  right. unfold shift1. cbn [length firstn zip_with].
  rewrite fdiv_nan_r. eexists. reflexivity.
Qed.

Lemma pct_change_nth_0 (pad : bool) (close : list float) (d : float) :
  close <> [] -> nth 0 (pct_change pad close) d = nan.
Proof.
  intros Hne.
  destruct (pct_change_head pad close) as [E | [t E]]; rewrite E; [| reflexivity].
  apply (f_equal (@length float)) in E. rewrite pct_change_length in E.
  destruct close; [congruence | discriminate E].
Qed.

Lemma pct_change_nth_S (pad : bool) (close : list float) (i : nat) (d : float) :
  Forall (fun x => isna x = false) close ->
  (S i < length close)%nat ->
  nth (S i) (pct_change pad close) d
  = fsub (fdiv (nth (S i) close 0%float) (nth i close 0%float)) 1.
Proof.
  intros Hna Hi. rewrite (pct_change_notna pad close Hna).
  rewrite (zip_with_nth _ 0%float nan d)
    by (rewrite ?shift1_length; lia).
  rewrite shift1_nth_S by lia.
  rewrite (nth_indep close nan 0%float) by lia.
  reflexivity.
Qed.

(* ================================================================ *)
(** * Window location *)
(* ================================================================ *)

Lemma event_volatility_at_frame (stock_data : StockData) (event_date window : Z) :
  fst (event_volatility_at stock_data event_date window) = with_returns stock_data.
Proof. reflexivity. Qed.

Lemma event_idx_range (stock_data : StockData) (event_date : Z) :
  (0 <= event_idx stock_data event_date <= len stock_data)%Z.
Proof.
  unfold event_idx, len, index.
  pose proof (searchsorted_range (map fst (rows stock_data)) event_date) as H.
  rewrite length_map in H. exact H.
Qed.

Lemma returns_length (stock_data : StockData) :
  Z.of_nat (length (returns_of stock_data)) = len stock_data.
Proof.
  unfold returns_of, len, Close. rewrite pct_change_length, length_map.
  reflexivity.
Qed.

Lemma before_returns_window (stock_data : StockData) (p window : Z) :
  before_returns (with_returns stock_data) p window
  = Ok (before_window stock_data p window).
Proof. reflexivity. Qed.

Lemma after_returns_window (stock_data : StockData) (p window : Z) :
  after_returns (with_returns stock_data) p window
  = Ok (after_window stock_data p window).
Proof. reflexivity. Qed.

Lemma event_volatility_at_windows (stock_data : StockData) (event_date window : Z) :
  let p := event_idx stock_data event_date in
  snd (event_volatility_at stock_data event_date window)
  = Ok (std (before_window stock_data p window),
        std (after_window stock_data p window)).
Proof. reflexivity. Qed.

(** Without overflow the two bounds are the integers the script writes. *)
Lemma before_start_exact (p window : Z) :
  (0 <= p)%Z -> (0 <= window)%Z -> (p + window <= int64_max)%Z ->
  before_start p window = Z.max 0 (p - window - 1).
Proof.
  unfold int64_max. intros Hp Hw Hmax. unfold before_start, int64_sub.
  rewrite (wrap_int64_id (p - window)) by lia.
  rewrite wrap_int64_id by lia. reflexivity.
Qed.

Lemma after_end_exact (stock_data : StockData) (p window : Z) :
  (0 <= p)%Z -> (0 <= window)%Z -> (p + window <= int64_max)%Z ->
  after_end stock_data p window = Z.min (len stock_data) (p + window).
Proof.
  unfold int64_max. intros Hp Hw Hmax. unfold after_end, int64_add.
  rewrite wrap_int64_id by lia. reflexivity.
Qed.

Lemma ranges_eq (stock_data : StockData) (p window : Z) :
  (0 <= p <= len stock_data)%Z -> (0 <= window)%Z ->
  (p + window <= int64_max)%Z ->
  before_range stock_data p window
    = (Z.to_nat (Z.max 0 (p - window - 1)), Z.to_nat p) /\
  after_range stock_data p window
    = (Z.to_nat p, Z.to_nat (Z.min (len stock_data) (p + window))).
Proof.
  intros Hp Hw Hmax.
  unfold before_range, after_range, slice_range, before_end, after_start.
  rewrite before_start_exact, after_end_exact by lia.
  rewrite !slice_bound_id by lia. split; reflexivity.
Qed.

(** The slices written as sub-lists of the return series: [w + 1] places
    up to the anchor [p], and [w] places from it, both cut at the ends of
    the series. *)
Lemma before_window_exact (stock_data : StockData) (p window : Z) :
  (0 <= p <= len stock_data)%Z -> (0 <= window)%Z ->
  (p + window <= int64_max)%Z ->
  before_window stock_data p window
  = firstn (Z.to_nat (p - Z.max 0 (p - window - 1)))
      (skipn (Z.to_nat (Z.max 0 (p - window - 1))) (returns_of stock_data)).
Proof.
  intros Hp Hw Hmax. unfold before_window, iloc.
  rewrite returns_length. fold (before_range stock_data p window).
  destruct (ranges_eq stock_data p window Hp Hw Hmax) as [-> _].
  do 2 f_equal. lia.
Qed.

Lemma after_window_exact (stock_data : StockData) (p window : Z) :
  (0 <= p <= len stock_data)%Z -> (0 <= window)%Z ->
  (p + window <= int64_max)%Z ->
  after_window stock_data p window
  = firstn (Z.to_nat (Z.min (len stock_data) (p + window) - p))
      (skipn (Z.to_nat p) (returns_of stock_data)).
Proof.
  intros Hp Hw Hmax. unfold after_window, iloc.
  rewrite returns_length. fold (after_range stock_data p window).
  destruct (ranges_eq stock_data p window Hp Hw Hmax) as [_ ->].
  do 2 f_equal. lia.
Qed.

(** C4, in the form the code satisfies.  On a frame whose date index is
    ascending, for a window length [w >= 0] that the anchor can take
    without overflow ([p + w <= 2^63 - 1]), the anchor [p] that
    [calculate_event_volatility] computes is the insertion position of the
    event date: [0 <= p <= len], every entry before [p] is earlier than the
    event date and every entry from [p] on is not; so [p] is the place of
    the event date when the index holds it, [p = len] when the event date
    is after the last entry and [p = 0] with an empty before-slice when it
    is before the first.  The before-slice selects exactly the positions
    [max(0, p - w - 1) .. p - 1] of the return series and the after-slice
    exactly [p .. min(len, p + w) - 1], and the two volatilities returned
    are the standard deviations of these two slices. *)
Theorem window_anchor_and_ranges (stock_data : StockData) (event_date window : Z) :
  Sorted Z.le (index stock_data) ->
  (0 <= window)%Z ->
  (event_idx stock_data event_date + window <= int64_max)%Z ->
  let p := event_idx stock_data event_date in
  let n := len stock_data in
  let idx := index stock_data in
  let rets := returns_of stock_data in
  let before :=
    firstn (Z.to_nat (p - Z.max 0 (p - window - 1)))
      (skipn (Z.to_nat (Z.max 0 (p - window - 1))) rets) in
  let after :=
    firstn (Z.to_nat (Z.min n (p + window) - p)) (skipn (Z.to_nat p) rets) in
  (0 <= p <= n)%Z /\
  (forall i, (0 <= i < p)%Z -> (nth (Z.to_nat i) idx 0 < event_date)%Z) /\
  (forall i, (p <= i < n)%Z -> (event_date <= nth (Z.to_nat i) idx 0)%Z) /\
  (In event_date idx -> nth (Z.to_nat p) idx 0%Z = event_date) /\
  ((0 < n)%Z -> (nth (Z.to_nat (n - 1)) idx 0 < event_date)%Z -> p = n) /\
  ((0 < n)%Z -> (event_date < nth 0 idx 0)%Z ->
   p = 0%Z /\ before_returns (with_returns stock_data) p window = Ok []) /\
  before_range stock_data p window
    = (Z.to_nat (Z.max 0 (p - window - 1)), Z.to_nat p) /\
  after_range stock_data p window
    = (Z.to_nat p, Z.to_nat (Z.min n (p + window))) /\
  before_returns (with_returns stock_data) p window = Ok before /\
  after_returns (with_returns stock_data) p window = Ok after /\
  event_volatility_at stock_data event_date window
    = (with_returns stock_data, Ok (std before, std after)).
Proof.
  intros Hs Hw Hmax p n idx rets before after.
  pose proof (event_idx_range stock_data event_date) as Hp.
  pose proof (searchsorted_spec idx event_date Hs) as Hspec.
  change (searchsorted idx event_date) with p in Hspec.
  change (event_idx stock_data event_date) with p in Hp, Hmax.
  change (len stock_data) with n in Hp.
  cbv zeta in Hspec.
  destruct Hspec as (Hlen & Hlt & Hge).
  assert (Hn : n = Z.of_nat (length idx)).
  { unfold n, len, idx, index. rewrite length_map. reflexivity. }
  assert (Hbefore : forall i, (0 <= i < p)%Z -> (nth (Z.to_nat i) idx 0 < event_date)%Z).
  { intros i Hi. apply Hlt. lia. }
  assert (Hafter : forall i, (p <= i < n)%Z -> (event_date <= nth (Z.to_nat i) idx 0)%Z).
  { intros i Hi. apply Hge. lia. }
  assert (Hfirst : (0 < n)%Z -> (event_date < nth 0 idx 0)%Z -> p = 0%Z).
  { intros Hpos Hd.
    destruct (Z.eq_dec p 0) as [| Hne]; [assumption |].
    specialize (Hbefore 0%Z ltac:(lia)). simpl in Hbefore. lia. }
  assert (Hbw : before_returns (with_returns stock_data) p window = Ok before).
  { rewrite before_returns_window.
    rewrite (before_window_exact stock_data p window Hp Hw Hmax). reflexivity. }
  assert (Haw : after_returns (with_returns stock_data) p window = Ok after).
  { rewrite after_returns_window.
    rewrite (after_window_exact stock_data p window Hp Hw Hmax). reflexivity. }
  destruct (ranges_eq stock_data p window Hp Hw Hmax) as [Hbr Har].
  repeat apply conj; try assumption; try lia.
  - (* the event date is in the index *)
    intros Hin. destruct (In_nth idx event_date 0%Z Hin) as (j & Hj & Hnth).
    assert (Hpj : (Z.to_nat p <= j)%nat).
    { destruct (le_lt_dec (Z.to_nat p) j) as [| Hjp]; [assumption |].
      specialize (Hlt j Hjp). lia. }
    assert (nth (Z.to_nat p) idx 0 <= nth j idx 0)%Z
      by (apply Sorted_nth_le; [assumption | lia]).
    specialize (Hge (Z.to_nat p) ltac:(lia)). lia.
  - (* after the last entry *)
    intros Hpos Hlast.
    destruct (Z.eq_dec p n) as [| Hne]; [assumption |].
    specialize (Hafter p ltac:(lia)).
    assert (nth (Z.to_nat p) idx 0 <= nth (Z.to_nat (n - 1)) idx 0)%Z
      by (apply Sorted_nth_le; [assumption | lia]).
    lia.
  - (* before the first entry *)
    intros Hpos Hd. split; [apply Hfirst; assumption |].
    rewrite Hbw. unfold before. rewrite (Hfirst Hpos Hd).
    replace (Z.to_nat (0 - Z.max 0 (0 - window - 1))) with 0%nat by lia.
    reflexivity.
  - rewrite (surjective_pairing (event_volatility_at stock_data event_date window)).
    rewrite event_volatility_at_frame, event_volatility_at_windows.
    fold p.
    rewrite (before_window_exact stock_data p window Hp Hw Hmax).
    rewrite (after_window_exact stock_data p window Hp Hw Hmax).
    reflexivity.
Qed.

Lemma before_window_length (stock_data : StockData) (p window : Z) :
  (0 <= p <= len stock_data)%Z -> (0 <= window)%Z ->
  (p + window <= int64_max)%Z ->
  Z.of_nat (length (before_window stock_data p window))
  = (p - Z.max 0 (p - window - 1))%Z.
Proof.
  intros Hp Hw Hmax. rewrite before_window_exact by assumption.
  rewrite length_firstn, length_skipn.
  pose proof (returns_length stock_data). lia.
Qed.

Lemma after_window_length (stock_data : StockData) (p window : Z) :
  (0 <= p <= len stock_data)%Z -> (0 <= window)%Z ->
  (p + window <= int64_max)%Z ->
  Z.of_nat (length (after_window stock_data p window))
  = (Z.min (len stock_data) (p + window) - p)%Z.
Proof.
  intros Hp Hw Hmax. rewrite after_window_exact by assumption.
  rewrite length_firstn, length_skipn.
  pose proof (returns_length stock_data). lia.
Qed.

(** C6, in the form the code satisfies.  For a window length [w >= 0]
    that the anchor can take without overflow both slices are returned, the
    before-slice has at most [w + 1] values and the after-slice at most
    [w]; the before-slice is empty only when the anchor is [0], and the
    after-slice is empty only when the anchor is [len] or [w = 0]. *)
Theorem window_lengths (stock_data : StockData) (event_date window : Z) :
  (0 <= window)%Z ->
  (event_idx stock_data event_date + window <= int64_max)%Z ->
  let p := event_idx stock_data event_date in
  exists before after : list float,
    before_returns (with_returns stock_data) p window = Ok before /\
    after_returns (with_returns stock_data) p window = Ok after /\
    (Z.of_nat (length before) <= window + 1)%Z /\
    (Z.of_nat (length after) <= window)%Z /\
    (before = [] -> p = 0%Z) /\
    (after = [] -> p = len stock_data \/ window = 0%Z).
Proof.
  intros Hw Hmax p.
  pose proof (event_idx_range stock_data event_date) as Hp.
  change (event_idx stock_data event_date) with p in Hp, Hmax.
  exists (before_window stock_data p window), (after_window stock_data p window).
  pose proof (before_window_length stock_data p window Hp Hw Hmax) as Hb.
  pose proof (after_window_length stock_data p window Hp Hw Hmax) as Ha.
  repeat apply conj.
  - apply before_returns_window.
  - apply after_returns_window.
  - lia.
  - lia.
  - intros E. rewrite E in Hb. simpl in Hb. lia.
  - intros E. rewrite E in Ha. simpl in Ha. lia.
Qed.

(** C10.  The before-slice ends at the anchor and the after-slice begins
    there; each slice holds exactly the return values at the positions of
    its range, and no position belongs to both ranges. *)
Theorem windows_disjoint (stock_data : StockData) (event_date window : Z) :
  let p := event_idx stock_data event_date in
  let rets := returns_of stock_data in
  let br := before_range stock_data p window in
  let ar := after_range stock_data p window in
  before_end p = p /\ after_start p = p /\
  snd br = Z.to_nat p /\ fst ar = Z.to_nat p /\
  (exists before after : list float,
     before_returns (with_returns stock_data) p window = Ok before /\
     after_returns (with_returns stock_data) p window = Ok after /\
     length before = (snd br - fst br)%nat /\
     length after = (snd ar - fst ar)%nat /\
     (forall k, (k < length before)%nat ->
                nth k before nan = nth (fst br + k) rets nan) /\
     (forall k, (k < length after)%nat ->
                nth k after nan = nth (fst ar + k) rets nan)) /\
  (forall i, ~ (in_range br i /\ in_range ar i)).
Proof.
  intros p rets br ar.
  pose proof (event_idx_range stock_data event_date) as Hp.
  change (event_idx stock_data event_date) with p in Hp.
  assert (Hsnd : snd br = Z.to_nat p).
  { unfold br, before_range, slice_range, before_end. cbn [snd].
    rewrite slice_bound_id by lia. reflexivity. }
  assert (Hfst : fst ar = Z.to_nat p).
  { unfold ar, after_range, slice_range, after_start. cbn [fst].
    rewrite slice_bound_id by lia. reflexivity. }
  repeat apply conj; try reflexivity; try assumption.
  - exists (firstn (snd br - fst br) (skipn (fst br) rets)),
           (firstn (snd ar - fst ar) (skipn (fst ar) rets)).
    assert (Hlen : Z.of_nat (length rets) = len stock_data)
      by apply returns_length.
    assert (Hb : (fst br <= length rets)%nat /\ (snd br <= length rets)%nat).
    { unfold br, before_range, slice_range. cbn [fst snd].
      pose proof (slice_bound_range (len stock_data) (before_start p window)).
      pose proof (slice_bound_range (len stock_data) (before_end p)). lia. }
    assert (Ha : (fst ar <= length rets)%nat /\ (snd ar <= length rets)%nat).
    { unfold ar, after_range, slice_range. cbn [fst snd].
      pose proof (slice_bound_range (len stock_data) (after_start p)).
      pose proof (slice_bound_range (len stock_data)
                    (after_end stock_data p window)). lia. }
    repeat apply conj.
    + rewrite before_returns_window. unfold before_window, iloc.
      rewrite returns_length. fold (before_range stock_data p window).
      fold br rets. destruct br; reflexivity.
    + rewrite after_returns_window. unfold after_window, iloc.
      rewrite returns_length. fold (after_range stock_data p window).
      fold ar rets. destruct ar; reflexivity.
    + rewrite length_firstn, length_skipn. lia.
    + rewrite length_firstn, length_skipn. lia.
    + intros k Hk. rewrite length_firstn, length_skipn in Hk.
      rewrite nth_firstn, nth_skipn.
      destruct (Nat.ltb_spec k (snd br - fst br)); [reflexivity | lia].
    + intros k Hk. rewrite length_firstn, length_skipn in Hk.
      rewrite nth_firstn, nth_skipn.
      destruct (Nat.ltb_spec k (snd ar - fst ar)); [reflexivity | lia].
  - intros i [[_ Hi1] [Hi2 _]]. lia.
Qed.

(* ================================================================ *)
(** * The return series *)
(* ================================================================ *)

(** C7, in the form the code satisfies.  For a price series of at least
    two closes, all above zero, the [Returns] column that
    [calculate_event_volatility] assigns has the length of the input, its
    first value is NaN, and for every [i >= 1] its value is the float
    [close[i] / close[i-1] - 1]: the quotient rounded to binary64, and then
    the difference rounded. *)
Theorem returns_quotients (stock_data : StockData) (event_date window : Z) :
  (2 <= length (Close stock_data))%nat ->
  Forall (fun c => fgtb c 0 = true) (Close stock_data) ->
  let close := Close stock_data in
  exists rets : list float,
    Returns (fst (event_volatility_at stock_data event_date window)) = Some rets /\
    length rets = length close /\
    nth 0 rets 0%float = nan /\
    forall i, (1 <= i < length close)%nat ->
      nth i rets nan
      = fsub (fdiv (nth i close 0%float) (nth (i - 1) close 0%float)) 1.
Proof.
  intros Hlen Hpos close. subst close.
  exists (returns_of stock_data).
  split; [reflexivity |]. unfold returns_of.
  set (close := Close stock_data) in *. clearbody close.
  repeat apply conj.
  - apply pct_change_length.
  - apply pct_change_nth_0. intros E. rewrite E in Hlen.
    simpl in Hlen. lia.
  - intros i Hi. destruct i as [| i]; [lia |].
    replace (S i - 1)%nat with i by lia.
    apply pct_change_nth_S; [| lia].
    apply (Forall_impl _ positive_notna Hpos).
Qed.

(* ================================================================ *)
(** * The standard deviation *)
(* ================================================================ *)

(** With at most one usable value the variance is undefined. *)
Lemma nanvar_small (values : list float) :
  (count values <= 1)%nat -> nanvar values = nan.
Proof.
  unfold nanvar. intros Hc.
  destruct (Nat.leb_spec (count values) 1); [reflexivity | lia].
Qed.

Lemma std_small (values : list float) :
  (count values <= 1)%nat -> std values = nan.
Proof.
  intros Hc. unfold std. rewrite nanvar_small by assumption. reflexivity.
Qed.

(** A standard deviation above zero needs two usable values. *)
Lemma std_positive_count (values : list float) :
  fgtb (std values) 0 = true -> (2 <= count values)%nat.
Proof.
  intros H. destruct (Nat.leb_spec (count values) 1) as [Hc | Hc]; [| lia].
  rewrite (std_small values Hc) in H. discriminate H.
Qed.

Lemma count_le_length (l : list float) : (count l <= length l)%nat.
Proof. unfold count, dropna. apply filter_length_le. Qed.

(* ================================================================ *)
(** * The guard of the batch loop *)
(* ================================================================ *)

Lemma vol_value_notna (v : float) : isna v = false -> vol_value v = v.
Proof. intros H. unfold vol_value. rewrite H. reflexivity. Qed.

(** Replacing NaN by 0 does not change the outcome of the test [> 0]. *)
Lemma vol_value_positive (v : float) : fgtb (vol_value v) 0 = fgtb v 0.
Proof.
  unfold vol_value. destruct (isna v) eqn:E; [| reflexivity].
  apply isna_true in E. subst v. reflexivity.
Qed.

(** The guard [vol_value > 0] on a standard deviation. *)
Lemma guard_defined_positive (values : list float) :
  fgtb (vol_value (std values)) 0 = true <-> defined_positive values.
Proof.
  rewrite vol_value_positive. unfold defined_positive. split.
  - intros H. split; [apply std_positive_count |]; exact H.
  - intros [_ H]. exact H.
Qed.

Lemma defined_positiveb_spec (values : list float) :
  defined_positiveb values = true <-> defined_positive values.
Proof.
  unfold defined_positiveb, defined_positive.
  rewrite andb_true_iff, Nat.leb_le. reflexivity.
Qed.

Lemma calculate_event_volatility_ok (stock_data : StockData)
    (event_date : string) (d window : Z) :
  to_datetime event_date = Ok d ->
  let p := event_idx stock_data d in
  calculate_event_volatility stock_data event_date window
  = (with_returns stock_data,
     Ok (std (before_window stock_data p window),
         std (after_window stock_data p window))).
Proof.
  intros Hd p. unfold calculate_event_volatility. rewrite Hd. reflexivity.
Qed.

Lemma calculate_event_volatility_raise (stock_data : StockData)
    (event_date : string) (e : exn) (window : Z) :
  to_datetime event_date = Raise e ->
  calculate_event_volatility stock_data event_date window
  = (stock_data, Raise e).
Proof.
  intros Hd. unfold calculate_event_volatility. rewrite Hd. reflexivity.
Qed.

Lemma emitted_well_formed (ticker event_name event_date : string) (b a : float) :
  fgtb b 0 = true -> fgtb a 0 = true ->
  well_formed (emitted ticker event_name event_date b a).
Proof.
  intros Hb Ha. unfold well_formed, emitted. cbn. auto.
Qed.

(** Both volatilities positive: the record is appended. *)
Lemma analyze_event_emit (ticker : string) (stock_data : StockData)
    (results : list VolRecord) (event_name event_date : string) (d : Z) :
  to_datetime event_date = Ok d ->
  let p := event_idx stock_data d in
  let before := before_window stock_data p default_window in
  let after := after_window stock_data p default_window in
  defined_positive before -> defined_positive after ->
  analyze_event ticker stock_data results (event_name, event_date)
  = (with_returns stock_data,
     Ok (results ++
           [emitted ticker event_name event_date (std before) (std after)])).
Proof.
  intros Hd p before after [_ Hb] [_ Ha]. unfold analyze_event.
  rewrite (calculate_event_volatility_ok _ _ d _ Hd).
  fold p before after. cbn [bind].
  rewrite (vol_value_notna _ (positive_notna _ Hb)).
  rewrite (vol_value_notna _ (positive_notna _ Ha)).
  rewrite Hb, Ha. cbn [andb]. unfold py_truediv.
  rewrite (positive_nonzero _ Hb). reflexivity.
Qed.

(** Otherwise the event is skipped: no record and no exception. *)
Lemma analyze_event_skip (ticker : string) (stock_data : StockData)
    (results : list VolRecord) (event_name event_date : string) (d : Z) :
  to_datetime event_date = Ok d ->
  let p := event_idx stock_data d in
  ~ (defined_positive (before_window stock_data p default_window) /\
     defined_positive (after_window stock_data p default_window)) ->
  analyze_event ticker stock_data results (event_name, event_date)
  = (with_returns stock_data, Ok results).
Proof.
  intros Hd p Hnot. unfold analyze_event.
  rewrite (calculate_event_volatility_ok _ _ d _ Hd).
  fold p. cbn [bind].
  destruct (fgtb (vol_value (std (before_window stock_data p default_window))) 0)
    eqn:Eb;
    destruct (fgtb (vol_value (std (after_window stock_data p default_window))) 0)
      eqn:Ea; cbn [andb]; try reflexivity.
  exfalso. apply Hnot. split; apply guard_defined_positive; assumption.
Qed.

Lemma analyze_event_raise (ticker : string) (stock_data : StockData)
    (results : list VolRecord) (event_name event_date : string) (e : exn) :
  to_datetime event_date = Raise e ->
  analyze_event ticker stock_data results (event_name, event_date)
  = (stock_data, Raise e).
Proof.
  intros Hd. unfold analyze_event.
  rewrite (calculate_event_volatility_raise _ _ e _ Hd). reflexivity.
Qed.

Lemma defined_positive_dec (before after : list float) :
  {defined_positive before /\ defined_positive after} +
  {~ (defined_positive before /\ defined_positive after)}.
Proof.
  destruct (defined_positiveb before) eqn:Eb;
    [destruct (defined_positiveb after) eqn:Ea |].
  - left. split; apply defined_positiveb_spec; assumption.
  - right. intros [_ H]. apply defined_positiveb_spec in H. congruence.
  - right. intros [H _]. apply defined_positiveb_spec in H. congruence.
Qed.

(* ================================================================ *)
(** * The batch loops *)
(* ================================================================ *)

(** The three ways one turn of the inner loop can end. *)
Lemma analyze_event_cases (ticker : string) (stock_data : StockData)
    (results : list VolRecord) (ev : string * string) :
  (exists e, to_datetime (snd ev) = Raise e /\
             analyze_event ticker stock_data results ev = (stock_data, Raise e))
  \/ (exists d, to_datetime (snd ev) = Ok d /\
                analyze_event ticker stock_data results ev
                = (with_returns stock_data, Ok results))
  \/ (exists d b a, to_datetime (snd ev) = Ok d /\
                    fgtb b 0 = true /\ fgtb a 0 = true /\
                    analyze_event ticker stock_data results ev
                    = (with_returns stock_data,
                       Ok (results ++ [emitted ticker (fst ev) (snd ev) b a]))).
Proof.
  destruct ev as [event_name event_date]. cbn [fst snd].
  destruct (to_datetime event_date) as [d | e] eqn:Hd.
  - right.
    destruct (defined_positive_dec
                (before_window stock_data (event_idx stock_data d) default_window)
                (after_window stock_data (event_idx stock_data d) default_window))
      as [[Hb Ha] | Hnot].
    + right. exists d. do 2 eexists.
      split; [reflexivity |]. split; [apply Hb |]. split; [apply Ha |].
      apply (analyze_event_emit _ _ _ _ _ d); assumption.
    + left. exists d. split; [reflexivity |].
      apply (analyze_event_skip _ _ _ _ _ d); assumption.
  - left. exists e. split; [reflexivity |].
    apply analyze_event_raise. assumption.
Qed.

Lemma with_returns_idem (stock_data : StockData) :
  with_returns (with_returns stock_data) = with_returns stock_data.
Proof. reflexivity. Qed.

(** The inner loop leaves the frame as it got it or with the [Returns]
    column assigned. *)
Lemma analyze_events_frame (ticker : string) (events : list (string * string)) :
  forall stock_data results,
    let stock_data' := fst (analyze_events ticker stock_data results events) in
    stock_data' = stock_data \/ stock_data' = with_returns stock_data.
Proof.
  induction events as [| ev events IH]; intros stock_data results; cbn;
    [left; reflexivity |].
  destruct (analyze_event_cases ticker stock_data results ev)
    as [(e & _ & E) | [(d & _ & E) | (d & b & a & _ & _ & _ & E)]];
    rewrite E.
  - left. reflexivity.
  - right. destruct (IH (with_returns stock_data) results) as [H | H]; exact H.
  - right.
    destruct (IH (with_returns stock_data)
                (results ++ [emitted ticker (fst ev) (snd ev) b a])) as [H | H];
      exact H.
Qed.

(** The records the inner loop adds are well formed and carry the ticker. *)
Lemma analyze_events_results (ticker : string) (events : list (string * string)) :
  forall stock_data results results',
    snd (analyze_events ticker stock_data results events) = Ok results' ->
    exists new,
      results' = results ++ new /\
      Forall well_formed new /\ Forall (fun r => Ticker r = ticker) new.
Proof.
  induction events as [| ev events IH]; intros stock_data results results'; cbn.
  - intros [= <-]. exists []. rewrite app_nil_r. repeat split; constructor.
  - destruct (analyze_event_cases ticker stock_data results ev)
      as [(e & _ & E) | [(d & _ & E) | (d & b & a & _ & Hb & Ha & E)]];
      rewrite E; [discriminate | apply IH |].
    intros H. destruct (IH _ _ _ H) as (new & -> & Hwf & Htk).
    exists (emitted ticker (fst ev) (snd ev) b a :: new).
    rewrite <- app_assoc. repeat split.
    + constructor; [apply emitted_well_formed; assumption | assumption].
    + constructor; [reflexivity | assumption].
Qed.

(** The inner loop returns when every date parses. *)
Lemma analyze_events_total (ticker : string) (events : list (string * string)) :
  Forall (fun ev => exists d, to_datetime (snd ev) = Ok d) events ->
  forall stock_data results,
    exists results',
      snd (analyze_events ticker stock_data results events) = Ok results'.
Proof.
  induction 1 as [| ev events [d Hd] _ IH]; intros stock_data results; cbn;
    [eexists; reflexivity |].
  destruct (analyze_event_cases ticker stock_data results ev)
    as [(e & He & E) | [(d' & _ & E) | (d' & b & a & _ & _ & _ & E)]];
    rewrite E; [congruence | apply IH | apply IH].
Qed.

Lemma analyze_tickers_results
    (events_dict : list (string * list (string * string))) :
  forall results results',
    analyze_tickers results events_dict = Ok results' ->
    exists new, results' = results ++ new /\ Forall well_formed new.
Proof.
  induction events_dict as [| [ticker events] rest IH]; intros results results';
    cbn [analyze_tickers].
  - intros [= <-]. exists []. rewrite app_nil_r. split; constructor.
  - destruct (snd (analyze_events ticker (get_stock_data ticker) results events))
      as [mid | e] eqn:E; cbn [bind]; [| discriminate].
    intros H.
    destruct (analyze_events_results _ _ _ _ _ E) as (new1 & -> & Hwf1 & _).
    destruct (IH _ _ H) as (new2 & -> & Hwf2).
    exists (new1 ++ new2). rewrite app_assoc. split; [reflexivity |].
    apply Forall_app. split; assumption.
Qed.

Lemma analyze_tickers_total
    (events_dict : list (string * list (string * string))) :
  dates_parse events_dict ->
  forall results, exists results', analyze_tickers results events_dict = Ok results'.
Proof.
  induction 1 as [| [ticker events] rest Hev _ IH]; intros results;
    cbn [analyze_tickers]; [eexists; reflexivity |].
  destruct (analyze_events_total ticker events Hev (get_stock_data ticker) results)
    as [mid ->].
  cbn [bind]. apply IH.
Qed.

(** The batch returns a table when every date parses, and every record
    of a table it returns is well formed. *)
Lemma analyze_all_events_total
    (events_dict : list (string * list (string * string))) :
  dates_parse events_dict ->
  exists tbl, analyze_all_events events_dict = Ok tbl.
Proof.
  intros Hp. unfold analyze_all_events.
  destruct (analyze_tickers_total events_dict Hp []) as [results ->].
  eexists. reflexivity.
Qed.

Lemma analyze_all_events_well_formed
    (events_dict : list (string * list (string * string))) (tbl : ResultsFrame) :
  analyze_all_events events_dict = Ok tbl -> Forall well_formed (data tbl).
Proof.
  unfold analyze_all_events.
  destruct (analyze_tickers [] events_dict) as [results | e] eqn:E;
    cbn [bind]; [| discriminate].
  intros [= <-]. destruct (analyze_tickers_results _ _ _ E) as (new & -> & Hwf).
  exact Hwf.
Qed.

(** ** What each event contributes *)

(** The windows and the anchor depend on the rows of the frame only. *)
Lemma windows_rows (stock_data stock_data' : StockData) (d window : Z) :
  rows stock_data = rows stock_data' ->
  event_idx stock_data d = event_idx stock_data' d /\
  (forall p, before_window stock_data p window
             = before_window stock_data' p window) /\
  (forall p, after_window stock_data p window
             = after_window stock_data' p window).
Proof.
  unfold event_idx, index, before_window, after_window, returns_of, after_end,
    len, Close.
  intros ->. repeat split; reflexivity.
Qed.

Lemma with_returns_rows (stock_data : StockData) :
  rows (with_returns stock_data) = rows stock_data.
Proof. reflexivity. Qed.

(** One turn of the loop on a frame of the provider appends the
    contribution of the event. *)
Lemma analyze_event_contribution (ticker : string) (stock_data : StockData)
    (results : list VolRecord) (ev : string * string) :
  rows stock_data = rows (get_stock_data ticker) ->
  analyze_event ticker stock_data results ev
  = match to_datetime (snd ev) with
    | Raise e => (stock_data, Raise e)
    | Ok _ =>
        (with_returns stock_data,
         Ok (results ++ contribution (ticker, fst ev, snd ev)))
    end.
Proof.
  intros Hrows. destruct ev as [event_name event_date]. cbn [fst snd].
  unfold contribution.
  destruct (to_datetime event_date) as [d | e] eqn:Hd;
    [| apply analyze_event_raise; exact Hd].
  destruct (windows_rows stock_data (get_stock_data ticker) d default_window Hrows)
    as (Hp & Hb & Ha).
  cbv zeta. rewrite <- Hp, <- Hb, <- Ha.
  destruct (defined_positive_dec
              (before_window stock_data (event_idx stock_data d) default_window)
              (after_window stock_data (event_idx stock_data d) default_window))
    as [[Hdb Hda] | Hnot].
  - rewrite (proj2 (defined_positiveb_spec _) Hdb).
    rewrite (proj2 (defined_positiveb_spec _) Hda). cbn [andb].
    apply (analyze_event_emit _ _ _ _ _ d); assumption.
  - rewrite (analyze_event_skip _ _ _ _ _ d Hd Hnot).
    destruct (defined_positiveb _) eqn:Eb;
      [destruct (defined_positiveb (after_window _ _ _)) eqn:Ea |];
      cbn [andb]; rewrite ?app_nil_r; try reflexivity.
    exfalso. apply Hnot. split; apply defined_positiveb_spec; assumption.
Qed.

Lemma analyze_events_contribution (ticker : string)
    (events : list (string * string)) :
  forall stock_data results results',
    rows stock_data = rows (get_stock_data ticker) ->
    snd (analyze_events ticker stock_data results events) = Ok results' ->
    results'
    = results ++
      flat_map contribution (map (fun ev => (ticker, fst ev, snd ev)) events).
Proof.
  induction events as [| ev events IH]; intros stock_data results results' Hrows;
    cbn [analyze_events map flat_map].
  - intros [= <-]. rewrite app_nil_r. reflexivity.
  - rewrite (analyze_event_contribution ticker stock_data results ev Hrows).
    destruct (to_datetime (snd ev)); [| discriminate].
    intros H. apply IH in H; [| exact Hrows].
    rewrite H, app_assoc. reflexivity.
Qed.

Lemma analyze_tickers_contribution
    (events_dict : list (string * list (string * string))) :
  forall results results',
    analyze_tickers results events_dict = Ok results' ->
    results' = results ++ flat_map contribution (all_events events_dict).
Proof.
  induction events_dict as [| [ticker events] rest IH]; intros results results';
    cbn [analyze_tickers].
  - intros [= <-]. rewrite app_nil_r. reflexivity.
  - destruct (snd (analyze_events ticker (get_stock_data ticker) results events))
      as [mid | e] eqn:E; cbn [bind]; [| discriminate].
    intros H. apply IH in H.
    apply analyze_events_contribution in E; [| reflexivity].
    unfold all_events in *. cbn [flat_map fst snd].
    rewrite flat_map_app, H, E, app_assoc. reflexivity.
Qed.

(* ================================================================ *)
(** * Records *)
(* ================================================================ *)

(** C1, in the form the code satisfies.  For a series and an event whose
    date parses, [calculate_event_volatility] returns the standard
    deviations of the before- and the after-window, and the turn of the
    batch loop raises nothing: it appends the record of the two
    volatilities when both windows have a defined volatility (at least two
    usable return values) that is above zero, and leaves the results as
    they are otherwise.  For an event whose date does not parse the turn
    raises what [pd.to_datetime] raised.  The batch returns a table when
    every date parses, and a table that [analyze_all_events] returns is
    the frame of the records of the events that qualify, one for each in
    the order of the event table, and nothing else; so both volatilities
    of every record are above zero. *)
Theorem guard_and_emission (ticker : string) (stock_data : StockData)
    (results : list VolRecord) (event_name event_date : string) :
  (forall d, to_datetime event_date = Ok d ->
     let p := event_idx stock_data d in
     let before := before_window stock_data p default_window in
     let after := after_window stock_data p default_window in
     calculate_event_volatility stock_data event_date default_window
       = (with_returns stock_data, Ok (std before, std after)) /\
     (defined_positive before /\ defined_positive after ->
      analyze_event ticker stock_data results (event_name, event_date)
      = (with_returns stock_data,
         Ok (results ++
               [emitted ticker event_name event_date (std before) (std after)])))
     /\
     (~ (defined_positive before /\ defined_positive after) ->
      analyze_event ticker stock_data results (event_name, event_date)
      = (with_returns stock_data, Ok results))) /\
  (forall e, to_datetime event_date = Raise e ->
     analyze_event ticker stock_data results (event_name, event_date)
     = (stock_data, Raise e)) /\
  (forall events_dict,
     (dates_parse events_dict ->
      exists tbl, analyze_all_events events_dict = Ok tbl) /\
     (forall tbl,
        analyze_all_events events_dict = Ok tbl ->
        tbl = DataFrame (flat_map contribution (all_events events_dict)) /\
        forall r, In r (data tbl) ->
          fgtb (Before_Volatility r) 0 = true /\
          fgtb (After_Volatility r) 0 = true)).
Proof.
  repeat apply conj.
  - intros d Hd p before after. repeat apply conj.
    + apply (calculate_event_volatility_ok _ _ d _ Hd).
    + intros [Hb Ha]. apply (analyze_event_emit _ _ _ _ _ d); assumption.
    + intros Hnot. apply (analyze_event_skip _ _ _ _ _ d); assumption.
  - intros e He. apply analyze_event_raise. exact He.
  - intros events_dict. split; [apply analyze_all_events_total |].
    intros tbl Htbl. split.
    + unfold analyze_all_events in Htbl.
      destruct (analyze_tickers [] events_dict) as [rs | e] eqn:E;
        cbn [bind] in Htbl; [| discriminate].
      injection Htbl as <-. f_equal.
      apply (analyze_tickers_contribution _ _ _ E).
    + intros r Hr.
      pose proof (analyze_all_events_well_formed _ _ Htbl) as Hwf.
      rewrite Forall_forall in Hwf.
      destruct (Hwf r Hr) as (Hb & Ha & _). split; assumption.
Qed.

(** C5.  Every record of a table that [analyze_all_events] returns holds
    a volatility [b > 0] before the event and a volatility [a] after it,
    its change field is [a - b] and its percent field is
    [(a - b) / b * 100], each operation being the float operation. *)
Theorem change_fields
    (events_dict : list (string * list (string * string))) (tbl : ResultsFrame) :
  analyze_all_events events_dict = Ok tbl ->
  forall r, In r (data tbl) ->
    let b := Before_Volatility r in
    let a := After_Volatility r in
    fgtb b 0 = true /\
    Volatility_Change r = fsub a b /\
    Volatility_Change_Pct r = fmul (fdiv (fsub a b) b) 100.
Proof.
  intros Htbl r Hr.
  pose proof (analyze_all_events_well_formed _ _ Htbl) as Hwf.
  rewrite Forall_forall in Hwf.
  destruct (Hwf r Hr) as (Hb & _ & Hc & Hpct).
  repeat split; assumption.
Qed.

(* ================================================================ *)
(** * The price frame *)
(* ================================================================ *)

Lemma with_returns_fixed (stock_data : StockData) :
  Returns stock_data = Some (returns_of stock_data) ->
  with_returns stock_data = stock_data.
Proof.
  destruct stock_data as [r c]. unfold with_returns, set_Returns, returns_of, Close.
  cbn. intros ->. reflexivity.
Qed.

(** C9, in the form the code satisfies.  A call of
    [calculate_event_volatility] leaves the rows of the frame (the date
    index and the closes) as they are.  When the event date parses it
    assigns the [Returns] column, the [pct_change] of the closes; when it
    does not parse the frame is untouched.  A frame that already holds this
    column comes back equal, and the inner loop of the batch leaves the
    frame as it got it or with the column assigned. *)
Theorem returns_column_assigned (stock_data : StockData)
    (event_date : string) (window : Z) :
  let stock_data' :=
    fst (calculate_event_volatility stock_data event_date window) in
  rows stock_data' = rows stock_data /\
  index stock_data' = index stock_data /\
  Close stock_data' = Close stock_data /\
  (forall d, to_datetime event_date = Ok d ->
             Returns stock_data'
             = Some (pct_change fill_method_pad (Close stock_data))) /\
  (forall e, to_datetime event_date = Raise e -> stock_data' = stock_data) /\
  (Returns stock_data = Some (pct_change fill_method_pad (Close stock_data)) ->
   stock_data' = stock_data) /\
  (forall ticker results events,
     let after_loop := fst (analyze_events ticker stock_data results events) in
     rows after_loop = rows stock_data /\
     (after_loop = stock_data \/ after_loop = with_returns stock_data)).
Proof.
  intros stock_data'. subst stock_data'.
  assert (Hloop : forall ticker results events,
             let after_loop :=
               fst (analyze_events ticker stock_data results events) in
             rows after_loop = rows stock_data /\
             (after_loop = stock_data \/ after_loop = with_returns stock_data)).
  { intros ticker results events after_loop. subst after_loop.
    destruct (analyze_events_frame ticker events stock_data results)
      as [-> | ->]; split; auto. }
  unfold calculate_event_volatility.
  destruct (to_datetime event_date) as [d | e] eqn:Hd.
  - rewrite event_volatility_at_frame.
    split; [reflexivity |]. split; [reflexivity |]. split; [reflexivity |].
    split; [intros d' _; reflexivity |].
    split; [intros e; discriminate |].
    split; [apply with_returns_fixed | exact Hloop].
  - cbn [fst].
    split; [reflexivity |]. split; [reflexivity |]. split; [reflexivity |].
    split; [intros d; discriminate |].
    split; [intros e' _; reflexivity |].
    split; [intros _; reflexivity | exact Hloop].
Qed.

(* ================================================================ *)
(** * A series without price data *)
(* ================================================================ *)

Lemma empty_frame_windows (stock_data : StockData) (p window : Z) :
  rows stock_data = [] ->
  before_window stock_data p window = [] /\ after_window stock_data p window = [].
Proof.
  intros Hr. unfold before_window, after_window, returns_of, Close, iloc.
  rewrite Hr. cbn [map]. destruct fill_method_pad; cbn;
    rewrite !skipn_nil, !firstn_nil; split; reflexivity.
Qed.

Lemma not_defined_positive_nil : ~ defined_positive [].
Proof.
  intros [Hc _]. cbn in Hc. lia.
Qed.

(** The inner loop over a frame without rows adds nothing. *)
Lemma analyze_events_empty (ticker : string) (events : list (string * string)) :
  Forall (fun ev => exists d, to_datetime (snd ev) = Ok d) events ->
  forall stock_data results,
    rows stock_data = [] ->
    snd (analyze_events ticker stock_data results events) = Ok results.
Proof.
  induction 1 as [| [event_name event_date] events [d Hd] _ IH];
    intros stock_data results Hr; cbn [analyze_events]; [reflexivity |].
  cbn [snd] in Hd.
  rewrite (analyze_event_skip ticker stock_data results event_name event_date d Hd).
  - apply IH. exact Hr.
  - destruct (empty_frame_windows stock_data (event_idx stock_data d)
                default_window Hr) as [-> _].
    intros [H _]. exact (not_defined_positive_nil H).
Qed.

Lemma analyze_tickers_skip_empty (ticker : string)
    (events : list (string * string))
    (before_dict after_dict : list (string * list (string * string))) :
  rows (get_stock_data ticker) = [] ->
  Forall (fun ev => exists d, to_datetime (snd ev) = Ok d) events ->
  forall results,
    analyze_tickers results (before_dict ++ (ticker, events) :: after_dict)
    = analyze_tickers results (before_dict ++ after_dict).
Proof.
  intros Hr Hev.
  induction before_dict as [| [t es] before_dict IH]; intros results;
    cbn [app analyze_tickers].
  - rewrite (analyze_events_empty ticker events Hev _ results Hr). reflexivity.
  - destruct (snd (analyze_events t (get_stock_data t) results es));
      cbn [bind]; [apply IH | reflexivity].
Qed.

(** C3, in the form the code satisfies.  A series for which the provider
    returns a frame without rows, and whose event dates parse, contributes
    no record (its loop returns the results unchanged) and the batch gives
    the result it gives without that series. *)
Theorem empty_series_is_skipped (ticker : string)
    (events : list (string * string))
    (before_dict after_dict : list (string * list (string * string))) :
  rows (get_stock_data ticker) = [] ->
  Forall (fun ev => exists d, to_datetime (snd ev) = Ok d) events ->
  (forall results,
     snd (analyze_events ticker (get_stock_data ticker) results events)
     = Ok results) /\
  analyze_all_events (before_dict ++ (ticker, events) :: after_dict)
  = analyze_all_events (before_dict ++ after_dict).
Proof.
  intros Hr Hev. split.
  - intros results. apply analyze_events_empty; assumption.
  - unfold analyze_all_events.
    rewrite (analyze_tickers_skip_empty ticker events _ _ Hr Hev). reflexivity.
Qed.

(* ================================================================ *)
(** * Selection of the largest rows *)
(* ================================================================ *)

Lemma insert_by_perm {A : Type} (before : A -> A -> bool) (x : A) (l : list A) :
  Permutation (insert_by before x l) (x :: l).
Proof.
  induction l as [| y t IH]; cbn [insert_by]; [reflexivity |].
  destruct (before x y); [reflexivity |].
  rewrite IH. apply perm_swap.
Qed.

Lemma sort_by_perm {A : Type} (before : A -> A -> bool) (l : list A) :
  Permutation (sort_by before l) l.
Proof.
  induction l as [| x l IH]; cbn [sort_by fold_right]; [reflexivity |].
  fold (sort_by before l). rewrite insert_by_perm, IH. reflexivity.
Qed.

Lemma feqb_sym (x y : float) : feqb x y = true -> feqb y x = true.
Proof.
  rewrite !feqb_compare. intros H.
  rewrite SFcompare_antisym, H. reflexivity.
Qed.

Section Stable.

Context {A : Type} (key : A -> float).

Let ge (a b : nat * A) : bool := fgeb (key (snd a)) (key (snd b)).

Let usable (l : list (nat * A)) : Prop :=
  Forall (fun r => isna (key (snd r)) = false) l.

(** Inserting a row whose label is below every label of a ranked list
    keeps the list ranked: the row goes in front of the rows it ties
    with. *)
Lemma insert_by_ranked (x : nat * A) (l : list (nat * A)) :
  isna (key (snd x)) = false -> usable l ->
  (forall y, In y l -> (fst x < fst y)%nat) ->
  StronglySorted (ranks_before key) l ->
  StronglySorted (ranks_before key) (insert_by ge x l).
Proof.
  intros Hx Hfin Hidx Hs.
  induction Hs as [| y t Ht IH Hall]; cbn [insert_by];
    [constructor; constructor |].
  inversion Hfin as [| ? ? Hy Hfin']; subst.
  destruct (ge x y) eqn:E.
  - apply fgeb_true in E.
    constructor; [constructor; assumption |].
    assert (Hxy : ranks_before key x y).
    { destruct E as [Hlt | Heq]; [left; exact Hlt |].
      right. split; [exact Heq | apply Hidx; left; reflexivity]. }
    constructor; [exact Hxy |].
    rewrite Forall_forall in Hall |- *. intros z Hz.
    specialize (Hall z Hz).
    assert (Hxz : (fst x < fst z)%nat) by (apply Hidx; right; exact Hz).
    unfold ranks_before in *.
    destruct E as [Hlt | Heq]; destruct Hall as [H | [H _]].
    + left. exact (fltb_trans _ _ _ H Hlt).
    + left. exact (feqb_fltb _ _ _ (feqb_sym _ _ H) Hlt).
    + left. exact (fltb_feqb _ _ _ H (feqb_sym _ _ Heq)).
    + right. split; [exact (feqb_trans _ _ _ Heq H) | exact Hxz].
  - assert (Hlt : fltb (key (snd x)) (key (snd y)) = true)
      by (apply fgeb_false; assumption).
    constructor.
    + apply IH; [assumption |].
      intros z Hz. apply Hidx. right. exact Hz.
    + rewrite Forall_forall in Hall |- *. intros z Hz.
      apply (Permutation_in _ (insert_by_perm ge x t)) in Hz.
      destruct Hz as [<- | Hz]; [left; exact Hlt | apply Hall; exact Hz].
Qed.

(** The sort of rows with increasing labels is ranked. *)
Lemma sort_by_ranked (l : list (nat * A)) :
  usable l ->
  StronglySorted (fun a b => (fst a < fst b)%nat) l ->
  StronglySorted (ranks_before key) (sort_by ge l).
Proof.
  intros Hfin Hs.
  induction Hs as [| x l Hl IH Hall]; cbn [sort_by fold_right];
    [constructor |].
  fold (sort_by ge l).
  inversion Hfin as [| ? ? Hx Hfin']; subst.
  apply insert_by_ranked.
  - exact Hx.
  - unfold usable. rewrite Forall_forall in Hfin' |- *. intros y Hy.
    apply Hfin'. apply (Permutation_in _ (sort_by_perm ge l)). exact Hy.
  - intros y Hy. rewrite Forall_forall in Hall. apply Hall.
    apply (Permutation_in _ (sort_by_perm ge l)). exact Hy.
  - apply IH. exact Hfin'.
Qed.

(** On keys of which none is NaN, [nlargest] is the head of the sort. *)
Lemma nlargest_usable (n : nat) (rows : list (nat * A)) :
  usable rows ->
  nlargest n key rows = firstn n (sort_by ge rows).
Proof.
  intros Hfin. unfold nlargest.
  assert (Hkeep : filter (fun r => notna (key (snd r))) rows = rows).
  { induction Hfin as [| r l Hr _ IH]; [reflexivity |].
    cbn [filter]. unfold notna at 1. rewrite Hr. cbn [negb].
    rewrite IH. reflexivity. }
  assert (Hnone : filter (fun r => isna (key (snd r))) rows = []).
  { clear Hkeep. induction Hfin as [| r l Hr _ IH]; [reflexivity |].
    cbn [filter]. rewrite Hr. exact IH. }
  rewrite Hkeep, Hnone, app_nil_r. reflexivity.
Qed.

End Stable.

Lemma StronglySorted_app_inv {A : Type} (R : A -> A -> Prop) (l1 l2 : list A) :
  StronglySorted R (l1 ++ l2) ->
  StronglySorted R l1 /\ StronglySorted R l2 /\
  (forall a b, In a l1 -> In b l2 -> R a b).
Proof.
  induction l1 as [| x l1 IH]; cbn [app]; intros Hs.
  - repeat split; [constructor | exact Hs | intros a b []].
  - inversion Hs as [| ? ? Hs' Hall]; subst.
    destruct (IH Hs') as (H1 & H2 & H3).
    apply Forall_app in Hall as [Hall1 Hall2].
    repeat split.
    + constructor; assumption.
    + exact H2.
    + intros a b [<- | Ha] Hb.
      * rewrite Forall_forall in Hall2. apply Hall2. exact Hb.
      * apply H3; assumption.
Qed.

Lemma combine_seq_sorted {A : Type} (l : list A) :
  forall start,
    StronglySorted (fun a b : nat * A => (fst a < fst b)%nat)
      (combine (seq start (length l)) l) /\
    (forall r, In r (combine (seq start (length l)) l) -> (start <= fst r)%nat).
Proof.
  induction l as [| x l IH]; intros start; cbn [length seq combine].
  - split; [constructor | intros r []].
  - destruct (IH (S start)) as [Hs Hge]. split.
    + constructor; [exact Hs |].
      apply Forall_forall. intros r Hr. specialize (Hge r Hr). cbn. lia.
    + intros r [<- | Hr]; [cbn; lia |]. specialize (Hge r Hr). lia.
Qed.

Lemma nlargest_length {A : Type} (n : nat) (key : A -> float)
    (rows : list (nat * A)) :
  length (nlargest n key rows) = Nat.min n (length rows).
Proof.
  unfold nlargest. rewrite length_firstn, length_app.
  rewrite (Permutation_length (sort_by_perm _ _)).
  pose proof (filter_length (fun r : nat * A => isna (key (snd r))) rows) as H.
  unfold notna.
  rewrite (Nat.add_comm (length (filter _ rows))
             (length (filter (fun r => isna (key (snd r))) rows))).
  rewrite H. reflexivity.
Qed.

(* ================================================================ *)
(** * The summary *)
(* ================================================================ *)

Lemma In_combine_seq {A : Type} (l : list A) :
  forall start i x,
    In (i, x) (combine (seq start (length l)) l) ->
    (start <= i)%nat /\ nth_error l (i - start) = Some x.
Proof.
  induction l as [| y l IH]; intros start i x; cbn [length seq combine];
    [intros [] |].
  intros [[= <- <-] | Hin].
  - split; [lia |]. rewrite Nat.sub_diag. reflexivity.
  - destruct (IH _ _ _ Hin) as [Hle Hnth]. split; [lia |].
    replace (i - start)%nat with (S (i - S start)) by lia. exact Hnth.
Qed.

Lemma nth_error_combine_seq {A : Type} (l : list A) :
  forall start j x,
    nth_error l j = Some x ->
    In ((start + j)%nat, x) (combine (seq start (length l)) l).
Proof.
  induction l as [| y l IH]; intros start j x Hj; [destruct j; discriminate |].
  cbn [length seq combine]. destruct j as [| j]; cbn in Hj.
  - injection Hj as ->. left. rewrite Nat.add_0_r. reflexivity.
  - right. replace (start + S j)%nat with (S start + j)%nat by lia.
    apply IH. exact Hj.
Qed.

Lemma irows_length (df : ResultsFrame) : length (irows df) = length (data df).
Proof. unfold irows. rewrite length_combine, length_seq. lia. Qed.

Lemma getitem_in {A : Type} (df : ResultsFrame) (key : string)
    (field : VolRecord -> A) :
  In key (columns df) -> getitem df key field = Ok (map field (data df)).
Proof.
  intros Hin. unfold getitem.
  destruct (in_dec string_dec key (columns df)); [reflexivity | contradiction].
Qed.

Lemma getitem_missing {A : Type} (df : ResultsFrame) (key : string)
    (field : VolRecord -> A) :
  ~ In key (columns df) -> getitem df key field = Raise (KeyError key).
Proof.
  intros Hin. unfold getitem.
  destruct (in_dec string_dec key (columns df)); [contradiction | reflexivity].
Qed.

Lemma row_getitem_in {A : Type} (df : ResultsFrame) (key : string)
    (field : VolRecord -> A) (row : nat * VolRecord) :
  In key (columns df) -> row_getitem df key field row = Ok (field (snd row)).
Proof.
  intros Hin. unfold row_getitem.
  destruct (in_dec string_dec key (columns df)); [reflexivity | contradiction].
Qed.

Lemma row_getitem_missing {A : Type} (df : ResultsFrame) (key : string)
    (field : VolRecord -> A) (row : nat * VolRecord) :
  ~ In key (columns df) -> row_getitem df key field row = Raise (KeyError key).
Proof.
  intros Hin. unfold row_getitem.
  destruct (in_dec string_dec key (columns df)); [contradiction | reflexivity].
Qed.

Lemma pct_column_key : In pct_column record_keys.
Proof. unfold pct_column, record_keys. cbn. repeat (first [left; reflexivity | right]). Qed.

Lemma Ticker_key : In "Ticker"%string record_keys.
Proof. unfold record_keys. cbn. left. reflexivity. Qed.

Lemma Event_key : In "Event"%string record_keys.
Proof. unfold record_keys. cbn. right. left. reflexivity. Qed.

Lemma DataFrame_columns (records : list VolRecord) :
  records <> [] -> columns (DataFrame records) = record_keys.
Proof. destruct records; [congruence | reflexivity]. Qed.

Lemma print_top_rows_ok (df : ResultsFrame) (top : list (nat * VolRecord)) :
  In "Ticker"%string (columns df) -> In "Event"%string (columns df) ->
  In pct_column (columns df) ->
  for_each (print_top_row df) top = Ok (map top_line top).
Proof.
  intros Ht He Hp. induction top as [| row top IH]; [reflexivity |].
  cbn [for_each map]. unfold print_top_row at 1.
  rewrite (row_getitem_in df _ _ row Ht), (row_getitem_in df _ _ row He),
    (row_getitem_in df _ _ row Hp).
  cbn [bind]. rewrite IH. reflexivity.
Qed.

(** The loop over a top list that has a row stops at the first column the
    frame lacks. *)
Lemma print_top_rows_inv (df : ResultsFrame) (top : list (nat * VolRecord))
    (lines : list (string * string * float)) :
  top <> [] -> for_each (print_top_row df) top = Ok lines ->
  In "Ticker"%string (columns df) /\ In "Event"%string (columns df).
Proof.
  destruct top as [| row top]; [congruence |]. intros _.
  cbn [for_each]. unfold print_top_row, row_getitem.
  destruct (in_dec string_dec "Ticker"%string (columns df)) as [Ht | Ht];
    [| discriminate].
  destruct (in_dec string_dec "Event"%string (columns df)) as [He | He];
    [| discriminate].
  intros _. split; assumption.
Qed.

Lemma nlargest_nonempty {A : Type} (n : nat) (key : A -> float)
    (rows : list (nat * A)) :
  rows <> [] -> nlargest (S n) key rows <> [].
Proof.
  intros Hne Hnil. pose proof (nlargest_length (S n) key rows) as Hlen.
  rewrite Hnil in Hlen. destruct rows; [congruence | cbn in Hlen; lia].
Qed.

Lemma irows_nonempty (df : ResultsFrame) : data df <> [] -> irows df <> [].
Proof.
  intros Hne Hnil. pose proof (irows_length df) as Hlen. rewrite Hnil in Hlen.
  destruct (data df); [congruence | cbn in Hlen; lia].
Qed.

(** A summary that is printed, field by field. *)
Lemma print_summary_stats_inv (df : ResultsFrame) (s : Summary) :
  print_summary_stats df = Ok s ->
  In pct_column (columns df) /\ In "Ticker"%string (columns df) /\
  In "Event"%string (columns df) /\
  data df <> [] /\
  let col := map Volatility_Change_Pct (data df) in
  total_events s = Z.of_nat (length (data df)) /\
  average_change s = mean col /\
  median_change s = median col /\
  increased s = Z.of_nat (length (filter (fun v => fgtb v 0) col)) /\
  decreased s = Z.of_nat (length (filter (fun v => fltb v 0) col)) /\
  increased_pct s
    = fmul (fdiv (float_of_Z (increased s)) (float_of_Z (total_events s))) 100 /\
  decreased_pct s
    = fmul (fdiv (float_of_Z (decreased s)) (float_of_Z (total_events s))) 100 /\
  top_increases s = nlargest 3 Volatility_Change_Pct (irows df) /\
  top_lines s = map top_line (top_increases s) /\
  by_company s
    = map (fun ticker => (ticker, ticker_avg df ticker))
        (unique (map Ticker (data df))).
Proof.
  unfold print_summary_stats, count_where, top3.
  destruct (in_dec string_dec pct_column (columns df)) as [Hpct | Hpct];
    [| rewrite (getitem_missing df pct_column _ Hpct); discriminate].
  rewrite !(getitem_in df pct_column _ Hpct). cbn [bind].
  unfold py_int_truediv.
  destruct (Z.eqb_spec (Z.of_nat (length (data df))) 0) as [E | E];
    [discriminate |].
  cbn [bind].
  assert (Hne : data df <> []).
  { intros Hnil. rewrite Hnil in E. cbn in E. lia. }
  destruct (for_each (print_top_row df)
              (nlargest 3 Volatility_Change_Pct (irows df)))
    as [lines | e] eqn:Elines; cbn [bind]; [| discriminate].
  destruct (print_top_rows_inv df _ lines
              (nlargest_nonempty 2 _ _ (irows_nonempty df Hne)) Elines)
    as [Htk Hev].
  rewrite (print_top_rows_ok df _ Htk Hev Hpct) in Elines.
  injection Elines as <-.
  rewrite (getitem_in df _ _ Htk). cbn [bind].
  intros [= <-]. cbn.
  repeat split; assumption.
Qed.

(** On a frame with the three columns and at least one row the summary is
    printed. *)
Lemma print_summary_stats_columns (df : ResultsFrame) :
  In pct_column (columns df) -> In "Ticker"%string (columns df) ->
  In "Event"%string (columns df) -> data df <> [] ->
  exists s, print_summary_stats df = Ok s.
Proof.
  intros Hpct Htk Hev Hne.
  unfold print_summary_stats, count_where, top3.
  rewrite !(getitem_in df pct_column _ Hpct), (getitem_in df _ _ Htk).
  cbn [bind]. unfold py_int_truediv.
  destruct (Z.eqb_spec (Z.of_nat (length (data df))) 0) as [E | E].
  - destruct (data df); [congruence | cbn in E; lia].
  - cbn [bind]. rewrite (print_top_rows_ok df _ Htk Hev Hpct). cbn [bind].
    eexists. reflexivity.
Qed.

(** On a table with at least one record the summary is printed. *)
Lemma print_summary_stats_ok (records : list VolRecord) :
  records <> [] ->
  exists s,
    print_summary_stats (DataFrame records) = Ok s /\
    top_increases s
    = nlargest 3 Volatility_Change_Pct (irows (DataFrame records)).
Proof.
  intros Hne.
  destruct (print_summary_stats_columns (DataFrame records)) as [s Hs].
  - rewrite DataFrame_columns by assumption. apply pct_column_key.
  - rewrite DataFrame_columns by assumption. apply Ticker_key.
  - rewrite DataFrame_columns by assumption. apply Event_key.
  - exact Hne.
  - exists s. split; [exact Hs |].
    destruct (print_summary_stats_inv _ _ Hs)
      as (_ & _ & _ & _ & _ & _ & _ & _ & _ & _ & _ & Htop & _).
    exact Htop.
Qed.

(** C8.  On a table with at least one record and no NaN among its percent
    changes, the summary prints as its top list the result of
    [nlargest(3, ...)]: the [min(3, len)] rows of the table that rank
    first, in rank order, where a row ranks before another when its
    percent change is larger, or equal with a smaller index label (it was
    appended earlier).  So the list is in descending order of the percent
    change, tied rows keep their order of insertion, and a row left out
    ranks after every row of the list. *)
Theorem top3_stable (records : list VolRecord) :
  records <> [] ->
  Forall (fun r => isna (Volatility_Change_Pct r) = false) records ->
  let df := DataFrame records in
  exists (top : list (nat * VolRecord)) (s : Summary),
    top3 df = Ok top /\
    print_summary_stats df = Ok s /\ top_increases s = top /\
    length top = Nat.min 3 (length records) /\
    (forall row, In row top -> nth_error records (fst row) = Some (snd row)) /\
    StronglySorted (ranks_before Volatility_Change_Pct) top /\
    (forall a b, In a top -> In b (irows df) -> ~ In b top ->
                 ranks_before Volatility_Change_Pct a b).
Proof.
  intros Hne Hfin df.
  destruct (print_summary_stats_ok records Hne) as (s & Hs & Htop).
  exists (nlargest 3 Volatility_Change_Pct (irows df)), s.
  assert (Hrows : Forall (fun r : nat * VolRecord =>
                            isna (Volatility_Change_Pct (snd r)) = false)
                    (irows df)).
  { apply Forall_forall. intros [i r] Hin. cbn [snd].
    apply in_combine_r in Hin. rewrite Forall_forall in Hfin.
    apply Hfin. exact Hin. }
  destruct (combine_seq_sorted records 0) as [Hidx _].
  pose proof (sort_by_ranked Volatility_Change_Pct (irows df) Hrows Hidx) as Hsorted.
  pose proof (sort_by_perm
                (fun a b : nat * VolRecord =>
                   fgeb (Volatility_Change_Pct (snd a))
                     (Volatility_Change_Pct (snd b))) (irows df)) as Hperm.
  rewrite (nlargest_usable Volatility_Change_Pct 3 (irows df) Hrows) in *.
  set (sorted := sort_by _ (irows df)) in *.
  rewrite <- (firstn_skipn 3 sorted) in Hsorted.
  apply StronglySorted_app_inv in Hsorted as (Hs1 & _ & Hcut).
  repeat apply conj.
  - unfold top3.
    rewrite (getitem_in df pct_column).
    + cbn [bind]. fold df.
      rewrite (nlargest_usable Volatility_Change_Pct 3 (irows df) Hrows).
      reflexivity.
    + unfold df. rewrite DataFrame_columns by assumption. apply pct_column_key.
  - exact Hs.
  - rewrite Htop. fold df.
    rewrite (nlargest_usable Volatility_Change_Pct 3 (irows df) Hrows).
    reflexivity.
  - rewrite length_firstn. rewrite (Permutation_length Hperm).
    unfold irows, df. cbn [DataFrame data].
    rewrite length_combine, length_seq. lia.
  - intros [i r] Hin. cbn [fst snd].
    assert (Hin' : In (i, r) (irows df)).
    { apply (Permutation_in _ Hperm).
      rewrite <- (firstn_skipn 3 sorted). apply in_or_app. left. exact Hin. }
    unfold irows, df in Hin'. cbn [DataFrame data] in Hin'.
    destruct (In_combine_seq _ _ _ _ Hin') as [_ Hnth].
    rewrite Nat.sub_0_r in Hnth. exact Hnth.
  - exact Hs1.
  - intros a b Ha Hb Hnb. apply Hcut; [exact Ha |].
    apply (Permutation_in _ (Permutation_sym Hperm)) in Hb.
    rewrite <- (firstn_skipn 3 sorted) in Hb.
    apply in_app_or in Hb as [Hb | Hb]; [contradiction | exact Hb].
Qed.

(** C2 (the code at the failing input).  The table of a batch in which
    no event gave a record is [pd.DataFrame([])], a frame without columns,
    and [print_summary_stats] raises [KeyError] on it at its first column
    access.  On a frame that has the columns and no row it raises
    [ZeroDivisionError] at [increased/len(results_df)].  No frame without
    rows gets a summary. *)
Theorem summary_of_empty_table_raises :
  analyze_all_events [] = Ok (DataFrame []) /\
  print_summary_stats (DataFrame []) = Raise (KeyError pct_column) /\
  print_summary_stats {| columns := record_keys; data := [] |}
    = Raise ZeroDivisionError /\
  (forall cols, exists e,
      print_summary_stats {| columns := cols; data := [] |} = Raise e).
Proof.
  repeat apply conj.
  - reflexivity.
  - reflexivity.
  - unfold print_summary_stats, count_where, getitem. cbn [columns data].
    destruct (in_dec string_dec pct_column record_keys) as [_ | Hn];
      [reflexivity | exfalso; apply Hn, pct_column_key].
  - intros cols. unfold print_summary_stats, count_where, getitem.
    cbn [columns data].
    destruct (in_dec string_dec pct_column cols);
      cbn; eexists; reflexivity.
Qed.

(* ================================================================ *)
(** * Further properties of the summary *)
(* ================================================================ *)

(** X9.  [print_summary_stats] prints a summary exactly when the frame
    has the columns [Volatility_Change_Pct], [Ticker] and [Event] and at
    least one row; otherwise it raises.  On a frame with a row and the
    first two columns but no [Event] column the exception is
    [KeyError('Event')], raised by the line of the first top row. *)
Theorem summary_printed_iff (df : ResultsFrame) :
  ((exists s, print_summary_stats df = Ok s) <->
   In pct_column (columns df) /\ In "Ticker"%string (columns df) /\
   In "Event"%string (columns df) /\ data df <> []) /\
  (In pct_column (columns df) -> In "Ticker"%string (columns df) ->
   ~ In "Event"%string (columns df) -> data df <> [] ->
   print_summary_stats df = Raise (KeyError "Event"%string)).
Proof.
  split; [split |].
  - intros [s Hs].
    destruct (print_summary_stats_inv df s Hs) as (H1 & H2 & H3 & H4 & _).
    repeat split; assumption.
  - intros (Hpct & Htk & Hev & Hne).
    apply print_summary_stats_columns; assumption.
  - intros Hpct Htk Hev Hne.
    unfold print_summary_stats, count_where, top3.
    rewrite !(getitem_in df pct_column _ Hpct). cbn [bind].
    unfold py_int_truediv.
    destruct (Z.eqb_spec (Z.of_nat (length (data df))) 0) as [E | E].
    + destruct (data df); [congruence | cbn in E; lia].
    + cbn [bind].
      destruct (nlargest 3 Volatility_Change_Pct (irows df)) as [| row top] eqn:Etop.
      * exfalso. apply (nlargest_nonempty 2 Volatility_Change_Pct (irows df));
          [apply irows_nonempty; exact Hne | exact Etop].
      * cbn [for_each]. unfold print_top_row at 1.
        rewrite (row_getitem_in df _ _ row Htk).
        rewrite (row_getitem_missing df _ _ row Hev). reflexivity.
Qed.

Lemma gt_lt_disjoint (l : list float) :
  (length (filter (fun v => fgtb v 0) l)
   + length (filter (fun v => fltb v 0) l) <= length l)%nat.
Proof.
  induction l as [| v l IH]; [reflexivity |].
  cbn [filter length].
  pose proof (above_below_zero v) as H.
  destruct (fgtb v 0), (fltb v 0); cbn [length];
    try lia; exfalso; apply H; reflexivity.
Qed.

(** X10.  In a printed summary the total is the number of rows and is
    positive; the numbers of increased and decreased events are not
    negative and together at most the total (rows with a change of zero or
    NaN count for neither); the two shares are these numbers over the
    total, times 100; and the top list has [min(3, total)] rows. *)
Theorem summary_counts (df : ResultsFrame) (s : Summary) :
  print_summary_stats df = Ok s ->
  total_events s = Z.of_nat (length (data df)) /\
  (0 < total_events s)%Z /\
  (0 <= increased s)%Z /\ (0 <= decreased s)%Z /\
  (increased s + decreased s <= total_events s)%Z /\
  increased_pct s
    = fmul (fdiv (float_of_Z (increased s)) (float_of_Z (total_events s))) 100 /\
  decreased_pct s
    = fmul (fdiv (float_of_Z (decreased s)) (float_of_Z (total_events s))) 100 /\
  length (top_increases s) = Nat.min 3 (length (data df)).
Proof.
  intros Hs.
  destruct (print_summary_stats_inv df s Hs)
    as (_ & _ & _ & Hne & Htot & _ & _ & Hinc & Hdec & Hip & Hdp & Htop & _).
  pose proof (gt_lt_disjoint (map Volatility_Change_Pct (data df))) as Hdis.
  rewrite length_map in Hdis.
  repeat split; try assumption; try lia.
  - rewrite Htot. destruct (data df); [congruence | cbn; lia].
  - rewrite Htop, nlargest_length, irows_length. reflexivity.
Qed.

(** ** Distinct tickers *)

Lemma unique_In (l : list string) (x : string) : In x (unique l) <-> In x l.
Proof.
  induction l as [| y l IH]; [reflexivity |].
  cbn [unique In]. rewrite filter_In, IH.
  destruct (String.eqb_spec y x) as [-> | Hne]; cbn [negb].
  - split; intros _; left; reflexivity.
  - split.
    + intros [E | [H _]]; [left; exact E | right; exact H].
    + intros [E | H]; [left; exact E | right; split; [exact H | reflexivity]].
Qed.

Lemma unique_NoDup (l : list string) : NoDup (unique l).
Proof.
  induction l as [| y l IH]; cbn [unique]; constructor.
  - rewrite filter_In. intros [_ H]. rewrite String.eqb_refl in H. discriminate.
  - apply NoDup_filter. exact IH.
Qed.

(** X11.  The per-company lines of a printed summary name every ticker of
    the table exactly once, and the value of a line is the mean of the
    percent changes of the rows of that ticker. *)
Theorem by_company_distinct (df : ResultsFrame) (s : Summary) :
  print_summary_stats df = Ok s ->
  NoDup (map fst (by_company s)) /\
  (forall ticker,
     In ticker (map fst (by_company s)) <->
     exists r, In r (data df) /\ Ticker r = ticker) /\
  (forall ticker v,
     In (ticker, v) (by_company s) ->
     v = mean (map Volatility_Change_Pct
                 (filter (fun r => String.eqb (Ticker r) ticker) (data df)))).
Proof.
  intros Hs.
  destruct (print_summary_stats_inv df s Hs)
    as (_ & _ & _ & _ & _ & _ & _ & _ & _ & _ & _ & _ & _ & Hby).
  rewrite Hby, map_map. cbn [fst]. rewrite map_id.
  split; [apply unique_NoDup |]. split.
  - intros ticker. rewrite unique_In, in_map_iff. split.
    + intros (r & Hr & Hin). exists r. auto.
    + intros (r & Hin & Hr). exists r. auto.
  - intros ticker v Hin.
    apply in_map_iff in Hin as (t & [= <- <-] & _). reflexivity.
Qed.

(** X12.  On a table with at least one record and no NaN among its
    percent changes, the first row of the top list is a row of the table
    with the largest percent change of the whole table. *)
Theorem top_row_is_maximum (records : list VolRecord) :
  records <> [] ->
  Forall (fun r => isna (Volatility_Change_Pct r) = false) records ->
  exists (s : Summary) (i : nat) (r : VolRecord) (rest : list (nat * VolRecord)),
    print_summary_stats (DataFrame records) = Ok s /\
    top_increases s = (i, r) :: rest /\
    nth_error records i = Some r /\
    forall r', In r' records ->
      fleb (Volatility_Change_Pct r') (Volatility_Change_Pct r) = true.
Proof.
  intros Hne Hfin.
  destruct (print_summary_stats_ok records Hne) as (s & Hs & Htop).
  set (df := DataFrame records) in *.
  assert (Hrows : Forall (fun r : nat * VolRecord =>
                            isna (Volatility_Change_Pct (snd r)) = false)
                    (irows df)).
  { apply Forall_forall. intros [i r] Hin. cbn [snd].
    apply in_combine_r in Hin. rewrite Forall_forall in Hfin.
    apply Hfin. exact Hin. }
  destruct (combine_seq_sorted records 0) as [Hidx _].
  pose proof (sort_by_ranked Volatility_Change_Pct (irows df) Hrows Hidx) as Hsorted.
  pose proof (sort_by_perm
                (fun a b : nat * VolRecord =>
                   fgeb (Volatility_Change_Pct (snd a))
                     (Volatility_Change_Pct (snd b))) (irows df)) as Hperm.
  rewrite (nlargest_usable Volatility_Change_Pct 3 (irows df) Hrows) in Htop.
  destruct (sort_by _ (irows df)) as [| [i r] sorted] eqn:Esort.
  { apply Permutation_length in Hperm. unfold irows, df in Hperm.
    cbn [DataFrame data] in Hperm.
    rewrite length_combine, length_seq in Hperm.
    destruct records; [congruence | cbn in Hperm; lia]. }
  exists s, i, r, (firstn 2 sorted).
  split; [exact Hs |]. split; [exact Htop |].
  assert (Hin : In (i, r) (irows df))
    by (apply (Permutation_in _ Hperm); left; reflexivity).
  split.
  { unfold irows, df in Hin. cbn [DataFrame data] in Hin.
    destruct (In_combine_seq _ _ _ _ Hin) as [_ Hnth].
    rewrite Nat.sub_0_r in Hnth. exact Hnth. }
  intros r' Hr'.
  assert (Hr : isna (Volatility_Change_Pct r) = false).
  { rewrite Forall_forall in Hrows. apply (Hrows (i, r) Hin). }
  destruct (In_nth_error _ _ Hr') as [j Hj].
  assert (Hjr : In (j, r') (irows df)).
  { unfold irows, df. cbn [DataFrame data].
    apply (nth_error_combine_seq records 0 j r' Hj). }
  apply (Permutation_in _ (Permutation_sym Hperm)) in Hjr.
  inversion Hsorted as [| ? ? _ Hall]; subst.
  destruct Hjr as [[= -> ->] | Hjr].
  - apply feqb_fleb, feqb_refl. exact Hr.
  - rewrite Forall_forall in Hall. specialize (Hall _ Hjr).
    unfold ranks_before in Hall. cbn [snd] in Hall.
    destruct Hall as [H | [H _]]; [apply fltb_fleb | apply feqb_fleb]; exact H.
Qed.

(* ================================================================ *)
(** * Further properties of the event evaluation *)
(* ================================================================ *)

(** X1.  On an ascending date index the anchor does not move backwards
    when the event date moves forwards. *)
Theorem anchor_monotone (stock_data : StockData) (d1 d2 : Z) :
  Sorted Z.le (index stock_data) ->
  (d1 <= d2)%Z ->
  (event_idx stock_data d1 <= event_idx stock_data d2)%Z.
Proof.
  intros Hs Hd. unfold event_idx.
  pose proof (searchsorted_range (index stock_data) d1) as Hr1.
  pose proof (searchsorted_range (index stock_data) d2) as Hr2.
  pose proof (searchsorted_spec (index stock_data) d1 Hs) as H1.
  pose proof (searchsorted_spec (index stock_data) d2 Hs) as H2.
  cbv zeta in H1, H2.
  destruct H1 as (Hl1 & Hlt1 & _), H2 as (Hl2 & _ & Hge2).
  destruct (Z_le_gt_dec (searchsorted (index stock_data) d1)
              (searchsorted (index stock_data) d2)) as [| Hgt]; [assumption |].
  exfalso.
  specialize (Hlt1 (Z.to_nat (searchsorted (index stock_data) d2)) ltac:(lia)).
  specialize (Hge2 (Z.to_nat (searchsorted (index stock_data) d2)) ltac:(lia)).
  lia.
Qed.

Lemma count_firstn_pct_change (pad : bool) (close : list float) (n : nat) :
  (count (firstn n (pct_change pad close)) <= n - 1)%nat.
Proof.
  destruct n as [| n]; [reflexivity |].
  destruct (pct_change_head pad close) as [-> | [t ->]]; [cbn; lia |].
  cbn [firstn]. unfold count, dropna. cbn [filter].
  change (notna nan) with false. cbv iota.
  fold (dropna (firstn n t)). fold (count (firstn n t)).
  pose proof (count_le_length (firstn n t)) as Hc.
  rewrite length_firstn in Hc. lia.
Qed.

(** The before-window of an anchor among the first three rows, and the
    after-window of an anchor at the last row or behind it, hold at most
    one usable return. *)
Lemma edge_windows (stock_data : StockData) (p : Z) :
  (0 <= p <= len stock_data)%Z ->
  ((p <= 2)%Z -> (count (before_window stock_data p default_window) <= 1)%nat) /\
  ((len stock_data - 1 <= p)%Z ->
   (count (after_window stock_data p default_window) <= 1)%nat).
Proof.
  intros Hp. split; intros Hedge.
  - rewrite before_window_exact;
      [| exact Hp | unfold default_window; lia
       | unfold default_window, int64_max; lia].
    unfold default_window.
    replace (Z.max 0 (p - 5 - 1)) with 0%Z by lia.
    cbn [Z.to_nat skipn].
    pose proof (count_firstn_pct_change fill_method_pad (Close stock_data)
                  (Z.to_nat (p - 0))) as Hc.
    unfold returns_of. lia.
  - pose proof (count_le_length (after_window stock_data p default_window)) as Hc.
    pose proof (iloc_length (returns_of stock_data) (after_start p)
                  (after_end stock_data p default_window)) as Hl.
    unfold slice_range in Hl. fold (after_window stock_data p default_window) in Hl.
    rewrite returns_length in Hl.
    pose proof (slice_bound_range (len stock_data)
                  (after_end stock_data p default_window) ltac:(lia)) as Hhi.
    rewrite (slice_bound_id (len stock_data) (after_start p)) in Hl
      by (unfold after_start; lia).
    unfold after_start in Hl. lia.
Qed.

(** X2.  An event whose date parses and whose anchor is one of the first
    three rows of the frame, or the last row, or behind the last row, is
    skipped: the turn of the loop returns the results it got. *)
Theorem edge_events_skipped (ticker : string) (stock_data : StockData)
    (results : list VolRecord) (event_name event_date : string) (d : Z) :
  to_datetime event_date = Ok d ->
  (event_idx stock_data d <= 2)%Z \/
  (len stock_data - 1 <= event_idx stock_data d)%Z ->
  analyze_event ticker stock_data results (event_name, event_date)
  = (with_returns stock_data, Ok results).
Proof.
  intros Hd Hedge. apply (analyze_event_skip _ _ _ _ _ d Hd).
  destruct (edge_windows stock_data (event_idx stock_data d)
              (event_idx_range stock_data d)) as [Hb Ha].
  intros [[Hcb _] [Hca _]].
  destruct Hedge as [H | H]; [specialize (Hb H) | specialize (Ha H)]; lia.
Qed.

(** ** Flat prices *)

(** Sums, means and deviations of values that are all zero or NaN are
    zero or NaN. *)
Lemma zero_or_nan_sum_from (a : list float) :
  Forall zero_or_nan a ->
  forall res, zero_or_nan res -> zero_or_nan (sum_from res a).
Proof.
  unfold sum_from. induction 1 as [| x a Hx _ IH]; intros res Hres;
    cbn [fold_left]; [exact Hres |].
  apply IH, zero_or_nan_add; assumption.
Qed.

Lemma Forall_firstn {A : Type} (P : A -> Prop) (n : nat) (l : list A) :
  Forall P l -> Forall P (firstn n l).
Proof.
  intros H. rewrite <- (firstn_skipn n l) in H.
  apply Forall_app in H. apply H.
Qed.

Lemma Forall_skipn {A : Type} (P : A -> Prop) (n : nat) (l : list A) :
  Forall P l -> Forall P (skipn n l).
Proof.
  intros H. rewrite <- (firstn_skipn n l) in H.
  apply Forall_app in H. apply H.
Qed.

Lemma Forall_iloc {A : Type} (P : A -> Prop) (s : list A) (start stop : Z) :
  Forall P s -> Forall P (iloc s start stop).
Proof.
  intros H. unfold iloc, slice_range. apply Forall_firstn, Forall_skipn, H.
Qed.

Lemma zero_or_nan_zip_fadd (l1 : list float) :
  Forall zero_or_nan l1 ->
  forall l2, Forall zero_or_nan l2 -> Forall zero_or_nan (zip_with fadd l1 l2).
Proof.
  induction 1 as [| x l1 Hx _ IH]; intros l2 H2; cbn [zip_with];
    [constructor |].
  destruct H2 as [| y l2 Hy H2]; constructor;
    [apply zero_or_nan_add; assumption | apply IH; exact H2].
Qed.

Lemma zero_or_nan_lanes (fuel : nat) :
  forall r rest,
    Forall zero_or_nan r -> Forall zero_or_nan rest ->
    Forall zero_or_nan (fst (lanes fuel r rest)) /\
    Forall zero_or_nan (snd (lanes fuel r rest)).
Proof.
  induction fuel as [| fuel IH]; intros r rest Hr Hrest; cbn [lanes];
    [split; assumption |].
  destruct (8 <=? length rest)%nat; [| split; assumption].
  apply IH.
  - apply zero_or_nan_zip_fadd; [exact Hr | apply Forall_firstn, Hrest].
  - apply Forall_skipn, Hrest.
Qed.

Lemma zero_or_nan_block_sum (a : list float) :
  Forall zero_or_nan a -> zero_or_nan (block_sum a).
Proof.
  intros H. unfold block_sum.
  destruct (zero_or_nan_lanes (length a) (firstn 8 a) (skipn 8 a)
              (Forall_firstn _ _ _ H) (Forall_skipn _ _ _ H)) as [Hr Hrest].
  destruct (lanes (length a) (firstn 8 a) (skipn 8 a)) as [r rest].
  cbn [fst snd] in Hr, Hrest.
  do 8 (destruct r as [| ? r]; [apply zero_or_nan_nan |]).
  destruct r; [| apply zero_or_nan_nan].
  repeat match goal with
         | H : Forall _ (_ :: _) |- _ => inversion H; subst; clear H
         end.
  apply zero_or_nan_sum_from; [exact Hrest |].
  repeat apply zero_or_nan_add; assumption.
Qed.

Lemma zero_or_nan_pairwise_sum (fuel : nat) :
  forall a, Forall zero_or_nan a -> zero_or_nan (pairwise_sum fuel a).
Proof.
  induction fuel as [| fuel IH]; intros a H; cbn [pairwise_sum];
    (destruct (length a <? 8)%nat;
     [apply zero_or_nan_sum_from; [exact H | apply zero_or_nan_neg_zero] |]);
    (destruct (length a <=? 128)%nat; [apply zero_or_nan_block_sum, H |]).
  - apply zero_or_nan_nan.
  - apply zero_or_nan_add; apply IH;
      [apply Forall_firstn | apply Forall_skipn]; exact H.
Qed.

Lemma zero_or_nan_np_sum (a : list float) :
  Forall zero_or_nan a -> zero_or_nan (np_sum a).
Proof.
  intros H. unfold np_sum.
  apply zero_or_nan_add; [apply zero_or_nan_neg_zero |].
  apply zero_or_nan_pairwise_sum, H.
Qed.

Lemma zero_or_nan_putmask0 (values : list float) :
  Forall zero_or_nan values ->
  forall mask, Forall zero_or_nan (putmask0 mask values).
Proof.
  unfold putmask0. induction 1 as [| v values Hv _ IH]; intros [| m mask];
    cbn [zip_with]; try constructor.
  - destruct m; [apply zero_or_nan_zero | exact Hv].
  - apply IH.
Qed.

(** The standard deviation of such values is not above zero. *)
Lemma zero_or_nan_std (values : list float) :
  Forall zero_or_nan values -> zero_or_nan (std values).
Proof.
  intros H. unfold std. apply zero_or_nan_sqrt. unfold nanvar.
  destruct (count values <=? 1)%nat; [apply zero_or_nan_nan |].
  apply zero_or_nan_div, zero_or_nan_np_sum, zero_or_nan_putmask0.
  pose proof (zero_or_nan_putmask0 values H (map isna values)) as Hm.
  set (avg := fdiv _ _).
  assert (Havg : zero_or_nan avg)
    by (apply zero_or_nan_div, zero_or_nan_np_sum, Hm).
  clearbody avg.
  induction Hm as [| v l Hv _ IH]; cbn [map]; constructor; [| exact IH].
  apply zero_or_nan_mul; apply zero_or_nan_sub; assumption.
Qed.

Lemma constant_window_not_positive (values : list float) :
  Forall zero_or_nan values -> ~ defined_positive values.
Proof.
  intros H [_ Hpos].
  rewrite (zero_or_nan_not_positive _ (zero_or_nan_std values H)) in Hpos.
  discriminate Hpos.
Qed.

(** Padding leaves a series of equal values as it is. *)
Lemma ffill_from_constant (c : float) (close : list float) :
  Forall (fun x => x = c) close ->
  forall last, (isna c = true -> last = c) -> ffill_from last close = close.
Proof.
  induction 1 as [| x t -> _ IH]; intros last Hlast; cbn [ffill_from];
    [reflexivity |].
  destruct (isna c) eqn:E.
  - rewrite (Hlast eq_refl). f_equal. apply IH. intros _. reflexivity.
  - f_equal. apply IH. intros H. discriminate H.
Qed.

Lemma zip_constant (c : float) (close : list float) :
  Forall (fun x => x = c) close ->
  forall prev,
    prev = nan \/ prev = c ->
    Forall zero_or_nan
      (zip_with (fun a b => fsub (fdiv a b) 1) close
         (firstn (length close) (prev :: close))).
Proof.
  induction 1 as [| x t -> _ IH]; intros prev Hprev; [constructor |].
  cbn [length firstn zip_with]. constructor.
  - destruct Hprev as [-> | ->].
    + rewrite fdiv_nan_r. exact I.
    + destruct (fdiv_self c) as [-> | ->]; exact I.
  - apply IH. right. reflexivity.
Qed.

(** The returns of a flat series are zero or NaN. *)
Lemma pct_change_constant (pad : bool) (c : float) (close : list float) :
  Forall (fun x => x = c) close ->
  Forall zero_or_nan (pct_change pad close).
Proof.
  intros Hall. unfold pct_change, shift1.
  assert (E : (if pad then ffill close else close) = close).
  { destruct pad; [| reflexivity].
    apply (ffill_from_constant c close Hall).
    intros H. apply isna_true in H. symmetry. exact H. }
  rewrite E. apply (zip_constant c); [exact Hall | left; reflexivity].
Qed.

(** X3.  On a price series whose closes are all the same number, every
    event whose date parses is skipped. *)
Theorem flat_prices_skipped (ticker : string) (stock_data : StockData)
    (results : list VolRecord) (event_name event_date : string) (d : Z)
    (c : float) :
  to_datetime event_date = Ok d ->
  Forall (fun x => x = c) (Close stock_data) ->
  analyze_event ticker stock_data results (event_name, event_date)
  = (with_returns stock_data, Ok results).
Proof.
  intros Hd Hflat. apply (analyze_event_skip _ _ _ _ _ d Hd).
  intros [Hb _]. revert Hb.
  apply constant_window_not_positive.
  unfold before_window.
  apply Forall_iloc. unfold returns_of.
  apply (pct_change_constant _ c), Hflat.
Qed.

(* ================================================================ *)
(** * Further properties of the batch *)
(* ================================================================ *)

(** One turn of the loop appends to the results it is given what it
    appends to the empty list, and leaves the same frame. *)
Lemma analyze_event_prefix (ticker : string) (stock_data : StockData)
    (results : list VolRecord) (ev : string * string) :
  analyze_event ticker stock_data results ev
  = (fst (analyze_event ticker stock_data [] ev),
     new <- snd (analyze_event ticker stock_data [] ev) ;; Ok (results ++ new)).
Proof.
  unfold analyze_event. destruct ev as [event_name event_date].
  destruct (calculate_event_volatility stock_data event_date default_window)
    as [stock_data' [[before_vol after_vol] | e]]; cbn [fst snd bind];
    [| reflexivity].
  destruct (fgtb (vol_value before_vol) 0 && fgtb (vol_value after_vol) 0).
  - destruct (py_truediv _ _); cbn [bind]; reflexivity.
  - cbn [bind]. rewrite app_nil_r. reflexivity.
Qed.

Lemma analyze_events_prefix (ticker : string) (events : list (string * string)) :
  forall stock_data results,
    analyze_events ticker stock_data results events
    = (fst (analyze_events ticker stock_data [] events),
       new <- snd (analyze_events ticker stock_data [] events) ;;
       Ok (results ++ new)).
Proof.
  induction events as [| ev events IH]; intros stock_data results;
    cbn [analyze_events].
  - cbn. rewrite app_nil_r. reflexivity.
  - rewrite (analyze_event_prefix ticker stock_data results ev).
    destruct (analyze_event ticker stock_data [] ev) as [stock_data' [new1 | e]];
      cbn [fst snd bind]; [| reflexivity].
    rewrite (IH stock_data' (results ++ new1)), (IH stock_data' new1).
    cbn [fst snd].
    destruct (snd (analyze_events ticker stock_data' [] events)) as [new | e];
      cbn [bind]; [rewrite app_assoc |]; reflexivity.
Qed.

Lemma analyze_tickers_prefix
    (events_dict : list (string * list (string * string))) :
  forall results,
    analyze_tickers results events_dict
    = (new <- analyze_tickers [] events_dict ;; Ok (results ++ new)).
Proof.
  induction events_dict as [| [ticker events] rest IH]; intros results;
    cbn [analyze_tickers].
  - cbn. rewrite app_nil_r. reflexivity.
  - rewrite (analyze_events_prefix ticker events (get_stock_data ticker) results).
    cbn [snd].
    destruct (snd (analyze_events ticker (get_stock_data ticker) [] events))
      as [new1 | e]; cbn [bind app]; [| reflexivity].
    rewrite (IH (results ++ new1)), (IH new1).
    destruct (analyze_tickers [] rest) as [new | e]; cbn [bind];
      [rewrite app_assoc |]; reflexivity.
Qed.

Lemma analyze_tickers_app
    (dict1 dict2 : list (string * list (string * string))) :
  forall results,
    analyze_tickers results (dict1 ++ dict2)
    = (results1 <- analyze_tickers results dict1 ;;
       analyze_tickers results1 dict2).
Proof.
  induction dict1 as [| [ticker events] dict1 IH]; intros results;
    cbn [app analyze_tickers]; [reflexivity |].
  destruct (snd (analyze_events ticker (get_stock_data ticker) results events));
    cbn [bind]; [apply IH | reflexivity].
Qed.

(** X7.  The batch over two event tables put one after the other gives the
    records of the first followed by the records of the second, and raises
    what the first of the two raises: no series sees the results of
    another. *)
Theorem batch_composes
    (dict1 dict2 : list (string * list (string * string))) :
  analyze_all_events (dict1 ++ dict2)
  = (tbl1 <- analyze_all_events dict1 ;;
     tbl2 <- analyze_all_events dict2 ;;
     Ok (DataFrame (data tbl1 ++ data tbl2))).
Proof.
  unfold analyze_all_events. rewrite analyze_tickers_app.
  destruct (analyze_tickers [] dict1) as [results1 | e]; cbn [bind];
    [| reflexivity].
  rewrite (analyze_tickers_prefix dict2 results1).
  destruct (analyze_tickers [] dict2) as [results2 | e]; cbn [bind];
    reflexivity.
Qed.

(** ** The records and the events *)

Lemma subseq_refl {A : Type} (l : list A) : subseq l l.
Proof.
  induction l; [apply subseq_nil | apply subseq_take; assumption].
Qed.

Lemma subseq_nil_l {A : Type} (l : list A) : subseq [] l.
Proof.
  induction l; [apply subseq_nil | apply subseq_skip; assumption].
Qed.

Lemma subseq_app {A : Type} (l1 l2 l3 l4 : list A) :
  subseq l1 l2 -> subseq l3 l4 -> subseq (l1 ++ l3) (l2 ++ l4).
Proof.
  induction 1 as [| x l1 l2 _ IH | x l1 l2 _ IH]; intros H34; cbn [app].
  - exact H34.
  - apply subseq_skip, IH, H34.
  - apply subseq_take, IH, H34.
Qed.

Lemma subseq_length {A : Type} (l1 l2 : list A) :
  subseq l1 l2 -> (length l1 <= length l2)%nat.
Proof. induction 1; cbn; lia. Qed.

Lemma subseq_In {A : Type} (l1 l2 : list A) (x : A) :
  subseq l1 l2 -> In x l1 -> In x l2.
Proof.
  induction 1; intros Hin; cbn in *; [contradiction | right; auto |].
  destruct Hin as [-> | Hin]; [left; reflexivity | right; auto].
Qed.

Lemma analyze_events_subseq (ticker : string) (events : list (string * string)) :
  forall stock_data results results',
    snd (analyze_events ticker stock_data results events) = Ok results' ->
    exists new,
      results' = results ++ new /\
      subseq (map record_event new)
        (map (fun ev => (ticker, fst ev, snd ev)) events).
Proof.
  induction events as [| ev events IH]; intros stock_data results results';
    cbn [analyze_events map].
  - intros [= <-]. exists []. rewrite app_nil_r. split; constructor.
  - destruct (analyze_event_cases ticker stock_data results ev)
      as [(e & _ & E) | [(d & _ & E) | (d & b & a & _ & _ & _ & E)]];
      rewrite E; [discriminate | |]; intros H;
      destruct (IH _ _ _ H) as (new & -> & Hsub).
    + exists new. split; [reflexivity | constructor; exact Hsub].
    + exists (emitted ticker (fst ev) (snd ev) b a :: new).
      rewrite <- app_assoc. split; [reflexivity |].
      cbn [map]. apply subseq_take. exact Hsub.
Qed.

Lemma analyze_tickers_subseq
    (events_dict : list (string * list (string * string))) :
  forall results results',
    analyze_tickers results events_dict = Ok results' ->
    exists new,
      results' = results ++ new /\
      subseq (map record_event new) (all_events events_dict).
Proof.
  induction events_dict as [| [ticker events] rest IH]; intros results results';
    cbn [analyze_tickers].
  - intros [= <-]. exists []. rewrite app_nil_r. split; constructor.
  - destruct (snd (analyze_events ticker (get_stock_data ticker) results events))
      as [mid | e] eqn:E; cbn [bind]; [| discriminate].
    intros H.
    destruct (analyze_events_subseq _ _ _ _ _ E) as (new1 & -> & Hsub1).
    destruct (IH _ _ H) as (new2 & -> & Hsub2).
    exists (new1 ++ new2). rewrite app_assoc. split; [reflexivity |].
    rewrite map_app. unfold all_events. cbn [flat_map fst snd].
    apply subseq_app; assumption.
Qed.

(** X6.  The records of a returned table follow the events of the event
    table: read as (ticker, event, date) they are the events in the order
    the batch visits them, with the skipped ones left out.  So the table
    has at most one record per event and every record names an event of the
    table. *)
Theorem records_follow_events
    (events_dict : list (string * list (string * string))) (tbl : ResultsFrame) :
  analyze_all_events events_dict = Ok tbl ->
  subseq (map record_event (data tbl)) (all_events events_dict) /\
  (length (data tbl) <= length (all_events events_dict))%nat /\
  (forall r, In r (data tbl) ->
     exists events, In (Ticker r, events) events_dict /\
                    In (Event r, Date r) events).
Proof.
  unfold analyze_all_events.
  destruct (analyze_tickers [] events_dict) as [results | e] eqn:E;
    cbn [bind]; [| discriminate].
  intros [= <-]. cbn [DataFrame data].
  destruct (analyze_tickers_subseq _ _ _ E) as (new & -> & Hsub).
  cbn [app]. split; [exact Hsub |]. split.
  - apply subseq_length in Hsub. rewrite length_map in Hsub. exact Hsub.
  - intros r Hr.
    assert (Hin : In (record_event r) (all_events events_dict))
      by (apply (subseq_In _ _ _ Hsub), in_map; exact Hr).
    unfold all_events in Hin. apply in_flat_map in Hin as ([t es] & Hte & Hev).
    apply in_map_iff in Hev as ([n dt] & Heq & Hev).
    cbn [fst snd] in Heq. unfold record_event in Heq. injection Heq as <- <- <-.
    exists es. split; assumption.
Qed.

(** ** Exceptions of the batch *)

Lemma analyze_events_raise (ticker : string) (events : list (string * string)) :
  forall stock_data results,
    match snd (analyze_events ticker stock_data results events) with
    | Ok _ => Forall (fun ev => exists d, to_datetime (snd ev) = Ok d) events
    | Raise e => exists ev, In ev events /\ to_datetime (snd ev) = Raise e
    end.
Proof.
  induction events as [| ev events IH]; intros stock_data results;
    cbn [analyze_events]; [constructor |].
  destruct (analyze_event_cases ticker stock_data results ev)
    as [(e & He & E) | [(d & Hd & E) | (d & b & a & Hd & _ & _ & E)]];
    rewrite E.
  - cbn [snd]. exists ev. split; [left; reflexivity | exact He].
  - specialize (IH (with_returns stock_data) results).
    destruct (snd (analyze_events ticker (with_returns stock_data) results events)).
    + constructor; [exists d; exact Hd | exact IH].
    + destruct IH as (ev' & Hin & He). exists ev'. split; [right |]; assumption.
  - specialize (IH (with_returns stock_data)
                  (results ++ [emitted ticker (fst ev) (snd ev) b a])).
    destruct (snd (analyze_events ticker (with_returns stock_data)
                     (results ++ [emitted ticker (fst ev) (snd ev) b a]) events)).
    + constructor; [exists d; exact Hd | exact IH].
    + destruct IH as (ev' & Hin & He). exists ev'. split; [right |]; assumption.
Qed.

Lemma analyze_tickers_raise
    (events_dict : list (string * list (string * string))) :
  forall results,
    match analyze_tickers results events_dict with
    | Ok _ => dates_parse events_dict
    | Raise e =>
        exists ticker events ev,
          In (ticker, events) events_dict /\ In ev events /\
          to_datetime (snd ev) = Raise e
    end.
Proof.
  induction events_dict as [| [ticker events] rest IH]; intros results;
    cbn [analyze_tickers]; [constructor |].
  pose proof (analyze_events_raise ticker events (get_stock_data ticker) results)
    as Hev.
  destruct (snd (analyze_events ticker (get_stock_data ticker) results events))
    as [mid | e]; cbn [bind].
  - specialize (IH mid). destruct (analyze_tickers mid rest).
    + constructor; [exact Hev | exact IH].
    + destruct IH as (t & es & ev & Hin & Hev' & He).
      exists t, es, ev. split; [right |]; auto.
  - destruct Hev as (ev & Hin & He).
    exists ticker, events, ev. split; [left; reflexivity |]. split; assumption.
Qed.

(** X8.  The batch returns a table exactly when every event date of the
    event table parses; when it raises, the exception is the one
    [pd.to_datetime] raised on an event date of the table. *)
Theorem batch_returns_iff_dates_parse
    (events_dict : list (string * list (string * string))) :
  ((exists tbl, analyze_all_events events_dict = Ok tbl) <->
   dates_parse events_dict) /\
  (forall e, analyze_all_events events_dict = Raise e ->
     exists ticker events event_name event_date,
       In (ticker, events) events_dict /\
       In (event_name, event_date) events /\
       to_datetime event_date = Raise e).
Proof.
  pose proof (analyze_tickers_raise events_dict []) as H.
  unfold analyze_all_events. split; [split |].
  - intros [tbl Htbl].
    destruct (analyze_tickers [] events_dict); [exact H | discriminate].
  - intros Hp. destruct (analyze_tickers_total events_dict Hp []) as [r ->].
    eexists. reflexivity.
  - intros e He.
    destruct (analyze_tickers [] events_dict) as [r | e']; cbn [bind] in He;
      [discriminate |].
    injection He as <-.
    destruct H as (t & es & [n dt] & Hin & Hev & Hraise).
    exists t, es, n, dt. repeat split; assumption.
Qed.

(* ================================================================ *)
(** * The charts and the run *)
(* ================================================================ *)

Lemma getitem_DataFrame {A : Type} (records : list VolRecord) (key : string)
    (field : VolRecord -> A) :
  records <> [] -> In key record_keys ->
  getitem (DataFrame records) key field = Ok (map field records).
Proof.
  intros Hne Hkey. apply getitem_in.
  rewrite DataFrame_columns by assumption. exact Hkey.
Qed.

Lemma for_each_ok {A B : Type} (body : A -> result B) (f : A -> B) (l : list A) :
  (forall x, In x l -> body x = Ok (f x)) ->
  for_each body l = Ok (map f l).
Proof.
  induction l as [| x l IH]; intros H; cbn [for_each map]; [reflexivity |].
  rewrite (H x (or_introl eq_refl)). cbn [bind].
  rewrite IH by (intros y Hy; apply H; right; exact Hy). reflexivity.
Qed.

Lemma combine_map_same {A B C : Type} (f : A -> B) (g : A -> C) (l : list A) :
  combine (map f l) (map g l) = map (fun x => (f x, g x)) l.
Proof.
  induction l as [| x l IH]; cbn; [reflexivity | rewrite IH; reflexivity].
Qed.

Lemma rows_of_absent (r : VolRecord) (records : list VolRecord)
    (tickers : list string) :
  ~ In (Ticker r) tickers ->
  flat_map (rows_of (r :: records)) tickers = flat_map (rows_of records) tickers.
Proof.
  induction tickers as [| t tickers IH]; intros Hnot; [reflexivity |].
  cbn [flat_map]. rewrite IH by (intros H; apply Hnot; right; exact H).
  unfold rows_of at 1. cbn [filter].
  destruct (String.eqb_spec (Ticker r) t) as [E | _]; [| reflexivity].
  exfalso. apply Hnot. left. symmetry. exact E.
Qed.

Lemma rows_of_present (r : VolRecord) (records : list VolRecord)
    (tickers : list string) :
  NoDup tickers -> In (Ticker r) tickers ->
  Permutation (flat_map (rows_of (r :: records)) tickers)
    (r :: flat_map (rows_of records) tickers).
Proof.
  induction 1 as [| t tickers Hnot _ IH]; intros Hin; [contradiction |].
  cbn [flat_map]. unfold rows_of at 1. cbn [filter].
  destruct (String.eqb_spec (Ticker r) t) as [E | Hne].
  - subst t. rewrite (rows_of_absent r records tickers Hnot). reflexivity.
  - destruct Hin as [E | Hin]; [congruence |].
    fold (rows_of records t). rewrite (IH Hin).
    symmetry. apply Permutation_middle.
Qed.

(** Grouping by distinct tickers that cover the table loses no row and
    repeats none. *)
Lemma rows_of_partition (records : list VolRecord) (tickers : list string) :
  NoDup tickers ->
  (forall r, In r records -> In (Ticker r) tickers) ->
  Permutation (flat_map (rows_of records) tickers) records.
Proof.
  intros Hnd. induction records as [| r records IH]; intros Hcover.
  - clear. induction tickers as [| t tickers IH]; [reflexivity | exact IH].
  - rewrite rows_of_present; [| exact Hnd | apply Hcover; left; reflexivity].
    apply perm_skip, IH. intros r' Hr'. apply Hcover. right. exact Hr'.
Qed.

Lemma insert_leb_sorted (x : string) (l : list string) :
  Sorted (fun a b => String.leb a b = true) l ->
  Sorted (fun a b => String.leb a b = true) (insert_by String.leb x l).
Proof.
  induction 1 as [| y t Ht IH Hhd]; cbn [insert_by]; [repeat constructor |].
  destruct (String.leb x y) eqn:E.
  - constructor; [constructor; assumption | constructor; exact E].
  - assert (Hyx : String.leb y x = true)
      by (destruct (String.leb_total x y); congruence).
    constructor; [exact IH |].
    destruct t as [| z t]; cbn [insert_by]; [constructor; exact Hyx |].
    destruct (String.leb x z); constructor; [exact Hyx |].
    inversion Hhd; assumption.
Qed.

Lemma sort_by_leb_sorted (l : list string) :
  Sorted (fun a b => String.leb a b = true) (sort_by String.leb l).
Proof.
  induction l as [| x l IH]; cbn [sort_by fold_right]; [constructor |].
  apply insert_leb_sorted. exact IH.
Qed.

Lemma ticker_bars_ok (records : list VolRecord) (ticker : string) :
  records <> [] ->
  ticker_bars (DataFrame records) ticker
  = Ok {| group_label := ticker;
          group_color := colors_get ticker;
          group_events := map Event (rows_of records ticker);
          group_values := map Volatility_Change_Pct (rows_of records ticker) |}.
Proof.
  intros Hne. unfold ticker_bars, ticker_data.
  rewrite (getitem_DataFrame records _ _ Hne Ticker_key). cbn [bind].
  assert (Hcols : columns (DataFrame records) = record_keys)
    by (destruct records; [congruence | reflexivity]).
  rewrite !getitem_in
    by (cbn [columns]; rewrite Hcols; cbn;
        repeat (first [left; reflexivity | right])).
  reflexivity.
Qed.

(** The charts of a table with at least one record. *)
Lemma create_visualizations_ok (records : list VolRecord) :
  records <> [] ->
  create_visualizations (DataFrame records)
  = Ok {| impact_chart :=
            map (fun ticker =>
                   {| group_label := ticker;
                      group_color := colors_get ticker;
                      group_events := map Event (rows_of records ticker);
                      group_values :=
                        map Volatility_Change_Pct (rows_of records ticker) |})
                (unique (map Ticker records));
          company_chart :=
            map (fun tv => (fst tv, snd tv, colors_get (fst tv)))
              (map (fun ticker =>
                      (ticker,
                       group_mean (map Volatility_Change_Pct
                                     (rows_of records ticker))))
                 (sort_by String.leb (unique (map Ticker records)))) |}.
Proof.
  intros Hne. unfold create_visualizations, groupby_mean.
  rewrite !(getitem_DataFrame records _ Ticker Hne Ticker_key).
  rewrite (getitem_DataFrame records _ _ Hne pct_column_key). cbn [bind].
  rewrite (for_each_ok _ _ _ (fun t _ => ticker_bars_ok records t Hne)).
  reflexivity.
Qed.

(** X13.  On a table with at least one record [create_visualizations]
    raises nothing.  The first chart has one group of bars per ticker of
    the table, in order of first appearance and in the colour of the
    ticker, and its bars are the (event, percent change) pairs of the
    records, each record drawn once.  The second chart has one bar per
    ticker, the tickers in ascending order, each with the group mean of
    the percent changes of its records and its colour. *)
Theorem charts_cover_records (records : list VolRecord) :
  records <> [] ->
  exists charts : Charts,
    create_visualizations (DataFrame records) = Ok charts /\
    map group_label (impact_chart charts) = unique (map Ticker records) /\
    (forall g, In g (impact_chart charts) ->
               group_color g = colors_get (group_label g)) /\
    Permutation
      (flat_map (fun g => combine (group_events g) (group_values g))
         (impact_chart charts))
      (map (fun r => (Event r, Volatility_Change_Pct r)) records) /\
    Permutation (map (fun b => fst (fst b)) (company_chart charts))
      (unique (map Ticker records)) /\
    Sorted (fun a b => String.leb a b = true)
      (map (fun b => fst (fst b)) (company_chart charts)) /\
    (forall ticker v colour,
       In (ticker, v, colour) (company_chart charts) ->
       v = group_mean (map Volatility_Change_Pct (rows_of records ticker)) /\
       colour = colors_get ticker).
Proof.
  intros Hne. eexists. split; [apply (create_visualizations_ok records Hne) |].
  cbn [impact_chart company_chart].
  set (tickers := unique (map Ticker records)).
  repeat apply conj.
  - rewrite map_map. cbn [group_label]. apply map_id.
  - intros g Hg. apply in_map_iff in Hg as (t & <- & _). reflexivity.
  - apply Permutation_trans
      with (map (fun r => (Event r, Volatility_Change_Pct r))
              (flat_map (rows_of records) tickers)).
    + rewrite !flat_map_concat_map, concat_map, !map_map.
      cbn [group_events group_values].
      replace (map (fun t => combine (map Event (rows_of records t))
                                (map Volatility_Change_Pct (rows_of records t)))
                 tickers)
        with (map (fun t => map (fun r => (Event r, Volatility_Change_Pct r))
                              (rows_of records t)) tickers)
        by (apply map_ext; intros t; symmetry; apply combine_map_same).
      reflexivity.
    + apply Permutation_map, rows_of_partition; [apply unique_NoDup |].
      intros r Hr. apply unique_In, in_map. exact Hr.
  - rewrite !map_map. cbn [fst]. rewrite map_id. apply sort_by_perm.
  - rewrite !map_map. cbn [fst]. rewrite map_id. apply sort_by_leb_sorted.
  - intros ticker v colour Hin.
    apply in_map_iff in Hin as ([t v'] & Heq & Hin).
    cbn [fst snd] in Heq. injection Heq as -> -> <-.
    apply in_map_iff in Hin as (t' & [= -> <-] & _).
    split; reflexivity.
Qed.

Lemma create_visualizations_empty :
  create_visualizations (DataFrame []) = Raise (KeyError "Ticker"%string).
Proof. reflexivity. Qed.

Lemma analyze_all_events_DataFrame
    (events_dict : list (string * list (string * string))) (tbl : ResultsFrame) :
  analyze_all_events events_dict = Ok tbl -> tbl = DataFrame (data tbl).
Proof.
  unfold analyze_all_events.
  destruct (analyze_tickers [] events_dict); cbn [bind]; [| discriminate].
  intros [= <-]. reflexivity.
Qed.

(** X14.  The run of the [__main__] block ends in one of three ways.  When
    the batch raises, the run raises the same and writes nothing.  When the
    batch returns a table without records, the run raises
    [KeyError('Ticker')] in [create_visualizations], before any summary is
    printed.  When the table has a record, the run completes: it saves this
    table, draws the charts and prints the summary. *)
Theorem main_block_outcome
    (events_dict : list (string * list (string * string))) :
  (forall e, analyze_all_events events_dict = Raise e ->
             main_block events_dict = Raise e) /\
  (forall tbl, analyze_all_events events_dict = Ok tbl -> data tbl = [] ->
               main_block events_dict = Raise (KeyError "Ticker"%string)) /\
  (forall tbl, analyze_all_events events_dict = Ok tbl -> data tbl <> [] ->
     exists charts summary,
       create_visualizations tbl = Ok charts /\
       print_summary_stats tbl = Ok summary /\
       main_block events_dict
       = Ok {| saved_results := tbl;
               saved_charts := charts;
               printed_summary := summary |}).
Proof.
  unfold main_block. repeat apply conj.
  - intros e ->. reflexivity.
  - intros tbl Htbl Hnil. rewrite Htbl. cbn [bind].
    rewrite (analyze_all_events_DataFrame _ _ Htbl), Hnil. reflexivity.
  - intros tbl Htbl Hne. rewrite Htbl. cbn [bind].
    rewrite (analyze_all_events_DataFrame _ _ Htbl) in *.
    cbn [DataFrame data] in Hne.
    pose proof (create_visualizations_ok (data tbl) Hne) as Hc.
    match type of Hc with _ = Ok ?c => set (charts := c) in Hc end.
    destruct (print_summary_stats_ok (data tbl) Hne) as (summary & Hs & _).
    exists charts, summary. rewrite Hc, Hs. cbn [bind].
    repeat split; reflexivity.
Qed.

End Analysis.

(* ================================================================== *)
(** * The repair scripts *)
(* ================================================================== *)

(** ** Texts and lines *)

Lemma append_nil_r (s : string) : append s EmptyString = s.
Proof. induction s as [| c s IH]; cbn; [| rewrite IH]; reflexivity. Qed.

Lemma append_assoc (s1 s2 s3 : string) :
  append (append s1 s2) s3 = append s1 (append s2 s3).
Proof. induction s1 as [| c s1 IH]; cbn; [| rewrite IH]; reflexivity. Qed.

Lemma writelines_readlines (s : string) : writelines (readlines s) = s.
Proof.
  induction s as [| c t IH]; [reflexivity |].
  cbn [readlines]. destruct (Ascii.eqb c newline).
  - cbn. fold (writelines (readlines t)). rewrite IH. reflexivity.
  - destruct (readlines t) as [| l ls]; cbn in *; rewrite <- IH; reflexivity.
Qed.

Lemma readlines_well_lined (s : string) : well_lined (readlines s).
Proof.
  induction s as [| c t IH]; [exact I |].
  cbn [readlines]. destruct (Ascii.eqb_spec c newline) as [-> | Hc].
  - assert (Hnl : complete (String newline EmptyString))
      by (exists EmptyString; split; reflexivity).
    cbn [well_lined]. destruct (readlines t); [left | split]; assumption.
  - assert (Hneq : Ascii.eqb c newline = false)
      by (destruct (Ascii.eqb_spec c newline); [contradiction | reflexivity]).
    destruct (readlines t) as [| l ls].
    + right. split; [discriminate |]. cbn [no_newline]. rewrite Hneq. reflexivity.
    + assert (Hcomplete : complete l -> complete (String c l)).
      { intros (body & -> & Hbody). exists (String c body).
        split; [reflexivity |]. cbn [no_newline]. rewrite Hneq, Hbody. reflexivity. }
      cbn [well_lined] in *. destruct ls as [| l' ls].
      * destruct IH as [H | [_ H]]; [left; auto | right].
        split; [discriminate |]. cbn [no_newline]. rewrite Hneq, H. reflexivity.
      * destruct IH as [H Hrest]. split; auto.
Qed.

Lemma readlines_complete (body s : string) :
  no_newline body = true ->
  readlines (append (append body nl) s) = append body nl :: readlines s.
Proof.
  induction body as [| c body IH]; intros Hbody.
  - cbn. reflexivity.
  - cbn [no_newline] in Hbody. apply andb_prop in Hbody as [Hc Hbody].
    cbn [append readlines].
    destruct (Ascii.eqb c newline); [discriminate |].
    rewrite (IH Hbody). reflexivity.
Qed.

Lemma readlines_partial (l : string) : partial l -> readlines l = [l].
Proof.
  intros [Hne Hl]. induction l as [| c t IH]; [congruence |].
  cbn [no_newline] in Hl. apply andb_prop in Hl as [Hc Ht].
  cbn [readlines]. destruct (Ascii.eqb c newline); [discriminate |].
  destruct t as [| c' t']; [reflexivity |].
  rewrite IH; [reflexivity | discriminate | exact Ht].
Qed.

(** Lines that are well formed are read back as they were written. *)
Lemma readlines_writelines (lines : list string) :
  well_lined lines -> readlines (writelines lines) = lines.
Proof.
  induction lines as [| l rest IH]; intros Hwf; [reflexivity |].
  cbn [well_lined] in Hwf. cbn [writelines fold_right].
  fold (writelines rest). destruct rest as [| l' rest].
  - cbn [writelines fold_right]. rewrite append_nil_r.
    destruct Hwf as [(body & -> & Hbody) | Hpartial].
    + rewrite <- (append_nil_r (append body nl)) at 1.
      rewrite (readlines_complete body EmptyString Hbody). reflexivity.
    + apply readlines_partial. exact Hpartial.
  - destruct Hwf as [(body & -> & Hbody) Hrest].
    rewrite (readlines_complete body _ Hbody), (IH Hrest). reflexivity.
Qed.

(** ** [fix_complete.py] *)

Lemma new_guard_line_complete : complete new_guard_line.
Proof. eexists. split; reflexivity. Qed.

Lemma new_pct_line_complete : complete new_pct_line.
Proof. eexists. split; reflexivity. Qed.

(** The three things the loop body does to a line. *)
Lemma fix_line_cases (line : string) :
  (contains old_pct line = true /\ fix_line line = new_pct_line) \/
  (contains old_pct line = false /\ contains old_guard line = true /\
   fix_line line = new_guard_line) \/
  (contains old_pct line = false /\ contains old_guard line = false /\
   fix_line line = line).
Proof.
  unfold fix_line.
  destruct (contains old_pct line), (contains old_guard line); auto.
Qed.

Lemma fix_line_clean (line : string) :
  contains old_guard (fix_line line) = false /\
  contains old_pct (fix_line line) = false.
Proof.
  destruct (fix_line_cases line) as [[_ ->] | [(_ & _ & ->) | (H1 & H2 & ->)]].
  - split; reflexivity.
  - split; reflexivity.
  - split; assumption.
Qed.

Lemma fix_line_idempotent (line : string) :
  fix_line (fix_line line) = fix_line line.
Proof.
  destruct (fix_line_clean line) as [H1 H2].
  unfold fix_line at 1. rewrite H1, H2. reflexivity.
Qed.

Lemma fix_line_complete (line : string) :
  (complete line -> complete (fix_line line)) /\
  (complete line \/ partial line ->
   complete (fix_line line) \/ partial (fix_line line)).
Proof.
  destruct (fix_line_cases line) as [[_ ->] | [(_ & _ & ->) | (_ & _ & ->)]].
  - split; [intros _ | intros _; left]; apply new_pct_line_complete.
  - split; [intros _ | intros _; left]; apply new_guard_line_complete.
  - split; auto.
Qed.

Lemma map_fix_line_well_lined (lines : list string) :
  well_lined lines -> well_lined (map fix_line lines).
Proof.
  induction lines as [| l rest IH]; intros Hwf; [exact I |].
  cbn [map well_lined] in *. destruct rest as [| l' rest].
  - apply fix_line_complete. exact Hwf.
  - destruct Hwf as [Hl Hrest]. cbn [map] in *.
    split; [apply fix_line_complete; exact Hl | apply IH; exact Hrest].
Qed.

Lemma readlines_fix_complete_text (content : string) :
  readlines (fix_complete_text content) = map fix_line (readlines content).
Proof.
  unfold fix_complete_text.
  apply readlines_writelines, map_fix_line_well_lined, readlines_well_lined.
Qed.

(** X15.  [fix_complete.py] rewrites the file line by line: the rewritten
    text has as many lines as the text read; a line that holds neither of
    the two old expressions is kept as it is, a line that holds the old
    percent expression becomes the new percent line, and a line that holds
    only the old guard becomes the new guard line. *)
Theorem fix_complete_line_by_line (content : string) :
  let rewritten := readlines (fix_complete_text content) in
  length rewritten = length (readlines content) /\
  forall i line,
    nth_error (readlines content) i = Some line ->
    exists line',
      nth_error rewritten i = Some line' /\
      (contains old_pct line = true -> line' = new_pct_line) /\
      (contains old_pct line = false -> contains old_guard line = true ->
       line' = new_guard_line) /\
      (contains old_pct line = false -> contains old_guard line = false ->
       line' = line).
Proof.
  cbv zeta. rewrite readlines_fix_complete_text. split; [apply length_map |].
  intros i line Hi. exists (fix_line line).
  split; [rewrite nth_error_map, Hi; reflexivity |].
  destruct (fix_line_cases line)
    as [[H1 ->] | [(H1 & H2 & ->) | (H1 & H2 & ->)]];
    repeat split; intros; congruence.
Qed.

(** ** Line ends *)

(** A text without carriage return is read as it is. *)
Lemma universal_newlines_no_cr (s : string) :
  no_cr s = true -> universal_newlines s = s.
Proof.
  induction s as [| c t IH]; [reflexivity |].
  cbn [no_cr universal_newlines]. intros H.
  apply andb_prop in H as [Hc Ht].
  destruct (Ascii.eqb c carriage_return); [discriminate |].
  rewrite (IH Ht). reflexivity.
Qed.

(** The text read holds no carriage return. *)
Lemma no_cr_universal_newlines (s : string) :
  no_cr (universal_newlines s) = true.
Proof.
  assert (H : no_cr (universal_newlines s) = true /\
              forall c, no_cr (universal_newlines (String c s)) = true).
  { induction s as [| c' t [IH1 IH2]].
    - split; [reflexivity |]. intros c. cbn [universal_newlines].
      destruct (Ascii.eqb c carriage_return) eqn:E; [reflexivity |].
      cbn [no_cr]. rewrite E. reflexivity.
    - split; [apply IH2 |]. intros c.
      change (universal_newlines (String c (String c' t)))
        with (if Ascii.eqb c carriage_return
              then if Ascii.eqb c' newline
                   then String newline (universal_newlines t)
                   else String newline (universal_newlines (String c' t))
              else String c (universal_newlines (String c' t))).
      destruct (Ascii.eqb c carriage_return) eqn:E.
      + destruct (Ascii.eqb c' newline); cbn [no_cr];
          [rewrite IH1 | rewrite IH2]; reflexivity.
      + cbn [no_cr]. rewrite E, IH2. reflexivity. }
  apply H.
Qed.

Lemma no_cr_append (a b : string) :
  no_cr (append a b) = no_cr a && no_cr b.
Proof.
  induction a as [| c a IH]; [reflexivity |].
  cbn [append no_cr]. rewrite IH, andb_assoc. reflexivity.
Qed.

Lemma no_cr_writelines (lines : list string) :
  no_cr (writelines lines) = forallb no_cr lines.
Proof.
  induction lines as [| l lines IH]; [reflexivity |].
  cbn [writelines fold_right forallb]. fold (writelines lines).
  rewrite no_cr_append, IH. reflexivity.
Qed.

Lemma fix_line_no_cr (line : string) :
  no_cr line = true -> no_cr (fix_line line) = true.
Proof.
  intros H.
  destruct (fix_line_cases line) as [[_ ->] | [(_ & _ & ->) | (_ & _ & ->)]];
    [reflexivity | reflexivity | exact H].
Qed.

(** The rewritten text holds no carriage return when the text read holds
    none. *)
Lemma fix_complete_text_no_cr (content : string) :
  no_cr content = true -> no_cr (fix_complete_text content) = true.
Proof.
  intros H. unfold fix_complete_text. rewrite no_cr_writelines.
  rewrite <- (writelines_readlines content), no_cr_writelines in H.
  rewrite forallb_forall in H |- *. intros line Hin.
  apply in_map_iff in Hin as (l & <- & Hl).
  apply fix_line_no_cr, H, Hl.
Qed.

(** X16.  After [fix_complete.py] no line of the file holds one of the two
    old expressions, and a second run of the script leaves the file as the
    first run wrote it. *)
Theorem fix_complete_clean_and_idempotent (fs fs' : files) :
  fix_complete fs = Some fs' ->
  (exists content,
     fs' script_file = Some content /\
     forall line, In line (readlines content) ->
       contains old_guard line = false /\ contains old_pct line = false) /\
  (exists fs'', fix_complete fs' = Some fs'' /\ forall name, fs'' name = fs' name).
Proof.
  unfold fix_complete. destruct (fs script_file) as [content |] eqn:E;
    [| discriminate].
  intros [= <-]. unfold write_file at 1 3. rewrite String.eqb_refl. split.
  - eexists. split; [reflexivity |].
    intros line Hin. rewrite readlines_fix_complete_text in Hin.
    apply in_map_iff in Hin as (l & <- & _). apply fix_line_clean.
  - eexists. split; [reflexivity |]. intros name. unfold write_file.
    destruct (String.eqb name script_file); [| reflexivity].
    f_equal.
    rewrite (universal_newlines_no_cr (fix_complete_text _))
      by apply fix_complete_text_no_cr, no_cr_universal_newlines.
    unfold fix_complete_text at 1.
    rewrite readlines_fix_complete_text, map_map.
    unfold fix_complete_text. f_equal. apply map_ext, fix_line_idempotent.
Qed.

(** ** [fix.py] *)

Lemma contains_prefix (pat : string) (c : ascii) (s : string) :
  contains pat (String c s) = false ->
  prefix pat (String c s) = false /\ contains pat s = false.
Proof.
  cbn [contains]. intros H. apply orb_false_elim in H. exact H.
Qed.

Lemma replace_from_absent (old new s : string) :
  contains old s = false -> replace_from old new 0 s = s.
Proof.
  induction s as [| c t IH]; intros H; [reflexivity |].
  apply contains_prefix in H as [Hp Ht].
  cbn [replace_from]. rewrite Hp, (IH Ht). reflexivity.
Qed.

Lemma fix_complete_text_clean (text : string) :
  (forall line, In line (readlines text) ->
     contains old_guard line = false /\ contains old_pct line = false) ->
  fix_complete_text text = text.
Proof.
  intros Hclean. unfold fix_complete_text.
  rewrite <- (writelines_readlines text) at 2. f_equal.
  rewrite <- (map_id (readlines text)) at 2.
  apply map_ext_in. intros line Hin.
  destruct (Hclean line Hin) as [H1 H2].
  unfold fix_line. rewrite H1, H2. reflexivity.
Qed.

(** X17.  Both scripts read the file with its line ends turned into line
    feeds.  When the text read holds no old expression (for [fix.py]: it
    does not contain the old line; for [fix_complete.py]: no line contains
    the old guard or the old percent expression), the script writes this
    text back and touches no other file.  So a file without carriage
    return and without old expression is left as it is, while in a file
    with carriage returns the line ends are rewritten. *)
Theorem scripts_leave_fixed_file (fs : files) (content : string) :
  fs script_file = Some content ->
  let text := universal_newlines content in
  (contains old_line text = false ->
   exists fs', fix_script fs = Some fs' /\
               fs' script_file = Some text /\
               forall name, name <> script_file -> fs' name = fs name) /\
  ((forall line, In line (readlines text) ->
      contains old_guard line = false /\ contains old_pct line = false) ->
   exists fs', fix_complete fs = Some fs' /\
               fs' script_file = Some text /\
               forall name, name <> script_file -> fs' name = fs name) /\
  (no_cr content = true -> contains old_line content = false ->
   exists fs', fix_script fs = Some fs' /\ forall name, fs' name = fs name) /\
  (no_cr content = true ->
   (forall line, In line (readlines content) ->
      contains old_guard line = false /\ contains old_pct line = false) ->
   exists fs', fix_complete fs = Some fs' /\ forall name, fs' name = fs name).
Proof.
  intros Hfile text.
  assert (Hother : forall new name,
             name <> script_file -> write_file fs script_file new name = fs name).
  { intros new name Hname. unfold write_file.
    destruct (String.eqb_spec name script_file); [contradiction | reflexivity]. }
  assert (Hself : forall new, write_file fs script_file new script_file = Some new).
  { intros new. unfold write_file. rewrite String.eqb_refl. reflexivity. }
  assert (Hsame : forall name, write_file fs script_file content name = fs name).
  { intros name. unfold write_file.
    destruct (String.eqb_spec name script_file) as [-> | _];
      [symmetry; exact Hfile | reflexivity]. }
  repeat apply conj.
  - intros Habsent. unfold fix_script. rewrite Hfile. fold text.
    unfold str_replace. rewrite (replace_from_absent _ _ _ Habsent).
    eexists. split; [reflexivity |]. split; [apply Hself | apply Hother].
  - intros Hclean. unfold fix_complete. rewrite Hfile. fold text.
    rewrite (fix_complete_text_clean text Hclean).
    eexists. split; [reflexivity |]. split; [apply Hself | apply Hother].
  - intros Hcr Habsent. unfold fix_script. rewrite Hfile.
    rewrite (universal_newlines_no_cr content Hcr).
    unfold str_replace. rewrite (replace_from_absent _ _ _ Habsent).
    eexists. split; [reflexivity | exact Hsame].
  - intros Hcr Hclean. unfold fix_complete. rewrite Hfile.
    rewrite (universal_newlines_no_cr content Hcr).
    rewrite (fix_complete_text_clean content Hclean).
    eexists. split; [reflexivity | exact Hsame].
Qed.

Lemma prefix_append (old rest : string) : prefix old (append old rest) = true.
Proof.
  induction old as [| c old IH]; [destruct rest; reflexivity |].
  cbn. destruct (ascii_dec c c); [exact IH | contradiction].
Qed.

Lemma replace_from_skip (old new rest : string) (passed : string) :
  replace_from old new (String.length passed) (append passed rest)
  = replace_from old new 0 rest.
Proof.
  induction passed as [| c passed IH]; [reflexivity |].
  cbn [String.length append replace_from]. exact IH.
Qed.

Lemma replace_from_first (old new : string) (c : ascii) (tail a b : string) :
  old = String c tail ->
  no_early_match old a (append old b) = true ->
  replace_from old new 0 (append a (append old b))
  = append a (append new (replace_from old new 0 b)).
Proof.
  intros Hold. induction a as [| c' a IH]; intros Hearly.
  - cbn [append].
    assert (Hpre : prefix old (append old b) = true) by apply prefix_append.
    assert (Hlen : (String.length old - 1)%nat = String.length tail).
    { rewrite Hold. cbn [String.length]. apply Nat.sub_0_r. }
    assert (Htext : append old b = String c (append tail b)).
    { rewrite Hold. reflexivity. }
    rewrite Htext in Hpre |- *. cbn [replace_from].
    rewrite Hpre, Hlen. rewrite replace_from_skip. reflexivity.
  - cbn [no_early_match] in Hearly. apply andb_prop in Hearly as [Hp Hrest].
    apply negb_true_iff in Hp.
    cbn [append] in *. cbn [replace_from]. rewrite Hp, (IH Hrest). reflexivity.
Qed.

(** X18.  [fix.py] replaces the first occurrence of its old line by the
    new line and goes on behind it: for a text [a ++ old_line ++ b] in
    which no occurrence of the old line starts inside [a], the text written
    is [a], the new line, and the replacement of [b]. *)
Theorem fix_replaces_first_occurrence (a b : string) :
  no_early_match old_line a (append old_line b) = true ->
  str_replace old_line new_line (append a (append old_line b))
  = append a (append new_line (str_replace old_line new_line b)).
Proof.
  intros Hearly. unfold str_replace.
  apply (replace_from_first old_line new_line " "
           "   if not np.isnan(before_vol) and not np.isnan(after_vol):");
    [reflexivity | exact Hearly].
Qed.


(* ================================================================== *)
(** * The sample data, evaluated *)
(* ================================================================== *)

Lemma example_closes_positive :
  Forall (fun c => fgtb c 0 = true) (Close example_frame).
Proof. cbn. repeat constructor. Qed.

Lemma example_index_sorted : Sorted Z.le (index example_frame).
Proof. cbn. repeat (constructor; try (unfold day, ns_per_day; lia)). Qed.

Lemma example_anchor : event_idx example_frame (day 5) = 5%Z.
Proof. reflexivity. Qed.

Lemma example_date : to_datetime_iso "1970-01-06" = Ok (day 5).
Proof. reflexivity. Qed.

Lemma example_before_window (pad : bool) :
  before_window pad example_frame 5 default_window = example_before.
Proof. destruct pad; vm_compute; reflexivity. Qed.

Lemma example_after_window (pad : bool) :
  after_window pad example_frame 5 default_window = example_after.
Proof. destruct pad; vm_compute; reflexivity. Qed.

Lemma example_before_positive : defined_positive example_before.
Proof. apply defined_positiveb_spec. vm_compute. reflexivity. Qed.

Lemma example_after_positive : defined_positive example_after.
Proof. apply defined_positiveb_spec. vm_compute. reflexivity. Qed.

(** The event of 1970-01-06 on the sample frame gives [example_record]. *)
Lemma example_event (pad : bool) (results : list VolRecord) :
  analyze_event to_datetime_iso pad "AAPL" example_frame results
    ("Launch", "1970-01-06")%string
  = (with_returns pad example_frame, Ok (results ++ [example_record])).
Proof.
  rewrite (analyze_event_emit to_datetime_iso pad _ _ _ _ _ (day 5) example_date);
    rewrite example_anchor, ?example_before_window, ?example_after_window;
    [reflexivity | apply example_before_positive | apply example_after_positive].
Qed.

Lemma example_table (pad : bool) :
  analyze_all_events to_datetime_iso example_provider pad
    [ ("AAPL", [ ("Launch", "1970-01-06") ]) ]%string
  = Ok (DataFrame [example_record]).
Proof.
  unfold analyze_all_events. cbn [analyze_tickers analyze_events].
  change (example_provider "AAPL") with example_frame.
  rewrite example_event. reflexivity.
Qed.

(** Every date of the event table of the script parses, so the batch over
    it returns a table whatever the provider delivers. *)
Lemma events_data_dates_parse : dates_parse to_datetime_iso events_data.
Proof.
  unfold dates_parse, events_data.
  repeat (constructor; cbn [snd]; try (eexists; reflexivity)).
Qed.

Lemma events_data_batch_returns (get_stock_data : string -> StockData)
    (pad : bool) :
  exists tbl,
    analyze_all_events to_datetime_iso get_stock_data pad events_data = Ok tbl.
Proof.
  apply analyze_all_events_total, events_data_dates_parse.
Qed.

(** A batch whose only series has no price data returns the table without
    columns, and the summary of that table raises. *)
Lemma skipped_batch_has_no_summary (pad : bool) :
  analyze_all_events to_datetime_iso example_provider pad
    [ ("NONE", [ ("Delisting", "1970-01-03") ]) ]%string
  = Ok (DataFrame []) /\
  print_summary_stats (DataFrame []) = Raise (KeyError pct_column).
Proof.
  split; [| reflexivity].
  unfold analyze_all_events. cbn [analyze_tickers].
  rewrite (analyze_events_empty to_datetime_iso pad "NONE"
             [ ("Delisting", "1970-01-03") ]%string).
  - reflexivity.
  - constructor; [| constructor]. exists (day 2). reflexivity.
  - reflexivity.
Qed.

(** The top three of the tied table: the two rows with change 2 in their
    order of insertion, then the first of the three rows with change 1. *)
Lemma tied_top3 :
  top3 (DataFrame tied_records)
  = Ok [ (1%nat, tied_record "b" 2); (3%nat, tied_record "d" 2);
         (0%nat, tied_record "a" 1) ].
Proof. vm_compute. reflexivity. Qed.

Lemma tied_records_usable :
  Forall (fun r => isna (Volatility_Change_Pct r) = false) tied_records.
Proof. repeat constructor. Qed.

(** The event of 1970-01-08 on the geometric series.  The returns of the
    series are one number in exact arithmetic; as floats they differ in
    the last place, both windows have a standard deviation above zero and
    the event gets a record. *)
Lemma geometric_event (pad : bool) :
  exists r : VolRecord,
    analyze_event to_datetime_iso pad "GEO" geometric_frame []
      ("Split", "1970-01-08")%string
    = (with_returns pad geometric_frame, Ok [r]) /\
    fgtb (Before_Volatility r) 0 = true /\
    fltb (Before_Volatility r) 1 = true.
Proof.
  eexists. split.
  - apply (analyze_event_emit to_datetime_iso pad "GEO" geometric_frame []
             "Split" "1970-01-08" (day 7) eq_refl);
      apply defined_positiveb_spec; destruct pad; vm_compute; reflexivity.
  - destruct pad; split; vm_compute; reflexivity.
Qed.

(** The event of 1970-01-07 on the series whose deviations overflow: both
    standard deviations are the infinity, which passes the guard, and the
    record holds NaN as change and as percent change. *)
Lemma overflow_event (pad : bool) :
  analyze_event to_datetime_iso pad "OVER" overflow_frame []
    ("Swing", "1970-01-07")%string
  = (with_returns pad overflow_frame,
     Ok [ {| Ticker := "OVER";
             Event := "Swing";
             Date := "1970-01-07";
             Before_Volatility := infinity;
             After_Volatility := infinity;
             Volatility_Change := nan;
             Volatility_Change_Pct := nan |} ]).
Proof. destruct pad; vm_compute; reflexivity. Qed.

(* ================================================================== *)
(** * The theorems at the sample data *)
(* ================================================================== *)

(** The event of 1970-01-06 on the sample frame: the date parses, both
    windows have a positive volatility, and the turn appends one record. *)
Lemma guard_and_emission_witness :
  to_datetime_iso "1970-01-06" = Ok (day 5) /\
  analyze_event to_datetime_iso true "AAPL" example_frame []
    ("Launch", "1970-01-06")%string
  = (with_returns true example_frame, Ok [example_record]) /\
  analyze_all_events to_datetime_iso example_provider true
    [ ("AAPL", [ ("Launch", "1970-01-06") ]) ]%string
  = Ok (DataFrame [example_record]).
Proof.
  split; [exact example_date |].
  destruct (guard_and_emission to_datetime_iso example_provider true "AAPL"
              example_frame [] "Launch" "1970-01-06")
    as (Hparse & _ & Hbatch).
  destruct (Hparse (day 5) example_date) as (_ & Hemit & _).
  rewrite example_anchor, example_before_window, example_after_window in Hemit.
  split.
  - apply Hemit. split; [apply example_before_positive | apply example_after_positive].
  - destruct (Hbatch [ ("AAPL", [ ("Launch", "1970-01-06") ]) ]%string)
      as [Htotal Htable].
    destruct Htotal as [tbl Htbl].
    { repeat constructor. exists (day 5). reflexivity. }
    rewrite Htbl. f_equal. rewrite (proj1 (Htable tbl Htbl)).
    vm_compute. reflexivity.
Defined.

(** C1 does not hold as the specification words it: an event whose date
    cannot be parsed gets no record and is not skipped either; its turn of
    the loop ends with the exception of [pd.to_datetime]. *)
Lemma unparseable_date_is_an_error :
  to_datetime_iso "next week" = Raise ValueError /\
  analyze_event to_datetime_iso true "AAPL" example_frame []
    ("Rumour", "next week")%string
  = (example_frame, Raise ValueError) /\
  forall results,
    snd (analyze_event to_datetime_iso true "AAPL" example_frame []
           ("Rumour", "next week")%string) <> Ok results.
Proof.
  split; [reflexivity |].
  assert (E : analyze_event to_datetime_iso true "AAPL" example_frame []
                ("Rumour", "next week")%string
              = (example_frame, Raise ValueError))
    by (apply analyze_event_raise; reflexivity).
  split; [exact E |]. intros results. rewrite E. discriminate.
Qed.

(** The ticker without price data in front of the sample series: the
    batch gives the table of the sample series alone. *)
Lemma empty_series_is_skipped_witness :
  rows (example_provider "NONE") = [] /\
  Forall (fun ev : string * string =>
            exists d, to_datetime_iso (snd ev) = Ok d)
         [ ("Delisting", "1970-01-03") ]%string /\
  analyze_all_events to_datetime_iso example_provider true
    [ ("NONE", [ ("Delisting", "1970-01-03") ]);
      ("AAPL", [ ("Launch", "1970-01-06") ]) ]%string
  = Ok (DataFrame [example_record]).
Proof.
  assert (Hrows : rows (example_provider "NONE") = []) by reflexivity.
  assert (Hdates : Forall (fun ev : string * string =>
                             exists d, to_datetime_iso (snd ev) = Ok d)
                          [ ("Delisting", "1970-01-03") ]%string).
  { constructor; [| constructor]. exists (day 2). reflexivity. }
  split; [exact Hrows |]. split; [exact Hdates |].
  destruct (empty_series_is_skipped to_datetime_iso example_provider true "NONE"
              [ ("Delisting", "1970-01-03") ]%string []
              [ ("AAPL", [ ("Launch", "1970-01-06") ]) ]%string Hrows Hdates)
    as [_ E].
  cbn [app] in E. rewrite E. exact (example_table true).
Defined.

(** C3 does not hold as the specification words it: an event date that
    cannot be parsed aborts the batch, and the record of the other event of
    the series, which the batch gives when that event is absent, is lost
    with it. *)
Lemma unparseable_date_aborts_batch :
  to_datetime_iso "next week" = Raise ValueError /\
  analyze_all_events to_datetime_iso example_provider true
    [ ("AAPL", [ ("Launch", "1970-01-06"); ("Rumour", "next week") ]) ]%string
  = Raise ValueError /\
  analyze_all_events to_datetime_iso example_provider true
    [ ("AAPL", [ ("Launch", "1970-01-06") ]) ]%string
  = Ok (DataFrame [example_record]).
Proof.
  split; [reflexivity |]. split; [| exact (example_table true)].
  unfold analyze_all_events. cbn [analyze_tickers analyze_events].
  change (example_provider "AAPL") with example_frame.
  rewrite example_event.
  rewrite (analyze_event_raise to_datetime_iso true _ _ _ _ _ ValueError)
    by reflexivity.
  reflexivity.
Qed.

(** The regression vector of the specification: ten closes, the event on
    the sixth day, window 4; the anchor is 5 and the slices are [0, 5) and
    [5, 9). *)
Lemma window_anchor_and_ranges_witness :
  Sorted Z.le (index example_frame) /\ (0 <= 4)%Z /\
  (event_idx example_frame (day 5) + 4 <= int64_max)%Z /\
  event_idx example_frame (day 5) = 5%Z /\
  before_range example_frame 5 4 = (0%nat, 5%nat) /\
  after_range example_frame 5 4 = (5%nat, 9%nat).
Proof.
  assert (Hw : (0 <= 4)%Z) by lia.
  assert (Hmax : (event_idx example_frame (day 5) + 4 <= int64_max)%Z)
    by (rewrite example_anchor; unfold int64_max; lia).
  destruct (window_anchor_and_ranges true example_frame (day 5) 4
              example_index_sorted Hw Hmax)
    as (_ & _ & _ & _ & _ & _ & Hbr & Har & _).
  rewrite example_anchor in Hbr, Har.
  repeat split; try assumption; try exact example_index_sorted.
Defined.

(** C4 does not hold as the specification words it: the anchor is a numpy
    [int64] and [event_idx + window] wraps around.  With the window length
    [2^63 - 1] and the anchor 5 of the ten rows of the sample frame, the
    end of the after-slice is [-9223372036854775804] and the slice is
    empty, where the specification has the range [5, 10). *)
Lemma after_range_wraps_around :
  Sorted Z.le (index example_frame) /\
  event_idx example_frame (day 5) = 5%Z /\
  len example_frame = 10%Z /\
  Z.min (len example_frame) (5 + int64_max) = 10%Z /\
  after_end example_frame 5 int64_max = (-9223372036854775804)%Z /\
  after_range example_frame 5 int64_max = (5%nat, 0%nat) /\
  after_returns (with_returns true example_frame) 5 int64_max = Ok [].
Proof.
  split; [exact example_index_sorted |].
  repeat split; vm_compute; reflexivity.
Qed.

(** The record of the sample batch. *)
Lemma change_fields_witness :
  analyze_all_events to_datetime_iso example_provider true
    [ ("AAPL", [ ("Launch", "1970-01-06") ]) ]%string
  = Ok (DataFrame [example_record]) /\
  In example_record (data (DataFrame [example_record])) /\
  fgtb (Before_Volatility example_record) 0 = true /\
  Volatility_Change example_record
  = fsub (After_Volatility example_record) (Before_Volatility example_record) /\
  Volatility_Change_Pct example_record
  = fmul (fdiv (fsub (After_Volatility example_record)
                  (Before_Volatility example_record))
            (Before_Volatility example_record)) 100.
Proof.
  assert (Hin : In example_record (data (DataFrame [example_record])))
    by (left; reflexivity).
  split; [exact (example_table true) |]. split; [exact Hin |].
  exact (change_fields to_datetime_iso example_provider true _ _
           (example_table true) example_record Hin).
Defined.

(** The slices of the regression vector hold at most 5 and 4 values. *)
Lemma window_lengths_witness :
  (0 <= 4)%Z /\
  (event_idx example_frame (day 5) + 4 <= int64_max)%Z /\
  exists before after : list float,
    before_returns (with_returns true example_frame) 5 4 = Ok before /\
    after_returns (with_returns true example_frame) 5 4 = Ok after /\
    (Z.of_nat (length before) <= 5)%Z /\ (Z.of_nat (length after) <= 4)%Z.
Proof.
  assert (Hw : (0 <= 4)%Z) by lia.
  assert (Hmax : (event_idx example_frame (day 5) + 4 <= int64_max)%Z)
    by (rewrite example_anchor; unfold int64_max; lia).
  split; [exact Hw |]. split; [exact Hmax |].
  destruct (window_lengths true example_frame (day 5) 4 Hw Hmax)
    as (before & after & Hb & Ha & Hlb & Hla & _).
  rewrite example_anchor in Hb, Ha.
  exists before, after. repeat split; assumption.
Defined.

(** C6 does not hold as the specification words it: with a window length
    of 0 the after-slice is empty although the anchor, 5, is not the end of
    the ten rows of the series. *)
Lemma after_slice_empty_inside_series :
  (0 <= 0)%Z /\
  event_idx example_frame (day 5) = 5%Z /\
  len example_frame = 10%Z /\
  after_returns (with_returns true example_frame)
    (event_idx example_frame (day 5)) 0 = Ok [] /\
  event_idx example_frame (day 5) <> len example_frame.
Proof.
  repeat split; try reflexivity; try lia.
  rewrite example_anchor. discriminate.
Qed.

(** The second close of the sample frame, 102 after 100. *)
Lemma returns_quotients_witness :
  (2 <= length (Close example_frame))%nat /\
  Forall (fun c => fgtb c 0 = true) (Close example_frame) /\
  exists rets : list float,
    Returns (fst (event_volatility_at true example_frame (day 5) 5)) = Some rets /\
    nth 1 rets nan = fsub (fdiv 102 100) 1.
Proof.
  assert (Hlen : (2 <= length (Close example_frame))%nat) by (cbn; lia).
  split; [exact Hlen |]. split; [exact example_closes_positive |].
  destruct (returns_quotients true example_frame (day 5) 5 Hlen
              example_closes_positive)
    as (rets & Hrets & _ & _ & Hi).
  exists rets. split; [exact Hrets |].
  apply (Hi 1%nat). cbn. lia.
Defined.

(** C7 does not hold as the specification words it: the return is a
    rounded float and the round trip does not close.  For the closes 3 and
    1 the return is [1/3 - 1] rounded, and [3 * (1 + return)] is the float
    below 1. *)
Lemma round_trip_fails_in_binary64 :
  (2 <= length (Close falling_frame))%nat /\
  Forall (fun c => fgtb c 0 = true) (Close falling_frame) /\
  exists r : float,
    nth 1 (pct_change true (Close falling_frame)) nan = r /\
    r = fsub (fdiv 1 3) 1 /\
    feqb (fmul 3 (fadd 1 r)) 1 = false /\
    fltb (fmul 3 (fadd 1 r)) 1 = true.
Proof.
  split; [cbn; lia |]. split; [cbn; repeat constructor |].
  eexists. split; [reflexivity |].
  repeat split; vm_compute; reflexivity.
Qed.

(** The tied table: the summary lists the rows 1, 3 and 0. *)
Lemma top3_stable_witness :
  tied_records <> [] /\
  Forall (fun r => isna (Volatility_Change_Pct r) = false) tied_records /\
  exists (top : list (nat * VolRecord)) (s : Summary),
    print_summary_stats (DataFrame tied_records) = Ok s /\
    top_increases s = top /\
    map fst top = [1; 3; 0]%nat.
Proof.
  assert (Hne : tied_records <> []) by discriminate.
  split; [exact Hne |]. split; [exact tied_records_usable |].
  destruct (top3_stable tied_records Hne tied_records_usable)
    as (top & s & Htop & Hs & Hts & _).
  exists top, s. split; [exact Hs |]. split; [exact Hts |].
  rewrite tied_top3 in Htop. injection Htop as <-. reflexivity.
Defined.

(** C9 does not hold as the specification words it: the frame comes back
    from one evaluation with a [Returns] column it did not have. *)
Lemma evaluation_adds_returns_column :
  Returns one_day_frame = None /\
  Returns (fst (calculate_event_volatility to_datetime_iso true one_day_frame
                  "1970-01-01" 5)) = Some [nan] /\
  fst (calculate_event_volatility to_datetime_iso true one_day_frame
         "1970-01-01" 5) <> one_day_frame.
Proof.
  split; [reflexivity |]. split; [vm_compute; reflexivity |].
  intros E. apply (f_equal Returns) in E. discriminate E.
Qed.

(* ================================================================== *)
(** * The further properties at the sample data *)
(* ================================================================== *)

(** The anchors of the third and of the sixth day of the sample frame. *)
Lemma anchor_monotone_witness :
  Sorted Z.le (index example_frame) /\ (day 2 <= day 5)%Z /\
  (event_idx example_frame (day 2) <= event_idx example_frame (day 5))%Z.
Proof.
  assert (Hd : (day 2 <= day 5)%Z) by (unfold day, ns_per_day; lia).
  split; [exact example_index_sorted |]. split; [exact Hd |].
  exact (anchor_monotone example_frame (day 2) (day 5) example_index_sorted Hd).
Defined.

(** An event on the second day of the sample frame. *)
Lemma edge_events_skipped_witness :
  to_datetime_iso "1970-01-02" = Ok (day 1) /\
  (event_idx example_frame (day 1) <= 2)%Z /\
  analyze_event to_datetime_iso true "AAPL" example_frame []
    ("Listing", "1970-01-02")%string
  = (with_returns true example_frame, Ok []).
Proof.
  assert (Hd : to_datetime_iso "1970-01-02" = Ok (day 1)) by reflexivity.
  assert (Hp : (event_idx example_frame (day 1) <= 2)%Z)
    by (change (event_idx example_frame (day 1)) with 1%Z; lia).
  split; [exact Hd |]. split; [exact Hp |].
  exact (edge_events_skipped to_datetime_iso true "AAPL" example_frame []
           "Listing" "1970-01-02" (day 1) Hd (or_introl Hp)).
Defined.

(** An event in the middle of eight days at the same close. *)
Lemma flat_prices_skipped_witness :
  to_datetime_iso "1970-01-05" = Ok (day 4) /\
  Forall (fun x => x = 50%float) (Close flat_frame) /\
  analyze_event to_datetime_iso true "FLAT" flat_frame []
    ("Nothing", "1970-01-05")%string
  = (with_returns true flat_frame, Ok []).
Proof.
  assert (Hd : to_datetime_iso "1970-01-05" = Ok (day 4)) by reflexivity.
  assert (Hflat : Forall (fun x => x = 50%float) (Close flat_frame))
    by (cbn; repeat constructor).
  split; [exact Hd |]. split; [exact Hflat |].
  exact (flat_prices_skipped to_datetime_iso true "FLAT" flat_frame []
           "Nothing" "1970-01-05" (day 4) 50%float Hd Hflat).
Defined.

(** The sample batch: one event, one record. *)
Lemma records_follow_events_witness :
  analyze_all_events to_datetime_iso example_provider true
    [ ("AAPL", [ ("Launch", "1970-01-06") ]) ]%string
  = Ok (DataFrame [example_record]) /\
  subseq (map record_event [example_record])
    [ ("AAPL", "Launch", "1970-01-06") ]%string.
Proof.
  split; [exact (example_table true) |].
  exact (proj1 (records_follow_events to_datetime_iso example_provider true _ _
                  (example_table true))).
Defined.

(** The summary of the tied table: five rows, all increased. *)
Lemma summary_counts_witness :
  exists s : Summary,
    print_summary_stats (DataFrame tied_records) = Ok s /\
    total_events s = 5%Z /\
    (increased s + decreased s <= total_events s)%Z.
Proof.
  assert (Hne : tied_records <> []) by discriminate.
  destruct (print_summary_stats_ok tied_records Hne) as (s & Hs & _).
  exists s. split; [exact Hs |].
  destruct (summary_counts (DataFrame tied_records) s Hs)
    as (Htot & _ & _ & _ & Hsum & _).
  split; [exact Htot | exact Hsum].
Defined.

(** The tied table has one ticker, so one per-company line. *)
Lemma by_company_distinct_witness :
  exists s : Summary,
    print_summary_stats (DataFrame tied_records) = Ok s /\
    NoDup (map fst (by_company s)) /\
    In "AAPL"%string (map fst (by_company s)).
Proof.
  assert (Hne : tied_records <> []) by discriminate.
  destruct (print_summary_stats_ok tied_records Hne) as (s & Hs & _).
  exists s. split; [exact Hs |].
  destruct (by_company_distinct (DataFrame tied_records) s Hs)
    as (Hnd & Hin & _).
  split; [exact Hnd |]. apply Hin.
  exists (tied_record "a" 1). split; [left |]; reflexivity.
Defined.

(** The tied table: the first row of the top list is row 1, with 2. *)
Lemma top_row_is_maximum_witness :
  tied_records <> [] /\
  Forall (fun r => isna (Volatility_Change_Pct r) = false) tied_records /\
  exists (s : Summary) (i : nat) (r : VolRecord) (rest : list (nat * VolRecord)),
    print_summary_stats (DataFrame tied_records) = Ok s /\
    top_increases s = (i, r) :: rest /\
    nth_error tied_records i = Some r.
Proof.
  assert (Hne : tied_records <> []) by discriminate.
  split; [exact Hne |]. split; [exact tied_records_usable |].
  destruct (top_row_is_maximum tied_records Hne tied_records_usable)
    as (s & i & r & rest & Hs & Htop & Hnth & _).
  exists s, i, r, rest. repeat split; assumption.
Defined.

(** The charts of the tied table: one group of five bars. *)
Lemma charts_cover_records_witness :
  tied_records <> [] /\
  exists charts : Charts,
    create_visualizations (DataFrame tied_records) = Ok charts /\
    map group_label (impact_chart charts) = [ "AAPL"%string ].
Proof.
  assert (Hne : tied_records <> []) by discriminate.
  split; [exact Hne |].
  destruct (charts_cover_records tied_records Hne) as (charts & Hc & Hl & _).
  exists charts. split; [exact Hc | exact Hl].
Defined.

(** The unfixed text: the file after the script holds the fixed text, and
    a second run writes the same. *)
Lemma fix_complete_clean_and_idempotent_witness :
  let fs' := write_file (one_file unfixed_text) script_file fixed_text in
  fix_complete (one_file unfixed_text) = Some fs' /\
  exists fs'',
    fix_complete fs' = Some fs'' /\ forall name, fs'' name = fs' name.
Proof.
  intros fs'.
  assert (H : fix_complete (one_file unfixed_text) = Some fs')
    by (vm_compute; reflexivity).
  split; [exact H |].
  exact (proj2 (fix_complete_clean_and_idempotent _ _ H)).
Defined.

(** The fixed text is left as it is by [fix.py]; of the file with CR LF
    line ends the script writes back the text with line feeds. *)
Lemma scripts_leave_fixed_file_witness :
  one_file fixed_text script_file = Some fixed_text /\
  no_cr fixed_text = true /\
  contains old_line fixed_text = false /\
  (exists fs',
     fix_script (one_file fixed_text) = Some fs' /\
     forall name, fs' name = one_file fixed_text name) /\
  one_file crlf_file script_file = Some crlf_file /\
  contains old_line (universal_newlines crlf_file) = false /\
  exists fs',
    fix_script (one_file crlf_file) = Some fs' /\
    fs' script_file = Some crlf_text.
Proof.
  assert (Hfile : one_file fixed_text script_file = Some fixed_text)
    by reflexivity.
  assert (Hcr : no_cr fixed_text = true) by reflexivity.
  assert (Habsent : contains old_line fixed_text = false) by reflexivity.
  assert (Hfile' : one_file crlf_file script_file = Some crlf_file)
    by reflexivity.
  assert (Habsent' : contains old_line (universal_newlines crlf_file) = false)
    by reflexivity.
  split; [exact Hfile |]. split; [exact Hcr |]. split; [exact Habsent |].
  split.
  - exact (proj1 (proj2 (proj2
             (scripts_leave_fixed_file (one_file fixed_text) fixed_text Hfile)))
             Hcr Habsent).
  - split; [exact Hfile' |]. split; [exact Habsent' |].
    destruct (proj1 (scripts_leave_fixed_file (one_file crlf_file) crlf_file
                       Hfile') Habsent') as (fs' & Hrun & Hwritten & _).
    exists fs'. split; [exact Hrun | exact Hwritten].
Defined.

(** The old line between two other lines. *)
Lemma fix_replaces_first_occurrence_witness :
  no_early_match old_line (append "x = 1" nl)
    (append old_line (append nl "y = 2")) = true /\
  str_replace old_line new_line
    (append (append "x = 1" nl) (append old_line (append nl "y = 2")))
  = append (append "x = 1" nl) (append new_line (append nl "y = 2")).
Proof.
  assert (H : no_early_match old_line (append "x = 1" nl)
                (append old_line (append nl "y = 2")) = true) by reflexivity.
  split; [exact H |].
  rewrite (fix_replaces_first_occurrence _ _ H). reflexivity.
Defined.
